(** * android_os_Debug.cpp: smaps accounting and native heap dump

    A shallow embedding of the memory-introspection code of
    [core/jni/android_os_Debug.cpp]:

    - [read_mapinfo], the parser of [/proc/<pid>/smaps] that classifies every
      mapping and accumulates per-heap totals, and the folding loop of
      [android_os_Debug_getDirtyPagesPid];
    - [android_os_Debug_getPssPid], the single-pass pss/uss accumulator;
    - [compareHeapRecords] and [dumpNativeHeap];
    - [read_binder_stat], the reader of [/proc/binder/stats], and its two
      callers.

    Conventions.  The target is 32-bit Android (ILP32): [int], [unsigned],
    [unsigned long], [size_t] and [intptr_t] are 32 bits wide, [jlong] is 64
    bits.  Integers are [Z] with the wrap-around written out.  A C string is
    the [list ascii] of its characters before the terminating NUL.  Where ISO
    C leaves the behaviour undefined (a conversion by [scanf], [atoi] or from
    [float] whose result cannot be represented, a read of an uninitialised
    object, a division by zero, a signed overflow) the model yields [None];
    the conversion of an [unsigned] value to [int], which is
    implementation-defined, wraps around. *)

From Stdlib Require Import ZArith List Ascii String Bool Lia.
From Stdlib Require Import Floats.SpecFloat.
From Stdlib Require QArith.
From Stdlib Require Sorting.Sorted Sorting.Permutation.
Import ListNotations.
Local Open Scope Z_scope.

Set Implicit Arguments.

(** ** The option monad of undefined behaviour *)

Declare Scope ub_scope.
Delimit Scope ub_scope with ub.

Definition bind {A B : Type} (m : option A) (k : A -> option B) : option B :=
  match m with
  | Some a => k a
  | None => None
  end.

Notation "x <- m ;; k" := (bind m (fun x => k))
  (at level 61, m at next level, right associativity) : ub_scope.
Notation "' p <- m ;; k" := (bind m (fun x => match x with p => k end))
  (at level 61, p pattern, m at next level, right associativity) : ub_scope.

Local Open Scope ub_scope.

(** ** Machine integers *)

Module Int.

Definition UINT_MAX : Z := 4294967295.
Definition INT_MAX : Z := 2147483647.
Definition INT_MIN : Z := -2147483648.
Definition LLONG_MAX : Z := 9223372036854775807.
Definition LLONG_MIN : Z := -9223372036854775808.

(** Conversion to [unsigned] (and [unsigned long], [size_t]). *)
Definition u32 (z : Z) : Z := z mod 4294967296.

(** Conversion of an [unsigned] value to [int]: two's complement. *)
Definition s32 (z : Z) : Z := (z + 2147483648) mod 4294967296 - 2147483648.

Definition in_int (z : Z) : bool := (INT_MIN <=? z) && (z <=? INT_MAX).
Definition in_jlong (z : Z) : bool := (LLONG_MIN <=? z) && (z <=? LLONG_MAX).

(** [int + int] and [jlong + int]: signed overflow is undefined. *)
Definition add_int (a b : Z) : option Z :=
  if in_int (a + b) then Some (a + b) else None.
Definition add_jlong (a b : Z) : option Z :=
  if in_jlong (a + b) then Some (a + b) else None.

End Int.

(** ** Characters and C strings *)

Module CStr.

Definition code (c : ascii) : Z := Z.of_N (N_of_ascii c).

Definition NUL : ascii := ascii_of_N 0.
Definition is_nul (c : ascii) : bool := code c =? 0.

(** [lit "abc"] is the string literal: its characters, NUL excluded. *)
Definition lit (s : string) : list ascii := list_ascii_of_string s.

(** <ctype.h>, "C" locale. *)
Definition isspace (c : ascii) : bool :=
  (code c =? 32) || ((9 <=? code c) && (code c <=? 13)).
Definition isdigit (c : ascii) : bool := (48 <=? code c) && (code c <=? 57).

Definition hexval (c : ascii) : option Z :=
  let n := code c in
  if (48 <=? n) && (n <=? 57) then Some (n - 48)
  else if (97 <=? n) && (n <=? 102) then Some (n - 87)
  else if (65 <=? n) && (n <=? 70) then Some (n - 55)
  else None.

(** The string stored at the start of [l]: the characters before the first
    NUL.  [None] when no NUL is found, that is when the read runs off the
    initialised part of the array. *)
Fixpoint until_nul (l : list ascii) : option (list ascii) :=
  match l with
  | [] => None
  | c :: l' => if is_nul c then Some []
               else option_map (cons c) (until_nul l')
  end.

(** A [char] array is the list of its initialised leading bytes; [buf + p]
    read as a string. *)
Definition str_at (buf : list ascii) (p : nat) : option (list ascii) :=
  until_nul (skipn p buf).

(** [buf[p]], [None] outside the initialised part. *)
Definition char_at (buf : list ascii) (p : nat) : option ascii :=
  nth_error buf p.

(** [buf[p] = 0]. *)
Fixpoint store_nul (buf : list ascii) (p : nat) : list ascii :=
  match buf, p with
  | [], _ => []
  | _ :: t, O => NUL :: t
  | c :: t, S p' => c :: store_nul t p'
  end.

(** [s] up to its first NUL: what the callee sees of a line that holds
    a NUL byte. *)
Fixpoint cut_nul (s : list ascii) : list ascii :=
  match s with
  | [] => []
  | c :: s' => if is_nul c then [] else c :: cut_nul s'
  end.

(** [strncmp(a, b, n)]: sign of the first difference within [n] bytes,
    the end of a string counting as NUL. *)
Fixpoint strncmp (a b : list ascii) (n : nat) {struct n} : Z :=
  match n with
  | O => 0
  | S n' =>
      match a, b with
      | [], [] => 0
      | [], cb :: _ => if is_nul cb then 0 else -1
      | ca :: _, [] => if is_nul ca then 0 else 1
      | ca :: a', cb :: b' =>
          if code ca <? code cb then -1
          else if code cb <? code ca then 1
          else strncmp a' b' n'
      end
  end.

(** [strcmp(a, b)]. *)
Fixpoint strcmp (a b : list ascii) : Z :=
  match a, b with
  | [], [] => 0
  | [], _ :: _ => -1
  | _ :: _, [] => 1
  | ca :: a', cb :: b' =>
      if code ca <? code cb then -1
      else if code cb <? code ca then 1
      else strcmp a' b'
  end.

Fixpoint starts_with (needle s : list ascii) : bool :=
  match needle, s with
  | [], _ => true
  | _ :: _, [] => false
  | n :: needle', c :: s' => (code n =? code c) && starts_with needle' s'
  end.

(** [strstr(s, needle)] as the offset of the first occurrence. *)
Fixpoint strstr (s needle : list ascii) : option nat :=
  if starts_with needle s then Some O
  else match s with
       | [] => None
       | _ :: s' => option_map S (strstr s' needle)
       end.

End CStr.

(** ** The libc conversions the code relies on

    [atoi] and the directives of the three [sscanf] formats of the file,
    following ISO C 7.21.6.2 and 7.22.1: a conversion skips white space,
    takes the longest input item that is a prefix of a matching sequence,
    and fails when that item is not itself a matching sequence. *)

Module Libc.
Import CStr Int.

Fixpoint skip_ws (l : list ascii) : list ascii :=
  match l with
  | c :: l' => if isspace c then skip_ws l' else l
  | [] => []
  end.

(** An optional sign. *)
Definition take_sign (l : list ascii) : bool * list ascii :=
  match l with
  | c :: l' => if code c =? 45 then (true, l')
               else if code c =? 43 then (false, l')
               else (false, l)
  | [] => (false, [])
  end.

Fixpoint decimal (acc : Z) (l : list ascii) : Z * list ascii :=
  match l with
  | c :: l' => if isdigit c then decimal (acc * 10 + (code c - 48)) l'
               else (acc, l)
  | [] => (acc, [])
  end.

Fixpoint hexadecimal (acc : Z) (l : list ascii) : Z * list ascii :=
  match l with
  | c :: l' => match hexval c with
               | Some d => hexadecimal (acc * 16 + d) l'
               | None => (acc, l)
               end
  | [] => (acc, [])
  end.

(** [atoi(s)]: [(int) strtol(s, NULL, 10)], undefined when the value is
    not representable; no digits give 0. *)
Definition atoi (s : list ascii) : option Z :=
  let (neg, r) := take_sign (skip_ws s) in
  let (v, _) := decimal 0 r in
  let v' := if neg then - v else v in
  if in_int v' then Some v' else None.

(** The result of one conversion directive: the value and the unread
    input, or a matching (or input) failure. *)
Inductive conv (A : Type) : Type :=
| Conv (v : A) (rest : list ascii)
| NoConv.
Arguments NoConv {A}.

(** [%d]: the signed value of the digits. *)
Definition scan_d (l : list ascii) : conv Z :=
  let (neg, r) := take_sign (skip_ws l) in
  match r with
  | c :: _ =>
      if isdigit c
      then let (v, rest) := decimal 0 r in
           Conv (if neg then - v else v) rest
      else NoConv
  | [] => NoConv
  end.

(** [%x]: sign, optional [0x], hexadecimal digits; the magnitude and the
    sign are returned apart ([strtoul] negates in the unsigned type).  A
    [0x] that no digit follows is an input item which is no matching
    sequence: the directive fails. *)
Definition scan_x (l : list ascii) : conv (bool * Z) :=
  let (neg, r) := take_sign (skip_ws l) in
  let digits (d : list ascii) : conv (bool * Z) :=
    match d with
    | c :: _ =>
        match hexval c with
        | Some _ => let (v, rest) := hexadecimal 0 d in Conv (neg, v) rest
        | None => NoConv
        end
    | [] => NoConv
    end in
  match r with
  | z :: x :: t =>
      if (code z =? 48) && ((code x =? 120) || (code x =? 88))
      then digits t
      else digits r
  | _ => digits r
  end.

(** [%s]: a non-empty run of non-white-space characters. *)
Fixpoint skip_nonws (l : list ascii) : list ascii :=
  match l with
  | c :: l' => if isspace c then l else skip_nonws l'
  | [] => []
  end.

Definition scan_s (l : list ascii) : conv unit :=
  match skip_ws l with
  | [] => NoConv
  | c :: r => Conv tt (skip_nonws r)
  end.

(** An ordinary character of the format. *)
Definition scan_char (ch : Z) (l : list ascii) : conv unit :=
  match l with
  | c :: r => if code c =? ch then Conv tt r else NoConv
  | [] => NoConv
  end.

(** The ordinary characters [key] of a format, matched one by one. *)
Fixpoint scan_lit (key l : list ascii) : conv unit :=
  match key with
  | [] => Conv tt l
  | k :: key' =>
      match l with
      | c :: l' => if code c =? code k then scan_lit key' l' else NoConv
      | [] => NoConv
      end
  end.

(** [sscanf(line, "<key> %d kB", &temp)] with [unsigned temp]:
    [Some (Some t)] when it returns 1 having stored [t], [Some None] when
    it returns anything else, [None] when the number does not fit the
    [int] that [%d] stores. *)
Definition sscanf_kv (key : string) (line : list ascii) : option (option Z) :=
  match scan_lit (lit key) line with
  | NoConv => Some None
  | Conv _ r =>
      match scan_d (skip_ws r) with
      | NoConv => Some None
      | Conv v _ => if in_int v then Some (Some (u32 v)) else None
      end
  end.

(** What [sscanf(line, "%lx-%lx %*s %*x %*x:%*x %*d%n", &start, &end,
    &name_pos)] did. *)
Inductive header_scan : Type :=
| Hdr0                                 (* returned 0 or EOF *)
| Hdr1 (start : Z)                     (* returned 1 *)
| Hdr2 (start end_ : Z) (n : option nat).
                                       (* returned 2; [n] is the value
                                          stored by %n when it was reached *)

(** [%lx] into an [unsigned long]. *)
Definition scan_lx (l : list ascii) : option (conv Z) :=
  match scan_x l with
  | NoConv => Some NoConv
  | Conv (neg, v) r =>
      if v <=? UINT_MAX
      then Some (Conv (if neg then u32 (- v) else v) r)
      else None
  end.

(** [" %*s %*x %*x:%*x %*d"]: the unread input once all of it matched. *)
Definition scan_header_tail (l : list ascii) : conv unit :=
  match scan_s l with
  | NoConv => NoConv
  | Conv _ r1 =>
  match scan_x r1 with
  | NoConv => NoConv
  | Conv _ r2 =>
  match scan_x r2 with
  | NoConv => NoConv
  | Conv _ r3 =>
  match scan_char 58 r3 with
  | NoConv => NoConv
  | Conv _ r4 =>
  match scan_x r4 with
  | NoConv => NoConv
  | Conv _ r5 =>
  match scan_d r5 with
  | NoConv => NoConv
  | Conv _ r6 => Conv tt r6
  end end end end end end.

Definition sscanf_header (line : list ascii) : option header_scan :=
  c1 <- scan_lx line ;;
  match c1 with
  | NoConv => Some Hdr0
  | Conv start r1 =>
      match scan_char 45 r1 with
      | NoConv => Some (Hdr1 start)
      | Conv _ r2 =>
          c2 <- scan_lx r2 ;;
          match c2 with
          | NoConv => Some (Hdr1 start)
          | Conv end_ r3 =>
              match scan_header_tail r3 with
              | NoConv => Some (Hdr2 start end_ None)
              | Conv _ r4 =>
                  Some (Hdr2 start end_
                          (Some (List.length line - List.length r4)%nat))
              end
          end
      end
  end.

End Libc.

(** ** Single-precision arithmetic on the values the code computes

    [sharing_proportion] is a [float]; every value the code stores in it or
    computes from it is a non-negative integer below [2^65] (a converted
    [unsigned], a product or a sum of such), so a float is represented by the
    integer it denotes and each IEEE-754 binary32 operation is the exact
    result rounded to a 24-bit significand, to nearest, ties to even.  The
    product and the sum are rounded one after the other (no fused
    multiply-add), [FLT_EVAL_METHOD] being 0. *)

Module F32.

Definition round (n : Z) : Z :=
  if n <? 16777216 then n
  else
    let e := Z.log2 n - 23 in
    let q := Z.shiftr n e in
    let r := n - Z.shiftl q e in
    let half := Z.shiftl 1 (e - 1) in
    let q' := if r <? half then q
              else if half <? r then q + 1
              else if Z.even q then q else q + 1 in
    Z.shiftl q' e.

(** [(float) u]. *)
Definition of_unsigned (u : Z) : Z := round u.
Definition mul (a b : Z) : Z := round (a * b).
Definition add (a b : Z) : Z := round (a + b).

(** [(unsigned) x]: undefined when the value does not fit. *)
Definition to_unsigned (x : Z) : option Z :=
  if x <=? Int.UINT_MAX then Some x else None.

(** The same operations in the Standard Library's specification of
    IEEE-754 arithmetic, at precision 24 and maximal exponent 128; used to
    test [round] against. *)
Definition sf_of_Z (n : Z) : spec_float := binary_normalize 24 128 n 0 false.

Definition Z_of_sf (x : spec_float) : option Z :=
  match x with
  | S754_zero _ => Some 0
  | S754_finite false m e =>
      if 0 <=? e then Some (Z.shiftl (Zpos m) e)
      else if Zpos m mod Z.shiftl 1 (- e) =? 0
           then Some (Z.shiftr (Zpos m) (- e))
           else None
  | _ => None
  end.

(** [a * b + c] in that specification. *)
Definition sf_muladd (a b c : Z) : option Z :=
  Z_of_sf (SFadd 24 128 (SFmul 24 128 (sf_of_Z a) (sf_of_Z b)) (sf_of_Z c)).

End F32.

(** ** [read_mapinfo] *)

Module Smaps.
Import CStr Int Libc.

(** The anonymous [enum] of heap indices, in declaration order. *)
Inductive heap : Type :=
| HEAP_UNKNOWN
| HEAP_DALVIK
| HEAP_NATIVE
| HEAP_DALVIK_OTHER
| HEAP_STACK
| HEAP_CURSOR
| HEAP_ASHMEM
| HEAP_UNKNOWN_DEV
| HEAP_SO
| HEAP_JAR
| HEAP_APK
| HEAP_TTF
| HEAP_DEX
| HEAP_OAT
| HEAP_ART
| HEAP_UNKNOWN_MAP
| HEAP_DALVIK_NORMAL
| HEAP_DALVIK_LARGE
| HEAP_DALVIK_LINEARALLOC
| HEAP_DALVIK_ACCOUNTING
| HEAP_DALVIK_CODE_CACHE.

Definition heap_index (h : heap) : nat :=
  match h with
  | HEAP_UNKNOWN => 0 | HEAP_DALVIK => 1 | HEAP_NATIVE => 2
  | HEAP_DALVIK_OTHER => 3 | HEAP_STACK => 4 | HEAP_CURSOR => 5
  | HEAP_ASHMEM => 6 | HEAP_UNKNOWN_DEV => 7 | HEAP_SO => 8
  | HEAP_JAR => 9 | HEAP_APK => 10 | HEAP_TTF => 11 | HEAP_DEX => 12
  | HEAP_OAT => 13 | HEAP_ART => 14 | HEAP_UNKNOWN_MAP => 15
  | HEAP_DALVIK_NORMAL => 16 | HEAP_DALVIK_LARGE => 17
  | HEAP_DALVIK_LINEARALLOC => 18 | HEAP_DALVIK_ACCOUNTING => 19
  | HEAP_DALVIK_CODE_CACHE => 20
  end%nat.

(** All the indices, in order: [heaps] has [_NUM_HEAP] entries. *)
Definition heaps : list heap :=
  [ HEAP_UNKNOWN; HEAP_DALVIK; HEAP_NATIVE; HEAP_DALVIK_OTHER; HEAP_STACK;
    HEAP_CURSOR; HEAP_ASHMEM; HEAP_UNKNOWN_DEV; HEAP_SO; HEAP_JAR; HEAP_APK;
    HEAP_TTF; HEAP_DEX; HEAP_OAT; HEAP_ART; HEAP_UNKNOWN_MAP;
    HEAP_DALVIK_NORMAL; HEAP_DALVIK_LARGE; HEAP_DALVIK_LINEARALLOC;
    HEAP_DALVIK_ACCOUNTING; HEAP_DALVIK_CODE_CACHE ].

Definition _NUM_HEAP : nat := 21.
Definition _NUM_EXCLUSIVE_HEAP : nat := S (heap_index HEAP_UNKNOWN_MAP).
Definition _NUM_CORE_HEAP : nat := S (heap_index HEAP_NATIVE).

(** The indices [lo <= i < hi], as a [for] loop visits them. *)
Definition heap_range (lo hi : nat) : list heap :=
  firstn (hi - lo) (skipn lo heaps).

Definition heap_eqb (a b : heap) : bool :=
  Nat.eqb (heap_index a) (heap_index b).

Record stats_t : Type := mk_stats {
  pss : Z;
  swappablePss : Z;
  privateDirty : Z;
  sharedDirty : Z;
  privateClean : Z;
  sharedClean : Z
}.

(** [stats_t stats[_NUM_HEAP]]. *)
Definition stats_array : Type := heap -> stats_t.

Definition stats_zero : stats_array := fun _ => mk_stats 0 0 0 0 0 0.

Definition set_stats (st : stats_array) (h : heap) (s : stats_t) : stats_array :=
  fun h' => if heap_eqb h' h then s else st h'.

(** The [unsigned] locals of [read_mapinfo] that hold the statistics of
    the block being read. *)
Module Var.
Record t : Type := mk {
  size : Z;
  resident : Z;
  pss : Z;
  swappable_pss : Z;
  shared_clean : Z;
  shared_dirty : Z;
  private_clean : Z;
  private_dirty : Z;
  referenced : Z
}.

Definition zero : t := mk 0 0 0 0 0 0 0 0 0.

Definition set_size (v : t) (x : Z) : t :=
  mk x (resident v) (pss v) (swappable_pss v) (shared_clean v)
     (shared_dirty v) (private_clean v) (private_dirty v) (referenced v).
Definition set_resident (v : t) (x : Z) : t :=
  mk (size v) x (pss v) (swappable_pss v) (shared_clean v)
     (shared_dirty v) (private_clean v) (private_dirty v) (referenced v).
Definition set_pss (v : t) (x : Z) : t :=
  mk (size v) (resident v) x (swappable_pss v) (shared_clean v)
     (shared_dirty v) (private_clean v) (private_dirty v) (referenced v).
Definition set_swappable_pss (v : t) (x : Z) : t :=
  mk (size v) (resident v) (pss v) x (shared_clean v)
     (shared_dirty v) (private_clean v) (private_dirty v) (referenced v).
Definition set_shared_clean (v : t) (x : Z) : t :=
  mk (size v) (resident v) (pss v) (swappable_pss v) x
     (shared_dirty v) (private_clean v) (private_dirty v) (referenced v).
Definition set_shared_dirty (v : t) (x : Z) : t :=
  mk (size v) (resident v) (pss v) (swappable_pss v) (shared_clean v)
     x (private_clean v) (private_dirty v) (referenced v).
Definition set_private_clean (v : t) (x : Z) : t :=
  mk (size v) (resident v) (pss v) (swappable_pss v) (shared_clean v)
     (shared_dirty v) x (private_dirty v) (referenced v).
Definition set_private_dirty (v : t) (x : Z) : t :=
  mk (size v) (resident v) (pss v) (swappable_pss v) (shared_clean v)
     (shared_dirty v) (private_clean v) x (referenced v).
Definition set_referenced (v : t) (x : Z) : t :=
  mk (size v) (resident v) (pss v) (swappable_pss v) (shared_clean v)
     (shared_dirty v) (private_clean v) (private_dirty v) x.
End Var.

(** *** Classification of a mapping by its name (lines 187-258) *)

(** [strstr(name, s) == name]. *)
Definition strstr_at_start (name : list ascii) (s : string) : bool :=
  match strstr name (lit s) with
  | Some O => true
  | _ => false
  end.

(** [strncmp(name, s, n) == 0]. *)
Definition strncmp_eq (name : list ascii) (s : string) (n : nat) : bool :=
  strncmp name (lit s) n =? 0.

(** [nameLen > k && strcmp(name+nameLen-k, s) == 0]. *)
Definition ends_in (name : list ascii) (nameLen k : nat) (s : string) : bool :=
  (k <? nameLen)%nat && (strcmp (skipn (nameLen - k) name) (lit s) =? 0).

(** The sub-heap of a [/dev/ashmem/dalvik-] mapping, with the heap it
    selects. *)
Definition classify_dalvik (name : list ascii) : heap * heap :=
  if strstr_at_start name "/dev/ashmem/dalvik-LinearAlloc"
  then (HEAP_DALVIK_OTHER, HEAP_DALVIK_LINEARALLOC)
  else if strstr_at_start name "/dev/ashmem/dalvik-mark"
       || strstr_at_start name "/dev/ashmem/dalvik-allocspace alloc space live-bitmap"
       || strstr_at_start name "/dev/ashmem/dalvik-allocspace alloc space mark-bitmap"
       || strstr_at_start name "/dev/ashmem/dalvik-card table"
       || strstr_at_start name "/dev/ashmem/dalvik-allocation stack"
       || strstr_at_start name "/dev/ashmem/dalvik-live stack"
       || strstr_at_start name "/dev/ashmem/dalvik-imagespace"
       || strstr_at_start name "/dev/ashmem/dalvik-bitmap"
       || strstr_at_start name "/dev/ashmem/dalvik-card-table"
       || strstr_at_start name "/dev/ashmem/dalvik-mark-stack"
       || strstr_at_start name "/dev/ashmem/dalvik-aux-structure"
  then (HEAP_DALVIK_OTHER, HEAP_DALVIK_ACCOUNTING)
  else if strstr_at_start name "/dev/ashmem/dalvik-large"
  then (HEAP_DALVIK, HEAP_DALVIK_LARGE)
  else if strstr_at_start name "/dev/ashmem/dalvik-jit-code-cache"
  then (HEAP_DALVIK_OTHER, HEAP_DALVIK_CODE_CACHE)
  else (HEAP_DALVIK, HEAP_DALVIK_NORMAL).

(** [(whichHeap, subHeap, is_swappable)] after the [if] chain, all three
    having been reset to [HEAP_UNKNOWN], [HEAP_UNKNOWN] and [false] at the
    top of the loop. *)
Definition classify (name : list ascii) (start prevEnd : Z) (prevHeap : heap)
  : heap * heap * bool :=
  let nameLen := List.length name in
  if strstr_at_start name "[heap]" then (HEAP_NATIVE, HEAP_UNKNOWN, false)
  else if strncmp_eq name "/dev/ashmem" 11 then
    if strncmp_eq name "/dev/ashmem/dalvik-" 19 then
      let (wh, sh) := classify_dalvik name in (wh, sh, false)
    else if strncmp_eq name "/dev/ashmem/CursorWindow" 24
    then (HEAP_CURSOR, HEAP_UNKNOWN, false)
    else if strncmp_eq name "/dev/ashmem/libc malloc" 23
    then (HEAP_NATIVE, HEAP_UNKNOWN, false)
    else (HEAP_ASHMEM, HEAP_UNKNOWN, false)
  else if strncmp_eq name "[anon:libc_malloc]" 18
  then (HEAP_NATIVE, HEAP_UNKNOWN, false)
  else if strncmp_eq name "[stack" 6 then (HEAP_STACK, HEAP_UNKNOWN, false)
  else if strncmp_eq name "/dev/" 5 then (HEAP_UNKNOWN_DEV, HEAP_UNKNOWN, false)
  else if ends_in name nameLen 3 ".so" then (HEAP_SO, HEAP_UNKNOWN, true)
  else if ends_in name nameLen 4 ".jar" then (HEAP_JAR, HEAP_UNKNOWN, true)
  else if ends_in name nameLen 4 ".apk" then (HEAP_APK, HEAP_UNKNOWN, true)
  else if ends_in name nameLen 4 ".ttf" then (HEAP_TTF, HEAP_UNKNOWN, true)
  else if ends_in name nameLen 4 ".dex" || ends_in name nameLen 5 ".odex"
  then (HEAP_DEX, HEAP_UNKNOWN, true)
  else if ends_in name nameLen 4 ".oat" then (HEAP_OAT, HEAP_UNKNOWN, true)
  else if ends_in name nameLen 4 ".art" then (HEAP_ART, HEAP_UNKNOWN, true)
  else if strncmp_eq name "[anon:" 6 then (HEAP_UNKNOWN, HEAP_UNKNOWN, false)
  else if (0 <? nameLen)%nat then (HEAP_UNKNOWN_MAP, HEAP_UNKNOWN, false)
  else if (start =? prevEnd) && heap_eqb prevHeap HEAP_SO
  then (HEAP_SO, HEAP_UNKNOWN, false)
  else (HEAP_UNKNOWN, HEAP_UNKNOWN, false).

(** *** The streams and the line buffer *)

(** A [FILE*] open for reading is the list of the lines that successive
    [fgets(line, 1024, fp)] calls will store, each with its newline when
    it has one; [fopen] cuts a text into them. *)
Definition FILE : Type := list (list ascii).

Fixpoint fopen_aux (room : nat) (cur text : list ascii) : FILE :=
  match text with
  | [] => match cur with [] => [] | _ => [rev cur] end
  | c :: text' =>
      if code c =? 10 then rev (c :: cur) :: fopen_aux 1023 [] text'
      else match room with
           | O | 1%nat => rev (c :: cur) :: fopen_aux 1023 [] text'
           | S room' => fopen_aux room' (c :: cur) text'
           end
  end.

Definition fopen (text : string) : FILE := fopen_aux 1023 [] (lit text).

(** [fgets(line, 1024, fp)] stores [l] and a NUL at the start of the
    array and leaves the bytes after them as they were. *)
Definition fgets_store (l line : list ascii) : list ascii :=
  l ++ NUL :: skipn (S (List.length l)) line.

(** [while (isspace(line[name_pos])) name_pos += 1], on [l = line +
    name_pos]. *)
Fixpoint skip_space_from (l : list ascii) (name_pos : nat) : option nat :=
  match l with
  | [] => None
  | c :: l' => if isspace c then skip_space_from l' (S name_pos)
               else Some name_pos
  end.

(** *** The swappable pss of a block (lines 294-301) *)

Definition compute_swappable_pss (is_swappable : bool) (v : Var.t)
  : option Z :=
  if is_swappable && (0 <? Var.pss v) then
    sharing_proportion <-
      (if (0 <? Var.shared_clean v) || (0 <? Var.shared_dirty v) then
         let num := u32 (u32 (Var.pss v - Var.private_clean v)
                         - Var.private_dirty v) in
         let den := u32 (Var.shared_clean v + Var.shared_dirty v) in
         if den =? 0 then None
         else Some (F32.of_unsigned (num / den))
       else Some 0) ;;
    F32.to_unsigned
      (F32.add (F32.mul sharing_proportion
                        (F32.of_unsigned (Var.shared_clean v)))
               (F32.of_unsigned (Var.private_clean v)))
  else Some 0.

(** [stats[h].pss += pss; ...]: the six additions of lines 303-308, an
    [int] plus an [unsigned] converted back to [int]. *)
Definition add_block (st : stats_array) (h : heap) (v : Var.t) : stats_array :=
  set_stats st h
    (mk_stats (s32 (pss (st h) + Var.pss v))
              (s32 (swappablePss (st h) + Var.swappable_pss v))
              (s32 (privateDirty (st h) + Var.private_dirty v))
              (s32 (sharedDirty (st h) + Var.shared_dirty v))
              (s32 (privateClean (st h) + Var.private_clean v))
              (s32 (sharedClean (st h) + Var.shared_clean v))).

(** *** The loop *)

(** The locals that live across iterations of the outer loop. *)
Record frame : Type := mk_frame {
  line : list ascii;        (* initialised leading bytes of [char line[1024]] *)
  name_pos : option nat;    (* [None] until [sscanf] has stored it *)
  end_ : Z;
  whichHeap : heap;
  vars : Var.t
}.

(** A block as the parser completed it: ghost data, kept to state what
    was accumulated. *)
Record block : Type := mk_block {
  b_skip : bool;
  b_whichHeap : heap;
  b_subHeap : heap;
  b_is_swappable : bool;
  b_vars : Var.t
}.

(** Lines 167-259: the header line is in [line]. *)
Inductive header : Type :=
| Return
| Header (line' : list ascii) (name_pos' : option nat) (end' : Z)
         (skip : bool) (whichHeap' subHeap : heap) (is_swappable : bool).

Definition read_header (f : frame) : option header :=
  s <- str_at (line f) 0 ;;
  let len := List.length s in
  if (len <? 1)%nat then Some Return
  else
    let line1 := store_nul (line f) (len - 1) in
    hdr <- str_at line1 0 ;;
    sc <- sscanf_header hdr ;;
    match sc with
    | Hdr2 start e n =>
        np <- (match n with Some p => Some p | None => name_pos f end) ;;
        np' <- skip_space_from (skipn np line1) np ;;
        name <- str_at line1 np' ;;
        let '(wh, sh, sw) := classify name start (end_ f) (whichHeap f) in
        Some (Header line1 (Some np') e false wh sh sw)
    | _ =>
        Some (Header line1 (name_pos f) (end_ f) true
                     HEAP_UNKNOWN HEAP_UNKNOWN false)
    end.

(** [strlen(line) > 30 && line[8] == '-' && line[17] == ' ']. *)
Definition looks_like_header (s : list ascii) : bool :=
  (30 <? List.length s)%nat
  && (code (nth 8 s NUL) =? 45) && (code (nth 17 s NUL) =? 32).

(** The chain of [sscanf] tests of lines 270-285 on the line [s]: the
    variables once a key matched, [Some None] when none did. *)
Definition scan_stat_line (s : list ascii) (v : Var.t)
  : option (option Var.t) :=
  r <- sscanf_kv "Size:" s ;;
  match r with Some temp => Some (Some (Var.set_size v temp)) | None =>
  r <- sscanf_kv "Rss:" s ;;
  match r with Some temp => Some (Some (Var.set_resident v temp)) | None =>
  r <- sscanf_kv "Pss:" s ;;
  match r with Some temp => Some (Some (Var.set_pss v temp)) | None =>
  r <- sscanf_kv "Shared_Clean:" s ;;
  match r with Some temp => Some (Some (Var.set_shared_clean v temp)) | None =>
  r <- sscanf_kv "Shared_Dirty:" s ;;
  match r with Some temp => Some (Some (Var.set_shared_dirty v temp)) | None =>
  r <- sscanf_kv "Private_Clean:" s ;;
  match r with Some temp => Some (Some (Var.set_private_clean v temp)) | None =>
  r <- sscanf_kv "Private_Dirty:" s ;;
  match r with Some temp => Some (Some (Var.set_private_dirty v temp)) | None =>
  r <- sscanf_kv "Referenced:" s ;;
  match r with Some temp => Some (Some (Var.set_referenced v temp)) | None =>
  Some None
  end end end end end end end end.

(** Lines 264-291.  The result is the buffer, the variables, and the
    stream left when the loop ended on a line that looks like a header
    ([None] when it ended on end of file, [done] being set). *)
Fixpoint read_stat_lines (line : list ascii) (v : Var.t) (fp : FILE)
  : option (list ascii * Var.t * option FILE) :=
  match fp with
  | [] => Some (line, v, None)
  | l :: fp' =>
      let line' := fgets_store l line in
      let s := cut_nul l in
      r <- scan_stat_line s v ;;
      match r with
      | Some v' => read_stat_lines line' v' fp'
      | None =>
          if looks_like_header s then Some (line', v, Some fp')
          else read_stat_lines line' v fp'
      end
  end.

(** Lines 293-317. *)
Definition finish_block (skip : bool) (whichHeap subHeap : heap)
    (is_swappable : bool) (v : Var.t) (stats : stats_array)
  : option (Var.t * stats_array) :=
  if skip then Some (v, stats)
  else
    swappable_pss <- compute_swappable_pss is_swappable v ;;
    let v' := Var.set_swappable_pss v swappable_pss in
    let stats1 := add_block stats whichHeap v' in
    let stats2 :=
      if heap_eqb whichHeap HEAP_DALVIK || heap_eqb whichHeap HEAP_DALVIK_OTHER
      then add_block stats1 subHeap v'
      else stats1 in
    Some (v', stats2).

Inductive outcome (A : Type) : Type :=
| Done (a : A)
| Undefined
| OutOfFuel.
Arguments Undefined {A}.
Arguments OutOfFuel {A}.

(** One iteration of [while (!done)]: the function returns, or the block
    is completed and the loop ends ([done]) or goes on. *)
Inductive step : Type :=
| StepReturn
| StepDone (stats' : stats_array) (b : block)
| StepNext (f' : frame) (fp' : FILE) (stats' : stats_array) (b : block).

Definition loop_body (f : frame) (fp : FILE) (stats : stats_array)
  : option step :=
  h <- read_header f ;;
  match h with
  | Return => Some StepReturn
  | Header line1 np e skip wh sh sw =>
      ' (line2, v2, next) <- read_stat_lines line1 (vars f) fp ;;
      ' (v3, stats') <- finish_block skip wh sh sw v2 stats ;;
      let b := mk_block skip wh sh sw v3 in
      match next with
      | None => Some (StepDone stats' b)
      | Some fp' => Some (StepNext (mk_frame line2 np e wh v3) fp' stats' b)
      end
  end.

(** [while (!done) { ... }]: one unit of fuel per iteration. *)
Fixpoint mapinfo_loop (fuel : nat) (f : frame) (fp : FILE)
    (stats : stats_array) (trace : list block)
  : outcome (stats_array * list block) :=
  match fuel with
  | O => OutOfFuel
  | S fuel' =>
      match loop_body f fp stats with
      | None => Undefined
      | Some StepReturn => Done (stats, trace)
      | Some (StepDone stats' b) => Done (stats', trace ++ [b])
      | Some (StepNext f' fp' stats' b) =>
          mapinfo_loop fuel' f' fp' stats' (trace ++ [b])
      end
  end.

(** [read_mapinfo(fp, stats)], with the ghost list of the blocks it
    completed.  Every iteration but the last consumes a line, so the
    fuel given is enough ([read_mapinfo_terminates]). *)
Definition read_mapinfo_blocks (fp : FILE) (stats : stats_array)
  : outcome (stats_array * list block) :=
  match fp with
  | [] => Done (stats, [])
  | l :: fp' =>
      mapinfo_loop (S (List.length fp'))
        (mk_frame (fgets_store l []) None 0 HEAP_UNKNOWN Var.zero)
        fp' stats []
  end.

Definition read_mapinfo (fp : FILE) (stats : stats_array)
  : outcome stats_array :=
  match read_mapinfo_blocks fp stats with
  | Done (stats', _) => Done stats'
  | Undefined => Undefined
  | OutOfFuel => OutOfFuel
  end.

End Smaps.

(** ** [android_os_Debug_getDirtyPagesPid] *)

Module DirtyPages.
Import Int Smaps.

(** [load_maps(pid, stats)]: [smaps] is the stream [fopen] gave, [None]
    when it failed. *)
Definition load_maps (smaps : option FILE) (stats : stats_array)
  : outcome stats_array :=
  match smaps with
  | None => Done stats
  | Some fp => read_mapinfo fp stats
  end.

(** The body of the loop of lines 343-350: [int] additions. *)
Definition fold_heap (stats : stats_array) (i : heap) : option stats_array :=
  let u := stats HEAP_UNKNOWN in
  a <- add_int (pss u) (pss (stats i)) ;;
  b <- add_int (swappablePss u) (swappablePss (stats i)) ;;
  c <- add_int (privateDirty u) (privateDirty (stats i)) ;;
  d <- add_int (sharedDirty u) (sharedDirty (stats i)) ;;
  e <- add_int (privateClean u) (privateClean (stats i)) ;;
  f <- add_int (sharedClean u) (sharedClean (stats i)) ;;
  Some (set_stats stats HEAP_UNKNOWN (mk_stats a b c d e f)).

Fixpoint fold_heaps (stats : stats_array) (range : list heap)
  : option stats_array :=
  match range with
  | [] => Some stats
  | i :: range' => stats' <- fold_heap stats i ;; fold_heaps stats' range'
  end.

(** What the call stores: the fields of the three core heaps and the
    [otherStats] array. *)
Record MemoryInfo : Type := mk_info {
  core : list stats_t;
  otherStats : list Z
}.

Definition six (s : stats_t) : list Z :=
  [pss s; swappablePss s; privateDirty s; sharedDirty s;
   privateClean s; sharedClean s].

Definition getDirtyPagesPid (smaps : option FILE) : outcome MemoryInfo :=
  match load_maps smaps stats_zero with
  | Done stats =>
      match fold_heaps stats (heap_range _NUM_CORE_HEAP _NUM_EXCLUSIVE_HEAP) with
      | None => Undefined
      | Some stats' =>
          Done (mk_info (map stats' (heap_range 0 _NUM_CORE_HEAP))
                  (flat_map (fun i => six (stats' i))
                     (heap_range _NUM_CORE_HEAP _NUM_HEAP)))
      end
  | Undefined => Undefined
  | OutOfFuel => OutOfFuel
  end.

End DirtyPages.

(** ** [android_os_Debug_getPssPid] *)

Module PssPid.
Import CStr Int Libc.

(** [while ( *c != 0 && ( *c < '0' || *c > '9')) c++], on the bytes from
    [c] on: the bytes from the first digit or NUL on. *)
Fixpoint skip_to_digit (l : list ascii) : option (list ascii) :=
  match l with
  | [] => None
  | c :: l' => if is_nul c || isdigit c then Some l else skip_to_digit l'
  end.

(** [atoi(c)] on the bytes from [c] on. *)
Definition atoi_at (l : list ascii) : option Z :=
  s <- until_nul l ;; atoi s.

(** A C condition: non-zero is true. *)
Definition truth (z : Z) : bool := negb (z =? 0).

Record state : Type := mk_state {
  line : list ascii;     (* initialised leading bytes of [char line[1024]] *)
  pss : Z;
  uss : Z
}.

(** The condition of line 413. *)
Definition private_test (s : list ascii) : bool :=
  truth (strncmp s (lit "Private_Clean:") 14)
  || truth (strncmp s (lit "Private_Dirty:") 14).

(** The body of the loop for the line [l] that [fgets] stored. *)
Definition read_line (st : state) (l : list ascii) : option state :=
  let line' := Smaps.fgets_store l (line st) in
  s <- str_at line' 0 ;;
  c0 <- char_at line' 0 ;;
  if code c0 =? 80 then
    if strncmp s (lit "Pss:") 4 =? 0 then
      c <- skip_to_digit (skipn 4 line') ;;
      n <- atoi_at c ;;
      pss' <- add_jlong (pss st) n ;;
      Some (mk_state line' pss' (uss st))
    else if private_test s then
      c <- skip_to_digit (skipn 14 line') ;;
      n <- atoi_at c ;;
      uss' <- add_jlong (uss st) n ;;
      Some (mk_state line' (pss st) uss')
    else Some (mk_state line' (pss st) (uss st))
  else Some (mk_state line' (pss st) (uss st)).

Fixpoint read_lines (st : state) (fp : Smaps.FILE) : option state :=
  match fp with
  | [] => Some st
  | l :: fp' => st' <- read_line st l ;; read_lines st' fp'
  end.

(** The value returned, and the value stored in [outUss[0]] when
    [outUss] can take it.  When the file cannot be opened the function
    returns 0 at once (line 399) and stores nothing. *)
Definition getPssPid (smaps : option Smaps.FILE) : option (Z * option Z) :=
  match smaps with
  | None => Some (0, None)
  | Some fp =>
      st <- read_lines (mk_state [] 0 0) fp ;;
      Some (pss st, Some (uss st))
  end.

End PssPid.

(** ** [compareHeapRecords] and [dumpNativeHeap] *)

Module NativeHeap.
Import CStr Int.

Definition SIZE_FLAG_ZYGOTE_CHILD : Z := Z.shiftl 1 31.
Definition BACKTRACE_SIZE : nat := 32.

(** One entry of the array that [get_malloc_leak_info] returns:
    [size_t size; size_t allocations; intptr_t backtrace[32]]. *)
Record record : Type := mk_record {
  size : Z;
  allocations : Z;
  backtrace : list Z
}.

(** [bt[idx]]. *)
Definition slot (bt : list Z) (idx : nat) : Z := nth idx bt 0.

(** The [for] loop of lines 520-533 from [idx] on, [todo] slots being
    left; the value is what [compareHeapRecords] returns. *)
Fixpoint compare_backtraces (todo idx : nat) (bt1 bt2 : list Z) : Z :=
  match todo with
  | O => 0
  | S todo' =>
      let addr1 := slot bt1 idx in
      let addr2 := slot bt2 idx in
      if addr1 =? addr2 then
        if addr1 =? 0 then 0
        else compare_backtraces todo' (S idx) bt1 bt2
      else if addr1 <? addr2 then -1
      else if addr2 <? addr1 then 1
      else compare_backtraces todo' (S idx) bt1 bt2
  end.

Definition compareHeapRecords (rec1 rec2 : record) : Z :=
  let size1 := size rec1 in
  let size2 := size rec2 in
  if size1 <? size2 then 1
  else if size2 <? size1 then -1
  else compare_backtraces BACKTRACE_SIZE 0 (backtrace rec1) (backtrace rec2).

(** What is written to [fp]: the [fprintf] calls with their arguments,
    and the bytes [fwrite] copies. *)
Inductive arg : Type :=
| Num (z : Z)
| Str (s : string).

Inductive output : Type :=
| Fprintf (format : string) (args : list arg)
| Fwrite (bytes : list ascii).

Definition nl : string := String (ascii_of_N 10) EmptyString.

(** What [get_malloc_leak_info] stored; [info] is [None] for [NULL]. *)
Record leak_info : Type := mk_leak {
  info : option (list record);
  overallSize : Z;
  infoSize : Z;
  totalMemory : Z;
  backtraceSize : Z
}.

Inductive exit : Type :=
| Returned
| AssertionFailed.

(** Lines 599-605, from slot [bt] on. *)
Fixpoint dump_backtrace (todo bt : nat) (backtrace : list Z) : list output :=
  match todo with
  | O => []
  | S todo' =>
      if slot backtrace bt =? 0 then []
      else Fprintf " %08x" [Num (slot backtrace bt)]
           :: dump_backtrace todo' (S bt) backtrace
  end.

(** Lines 591-606. *)
Definition dump_record (backtraceSize : Z) (r : record) : list output :=
  Fprintf "z %d  sz %8zu  num %4zu  bt"
    [Num (if Z.land (size r) SIZE_FLAG_ZYGOTE_CHILD =? 0 then 0 else 1);
     Num (Z.land (size r) (u32 (Z.lnot SIZE_FLAG_ZYGOTE_CHILD)));
     Num (allocations r)]
  :: dump_backtrace (Z.to_nat backtraceSize) 0 (backtrace r)
  ++ [Fprintf nl []].

Definition guidance : list output :=
  [ Fprintf ("Native heap dump not available. To enable, run these"
             ++ " commands (requires root):" ++ nl) [];
    Fprintf ("$ adb shell setprop libc.debug.malloc 1" ++ nl) [];
    Fprintf ("$ adb shell stop" ++ nl) [];
    Fprintf ("$ adb shell start" ++ nl) [] ].

Section Dump.

(** [qsort] of <stdlib.h>, which sorts by the comparator it is given, and
    the size of the buffer of <stdio.h>. *)
Variable qsort : (record -> record -> Z) -> list record -> list record.
Variable BUFSIZ : nat.

(** Lines 621-623: [fread] takes up to [BUFSIZ] bytes and [fwrite] copies
    them, until [fread] returns 0. *)
Fixpoint copy_maps (fuel : nat) (content : list ascii) : list output :=
  match fuel with
  | O => []
  | S fuel' =>
      match firstn BUFSIZ content with
      | [] => []
      | buf => Fwrite buf :: copy_maps fuel' (skipn BUFSIZ content)
      end
  end.

(** [dumpNativeHeap(fp)]: [leak] is what [get_malloc_leak_info] gave and
    [maps] the content of [/proc/self/maps], [None] when it cannot be
    opened.  The two [assert]s are taken as compiled in. *)
Definition dumpNativeHeap (leak : leak_info) (maps : option (list ascii))
  : list output * exit :=
  match info leak with
  | None => (guidance, Returned)
  | Some records =>
      if (infoSize leak =? 0)
         || negb (overallSize leak mod infoSize leak =? 0)
      then ([], AssertionFailed)
      else
        let recordCount := overallSize leak / infoSize leak in
        let sorted :=
          qsort compareHeapRecords
                (firstn (Z.to_nat recordCount) records) in
        ([ Fprintf ("Android Native Heap Dump v1.0" ++ nl ++ nl) [];
           Fprintf ("Total memory: %zu" ++ nl) [Num (totalMemory leak)];
           Fprintf ("Allocation records: %zd" ++ nl) [Num recordCount] ]
         ++ (if backtraceSize leak =? Z.of_nat BACKTRACE_SIZE then []
             else [Fprintf ("WARNING: mismatched backtrace sizes (%d vs. %d)"
                            ++ nl)
                     [Num (backtraceSize leak);
                      Num (Z.of_nat BACKTRACE_SIZE)]])
         ++ [Fprintf nl []]
         ++ flat_map (dump_record (backtraceSize leak)) sorted
         ++ [Fprintf ("MAPS" ++ nl) []]
         ++ match maps with
            | None => [Fprintf ("Could not open %s" ++ nl)
                         [Str "/proc/self/maps"]]
            | Some content =>
                copy_maps (List.length content) content
                ++ [Fprintf ("END" ++ nl) []]
            end,
         Returned)
  end.

End Dump.

End NativeHeap.

(** ** Notions the properties are stated with *)

Module Spec.
Import CStr Int Libc.

(** *** Allocation records *)

(** The size with the flag bit cleared, as [dumpNativeHeap] prints it. *)
Definition cleared_size (r : NativeHeap.record) : Z :=
  Z.land (NativeHeap.size r) (u32 (Z.lnot NativeHeap.SIZE_FLAG_ZYGOTE_CHILD)).

(** The flag bit, as [dumpNativeHeap] prints it. *)
Definition flag (r : NativeHeap.record) : bool :=
  negb (Z.land (NativeHeap.size r) NativeHeap.SIZE_FLAG_ZYGOTE_CHILD =? 0).

(** [qsort] places [r1] before [r2] when the comparator is negative. *)
Definition sorts_before (r1 r2 : NativeHeap.record) : Prop :=
  NativeHeap.compareHeapRecords r1 r2 < 0.

(** Lexicographic comparison of two address sequences, ascending. *)
Fixpoint lex_compare (a b : list Z) : Z :=
  match a, b with
  | [], [] => 0
  | [], _ :: _ => -1
  | _ :: _, [] => 1
  | x :: a', y :: b' =>
      if x <? y then -1 else if y <? x then 1 else lex_compare a' b'
  end.

(** How many slots from [idx] on are looked at: those up to and
    including the first one where either backtrace holds zero, [todo] at
    most. *)
Fixpoint compared (todo idx : nat) (bt1 bt2 : list Z) : nat :=
  match todo with
  | O => O
  | S todo' =>
      if (NativeHeap.slot bt1 idx =? 0) || (NativeHeap.slot bt2 idx =? 0)
      then 1%nat
      else S (compared todo' (S idx) bt1 bt2)
  end.

(** The slots [idx, idx + n) of a backtrace. *)
Definition slots (bt : list Z) (idx n : nat) : list Z :=
  map (NativeHeap.slot bt) (seq idx n).

(** Nothing of the report proper: no header, count, record, address,
    mapping or end line. *)
Definition is_guidance_line (o : NativeHeap.output) : bool :=
  match o with
  | NativeHeap.Fprintf f [] =>
      CStr.starts_with (lit "Native heap dump not available") (lit f)
      || CStr.starts_with (lit "$ adb shell") (lit f)
  | _ => false
  end.

(** *** The smaps totals *)

(** What completing the block [b] does to the totals (lines 293-317). *)
Definition apply_block (st : Smaps.stats_array) (b : Smaps.block)
  : Smaps.stats_array :=
  if Smaps.b_skip b then st
  else
    let st1 := Smaps.add_block st (Smaps.b_whichHeap b) (Smaps.b_vars b) in
    if Smaps.heap_eqb (Smaps.b_whichHeap b) Smaps.HEAP_DALVIK
       || Smaps.heap_eqb (Smaps.b_whichHeap b) Smaps.HEAP_DALVIK_OTHER
    then Smaps.add_block st1 (Smaps.b_subHeap b) (Smaps.b_vars b)
    else st1.

(** The sum of one field of the totals over some heaps. *)
Definition sum_over (hs : list Smaps.heap) (field : Smaps.stats_t -> Z)
    (st : Smaps.stats_array) : Z :=
  fold_right (fun h acc => field (st h) + acc) 0 hs.

(** The whole array, the sixteen heaps a mapping is classified into
    ([HEAP_UNKNOWN] to [HEAP_UNKNOWN_MAP]), and the three core heaps. *)
Definition all_heaps : list Smaps.heap := Smaps.heap_range 0 Smaps._NUM_HEAP.
Definition primary_heaps : list Smaps.heap :=
  Smaps.heap_range 0 Smaps._NUM_EXCLUSIVE_HEAP.
Definition core_heaps : list Smaps.heap :=
  Smaps.heap_range 0 Smaps._NUM_CORE_HEAP.

(** The sum of the pss of the blocks. *)
Definition blocks_pss (trace : list Smaps.block) : Z :=
  fold_right (fun b acc => Smaps.Var.pss (Smaps.b_vars b) + acc) 0 trace.

(** The mappings counted: a skipped block is not. *)
Definition counted_pss (trace : list Smaps.block) : Z :=
  fold_right (fun b acc => if Smaps.b_skip b then acc
                           else Smaps.Var.pss (Smaps.b_vars b) + acc)
             0 trace.

(** A primary heap is one of the first [_NUM_EXCLUSIVE_HEAP]. *)
Definition is_primary (h : Smaps.heap) : bool :=
  (Smaps.heap_index h <? Smaps._NUM_EXCLUSIVE_HEAP)%nat.

Definition is_dalvik (h : Smaps.heap) : bool :=
  Smaps.heap_eqb h Smaps.HEAP_DALVIK
  || Smaps.heap_eqb h Smaps.HEAP_DALVIK_OTHER.

(** What holds of every block the parser completes: its heap is primary,
    its sub-heap is not when the heap is a Dalvik one, and its pss is not
    negative. *)
Definition block_ok (b : Smaps.block) : Prop :=
  is_primary (Smaps.b_whichHeap b) = true
  /\ (is_dalvik (Smaps.b_whichHeap b) = true ->
      is_primary (Smaps.b_subHeap b) = false)
  /\ 0 <= Smaps.Var.pss (Smaps.b_vars b).

Definition well_formed_headers (trace : list Smaps.block) : Prop :=
  Forall (fun b => Smaps.b_skip b = false) trace.

(** The block an iteration completed, the totals after it and the
    stream it left. *)
Definition step_block (st : Smaps.step)
  : option (Smaps.block * Smaps.stats_array * option Smaps.FILE) :=
  match st with
  | Smaps.StepReturn => None
  | Smaps.StepDone stats' b => Some (b, stats', None)
  | Smaps.StepNext _ fp' stats' b => Some (b, stats', Some fp')
  end.

(** The block of a header line that [sscanf] rejected. *)
Definition skipped_block (v : Smaps.Var.t) : Smaps.block :=
  Smaps.mk_block true Smaps.HEAP_UNKNOWN Smaps.HEAP_UNKNOWN false v.

(** The stream [read_stat_lines] leaves. *)
Definition stream_left
    (r : option (list ascii * Smaps.Var.t * option Smaps.FILE))
  : option (option Smaps.FILE) :=
  option_map snd r.

(** The statistic lines of a block: those [read_stat_lines] consumed
    before the line it stopped on. *)
Definition block_lines (fp : Smaps.FILE) (next : option Smaps.FILE)
  : list (list ascii) :=
  match next with
  | None => fp
  | Some rest => firstn (List.length fp - S (List.length rest)) fp
  end.

(** The formula of the swappable pss as the specification words it, in
    the rationals. *)
Definition swappable_pss_rational (is_swappable : bool)
    (pss privateClean privateDirty sharedClean sharedDirty : Z)
  : QArith_base.Q :=
  let sharing :=
    if 0 <? sharedClean + sharedDirty
    then QArith_base.Qdiv
           (QArith_base.inject_Z (pss - privateClean - privateDirty))
           (QArith_base.inject_Z (sharedClean + sharedDirty))
    else QArith_base.inject_Z 0 in
  if is_swappable && (0 <? pss)
  then QArith_base.Qplus
         (QArith_base.Qmult sharing (QArith_base.inject_Z sharedClean))
         (QArith_base.inject_Z privateClean)
  else QArith_base.inject_Z 0.

(** The keys of the statistic lines, the variable each is stored in,
    and the total it is added to (three of them to none). *)
Inductive key : Type :=
| Size | Rss | Pss | Shared_Clean | Shared_Dirty
| Private_Clean | Private_Dirty | Referenced.

Definition key_format (k : key) : string :=
  match k with
  | Size => "Size:" | Rss => "Rss:" | Pss => "Pss:"
  | Shared_Clean => "Shared_Clean:" | Shared_Dirty => "Shared_Dirty:"
  | Private_Clean => "Private_Clean:" | Private_Dirty => "Private_Dirty:"
  | Referenced => "Referenced:"
  end.

Definition variable (k : key) : Smaps.Var.t -> Z :=
  match k with
  | Size => Smaps.Var.size | Rss => Smaps.Var.resident
  | Pss => Smaps.Var.pss
  | Shared_Clean => Smaps.Var.shared_clean
  | Shared_Dirty => Smaps.Var.shared_dirty
  | Private_Clean => Smaps.Var.private_clean
  | Private_Dirty => Smaps.Var.private_dirty
  | Referenced => Smaps.Var.referenced
  end.

Definition total (k : key) : option (Smaps.stats_t -> Z) :=
  match k with
  | Pss => Some Smaps.pss
  | Shared_Clean => Some Smaps.sharedClean
  | Shared_Dirty => Some Smaps.sharedDirty
  | Private_Clean => Some Smaps.privateClean
  | Private_Dirty => Some Smaps.privateDirty
  | Size | Rss | Referenced => None
  end.

(** No line of [ls] stores a value for the key [k]. *)
Definition omits (k : key) (ls : list (list ascii)) : Prop :=
  Forall (fun l => sscanf_kv (key_format k) (cut_nul l) = Some None) ls.

(** *** The private-usage helper *)

(** A string proper: no NUL among its characters. *)
Definition no_nul (s : list ascii) : Prop :=
  Forall (fun c => is_nul c = false) s.

(** The first number of [s]: the decimal value of its first run of
    digits, [None] when [s] has no digit. *)
Fixpoint from_first_digit (s : list ascii) : list ascii :=
  match s with
  | [] => []
  | c :: s' => if isdigit c then s else from_first_digit s'
  end.

Definition first_number (s : list ascii) : option Z :=
  match from_first_digit s with
  | [] => None
  | d => Some (fst (decimal 0 d))
  end.

(** The first number found after column [col] of the line [l]. *)
Definition number_after (col : nat) (l : list ascii) : option Z :=
  first_number (skipn col (cut_nul l)).

(** The private-usage total as C4 words it: every line that begins
    with [P] and not with [Pss:] adds the first number found after its
    column 14, and nothing when it holds none. *)
Definition begins_with_P_not_Pss (l : list ascii) : bool :=
  starts_with (lit "P") (cut_nul l)
  && negb (starts_with (lit "Pss:") (cut_nul l)).

Definition uss_as_claimed (fp : Smaps.FILE) : Z :=
  fold_right
    (fun l acc =>
       (if begins_with_P_not_Pss l
        then match number_after 14 l with Some n => n | None => 0 end
        else 0) + acc)
    0 fp.

End Spec.

(** ** Sample inputs *)

Module Samples.
Import NativeHeap.

(** A record of a child of the zygote, of 10 bytes, and one of 100 bytes
    without the flag. *)
Definition flagged_small : record :=
  mk_record (SIZE_FLAG_ZYGOTE_CHILD + 10) 1 (5 :: repeat 0 31).
Definition plain_large : record :=
  mk_record 100 2 (1 :: repeat 0 31).

(** Two records of one size whose backtraces differ in the second slot. *)
Definition bt_1_2 : record := mk_record 64 1 (1 :: 2 :: repeat 0 30).
Definition bt_1_3 : record := mk_record 64 3 (1 :: 3 :: repeat 0 30).

(** Mapping listings. *)
Definition nl : string := String (ascii_of_N 10) EmptyString.

Definition libfoo : string :=
  "40000000-40001000 r-xp 00000000 b3:01 1234       /system/lib/libfoo.so"
  ++ nl ++
  "Size:                  4 kB" ++ nl ++
  "Rss:                   4 kB" ++ nl ++
  "Pss:                 100 kB" ++ nl ++
  "Shared_Clean:         50 kB" ++ nl ++
  "Shared_Dirty:         20 kB" ++ nl ++
  "Private_Clean:        20 kB" ++ nl ++
  "Private_Dirty:        10 kB" ++ nl ++
  "Referenced:            4 kB" ++ nl.

Definition dalvik_heap : string :=
  "41000000-42000000 rw-p 00000000 00:04 5678       /dev/ashmem/dalvik-heap"
  ++ nl ++
  "Pss:                 100 kB" ++ nl.

Definition two_large : string :=
  "00010000-00011000 rw-p 00000000 00:00 0          [heap]" ++ nl ++
  "Pss:          2147483647 kB" ++ nl ++
  "00020000-00021000 rw-p 00000000 00:00 0          [heap]" ++ nl ++
  "Pss:          2147483647 kB" ++ nl.

Definition heap_then_stack : string :=
  "00010000-00011000 rw-p 00000000 00:00 0          [heap]" ++ nl ++
  "Size:                  7 kB" ++ nl ++
  "00020000-00021000 rw-p 00000000 00:00 0          [stack]" ++ nl.

Definition libfoo_then_heap : string :=
  libfoo ++
  "00010000-00011000 rw-p 00000000 00:00 0          [heap]" ++ nl ++
  "Pss:                   3 kB" ++ nl.

(** The values of a block: pss, shared clean and dirty, private clean and
    dirty, the three other variables being 0. *)
Definition block_vars (p sc sd pc pd : Z) : Smaps.Var.t :=
  Smaps.Var.mk 0 0 p 0 sc sd pc pd 0.

(** Values to test the rounding of [F32] on: around each power of two
    from [2^20] to [2^63], and three ranges that hold ties. *)
Definition rounding_samples : list Z :=
  flat_map
    (fun k => map (fun d => Z.shiftl 1 k + d)
                  [ -3; -2; -1; 0; 1; 2; 3; 5; 7; 64; 127; 128; 129; 255;
                    256; 257; 383; 384; 385; 1000003 ])
    (map Z.of_nat (seq 20 44))
  ++ map (fun i => 16777216 + Z.of_nat i) (seq 0 600)
  ++ map (fun i => 3 * 16777216 + Z.of_nat i) (seq 0 600)
  ++ map (fun i => 2147483000 + Z.of_nat i) (seq 0 1300).

Definition muladd_samples : list (Z * Z * Z) :=
  flat_map
    (fun a => flat_map
       (fun b => map (fun c => (a, b, c))
                     [0; 1; 20; 16777215; 16777217; 4294967295])
       [0; 1; 3; 50; 16777215; 16777219; 4294967295])
    [0; 1; 2; 42949672; 16777216; 16777217; 33554433; 4294967295].

(** A frame at the header of a second block, the variables holding what
    an earlier block left (pss 100 among them), and statistic lines
    without a [Pss:] line. *)
Definition stack_frame : Smaps.frame :=
  Smaps.mk_frame
    (Smaps.fgets_store
       (CStr.lit ("00020000-00021000 rw-p 00000000 00:00 0          [stack]"
                  ++ nl)) [])
    (Some 49%nat) 4096 Smaps.HEAP_SO (block_vars 100 50 20 20 10).

Definition lines_without_pss : Smaps.FILE :=
  Smaps.fopen ("Size:                  8 kB" ++ nl ++
               "Private_Dirty:         8 kB" ++ nl).

(** Two lines for [getPssPid]: one that begins with [Private_Dirty:] and
    one, shorter than 14 characters, that begins with [P]. *)
Definition private_dirty_line : list ascii :=
  CStr.lit ("Private_Dirty:        12 kB" ++ nl).
Definition short_line : list ascii := CStr.lit ("P" ++ nl).

(** A line that begins with [P] and with neither of the two prefixes. *)
Definition pss_anon_line : list ascii :=
  CStr.lit ("Pss_Anon:                 4 kB" ++ nl).

(** Mapping names, one for each branch of the classification. *)
Definition names : list string :=
  [ "[heap]";
    "/dev/ashmem/dalvik-LinearAlloc (deleted)";
    "/dev/ashmem/dalvik-mark-stack (deleted)";
    "/dev/ashmem/dalvik-large-1";
    "/dev/ashmem/dalvik-jit-code-cache (deleted)";
    "/dev/ashmem/dalvik-heap (deleted)";
    "/dev/ashmem/CursorWindow: /data/x.db";
    "/dev/ashmem/libc malloc";
    "/dev/ashmem/SurfaceFlinger";
    "[anon:libc_malloc]";
    "[stack:1234]";
    "/dev/kgsl-3d0";
    "/system/lib/libc.so";
    "/system/framework/core.jar";
    "/data/app/com.example.apk";
    "/system/fonts/Roboto-Regular.ttf";
    "/data/dalvik-cache/system@app@X.apk@classes.dex";
    "/system/app/X.odex";
    "/data/dalvik-cache/boot.oat";
    "/data/dalvik-cache/boot.art";
    "[anon:thread signal stack]";
    "/system/bin/app_process";
    ".so";
    "" ]%string.

Definition dalvik_large : string :=
  "41000000-42000000 rw-p 00000000 00:04 5678       /dev/ashmem/dalvik-large-1"
  ++ nl ++
  "Pss:                  64 kB" ++ nl ++
  "Private_Dirty:        64 kB" ++ nl.

(** A shared object and then a mapping without a name that starts where
    it ends: its bss. *)
Definition library_and_bss : string :=
  "40000000-40001000 r-xp 00000000 b3:01 1234       /system/lib/libfoo.so"
  ++ nl ++
  "Pss:                   8 kB" ++ nl ++
  "40001000-40002000 rw-p 00000000 00:00 0 " ++ nl ++
  "Pss:                   4 kB" ++ nl.

End Samples.

(** ** Further notions: the report *)

Module ReportNotions.
Import NativeHeap.

(** The bytes an [fwrite] copied. *)
Definition written (o : output) : list ascii :=
  match o with
  | Fwrite bytes => bytes
  | Fprintf _ _ => []
  end.

(** The address an [fprintf(fp, " %08x", ...)] printed. *)
Definition printed_address (o : output) : option Z :=
  match o with
  | Fprintf _ [Num a] => Some a
  | _ => None
  end.

(** The size word that a printed flag and a printed size stand for. *)
Definition size_word (flag_printed size_printed : Z) : Z :=
  flag_printed * SIZE_FLAG_ZYGOTE_CHILD + size_printed.

(** The flag and the size of the line of a record, as printed. *)
Definition printed_flag (r : record) : Z :=
  if Z.land (size r) SIZE_FLAG_ZYGOTE_CHILD =? 0 then 0 else 1.
Definition printed_size (r : record) : Z :=
  Z.land (size r) (Int.u32 (Z.lnot SIZE_FLAG_ZYGOTE_CHILD)).

(** The line that opens the entry of a record. *)
Definition is_record_line (o : output) : bool :=
  match o with
  | Fprintf f [_; _; _] => String.eqb f "z %d  sz %8zu  num %4zu  bt"
  | _ => false
  end.

End ReportNotions.

(** ** Further notions: the totals *)

Module TotalsNotions.
Import Smaps.

(** The six totals of a heap, each with the variable added to it. *)
Inductive counter : Type :=
| Pss_total
| SwappablePss_total
| PrivateDirty_total
| SharedDirty_total
| PrivateClean_total
| SharedClean_total.

Definition field (c : counter) : stats_t -> Z :=
  match c with
  | Pss_total => pss
  | SwappablePss_total => swappablePss
  | PrivateDirty_total => privateDirty
  | SharedDirty_total => sharedDirty
  | PrivateClean_total => privateClean
  | SharedClean_total => sharedClean
  end.

Definition var (c : counter) : Var.t -> Z :=
  match c with
  | Pss_total => Var.pss
  | SwappablePss_total => Var.swappable_pss
  | PrivateDirty_total => Var.private_dirty
  | SharedDirty_total => Var.shared_dirty
  | PrivateClean_total => Var.private_clean
  | SharedClean_total => Var.shared_clean
  end.

(** The sum of a variable over the blocks that were not skipped, and over
    those of them that are Dalvik mappings. *)
Definition counted (c : counter) (trace : list block) : Z :=
  fold_right (fun b acc => if b_skip b then acc else var c (b_vars b) + acc)
             0 trace.

(** The five Dalvik sub-heaps and the two heaps they detail. *)
Definition sub_heaps : list heap := heap_range _NUM_EXCLUSIVE_HEAP _NUM_HEAP.
Definition dalvik_heaps : list heap := [HEAP_DALVIK; HEAP_DALVIK_OTHER].

(** The heaps with a swappable mapping, and the endings of the names. *)
Definition swappable_heaps : list heap :=
  [HEAP_SO; HEAP_JAR; HEAP_APK; HEAP_TTF; HEAP_DEX; HEAP_OAT; HEAP_ART].
Definition swappable_suffixes : list string :=
  [".so"; ".jar"; ".apk"; ".ttf"; ".dex"; ".odex"; ".oat"; ".art"]%string.

(** The heaps a name that begins with [/dev/] can get. *)
Definition device_heaps : list heap :=
  [HEAP_DALVIK; HEAP_DALVIK_OTHER; HEAP_CURSOR; HEAP_NATIVE; HEAP_ASHMEM;
   HEAP_UNKNOWN_DEV].

End TotalsNotions.

(** ** Notions used to state the properties of [getDirtyPagesPid] *)

Module MemoryInfoNotions.
Import Smaps DirtyPages TotalsNotions.

(** A counter summed over the entries stored for the core heaps. *)
Definition core_total (c : counter) (info : MemoryInfo) : Z :=
  fold_right (fun s acc => field c s + acc) 0 (core info).

(** The heaps folded into [HEAP_UNKNOWN], and the heaps of [otherStats]. *)
Definition folded_heaps : list heap :=
  heap_range _NUM_CORE_HEAP _NUM_EXCLUSIVE_HEAP.
Definition other_heaps : list heap := heap_range _NUM_CORE_HEAP _NUM_HEAP.

(** The entry of heap [h] in the stored core fields. *)
Definition core_entry (info : MemoryInfo) (h : heap) : stats_t :=
  nth (heap_index h) (core info) (stats_zero h).

End MemoryInfoNotions.

(** ** Notions used to state the properties of [getPssPid] *)

Module PssPidNotions.
Import CStr Int Libc Spec.

(** [atoi] at a number that was found, or at none. *)
Definition atoi_of (o : option Z) : option Z :=
  match o with
  | None => Some 0
  | Some n => if in_int n then Some n else None
  end.

Definition value (o : option Z) : Z :=
  match o with Some n => n | None => 0 end.

(** What a line stands for in each total: a line that begins with
    [Pss:] counts its first number after column 4 as pss, any other line
    that begins with [P] its first number after column 14 as private
    usage. *)
Definition line_pss (l : list ascii) : Z :=
  if starts_with (lit "Pss:") (cut_nul l) then value (number_after 4 l)
  else 0.
Definition line_uss (l : list ascii) : Z :=
  if begins_with_P_not_Pss l then value (number_after 14 l) else 0.

Definition pss_total (fp : Smaps.FILE) : Z :=
  fold_right (fun l acc => line_pss l + acc) 0 fp.
Definition uss_total (fp : Smaps.FILE) : Z :=
  fold_right (fun l acc => line_uss l + acc) 0 fp.

(** A line the loop reads within bounds: 14 characters at least when it
    begins with [P] and not with [Pss:], and a number that fits an
    [int]. *)
Definition regular (l : list ascii) : Prop :=
  (begins_with_P_not_Pss l = true -> (14 <= List.length (cut_nul l))%nat)
  /\ line_pss l <= INT_MAX
  /\ line_uss l <= INT_MAX.

End PssPidNotions.

(** ** [read_binder_stat] and its two callers *)

Module Binder.
Import CStr Int Libc.

(** The digits of [n >= 0] in base ten, most significant first; [fuel]
    bounds their number. *)
Fixpoint digits (fuel : nat) (n : Z) (acc : list ascii) : list ascii :=
  match fuel with
  | O => acc
  | S fuel' =>
      let acc' := ascii_of_N (Z.to_N (48 + n mod 10)) :: acc in
      if n <? 10 then acc' else digits fuel' (n / 10) acc'
  end.

(** [%d] of an [int]: ten digits at most. *)
Definition format_d (n : Z) : list ascii :=
  if n <? 0 then ascii_of_N 45 :: digits 10 (- n) []
  else digits 10 n [].

(** [snprintf(compare, 128, ...)] for the formatted text [s]: the array
    gets 127 characters of it at most, and the value returned is the length
    of the whole of it. *)
Definition snprintf_128 (s : list ascii) : list ascii * nat :=
  (firstn 127 s, List.length s).

(** [do { if (fgets(line, 1024, fp) == 0) return -1; }
     while (strncmp(compare, line, len));]
    [Some None] is the [return -1], and otherwise the buffer and the
    stream are given as the loop leaves them. *)
Fixpoint skip_until (compare : list ascii) (len : nat) (line : list ascii)
    (fp : Smaps.FILE) : option (option (list ascii * Smaps.FILE)) :=
  match fp with
  | [] => Some None
  | l :: fp' =>
      let line' := Smaps.fgets_store l line in
      s <- str_at line' 0 ;;
      if strncmp compare s len =? 0 then Some (Some (line', fp'))
      else skip_until compare len line' fp'
  end.

(** [read_binder_stat(stat)]: [binder_stats] is the stream [fopen] gave,
    [None] when it failed, and [pid] the value of [getpid()]. *)
Definition read_binder_stat (binder_stats : option Smaps.FILE) (pid : Z)
    (stat : list ascii) : option Z :=
  match binder_stats with
  | None => Some (-1)
  | Some fp =>
      let (compare, len) := snprintf_128 (lit "proc " ++ format_d pid) in
      r <- skip_until compare len [] fp ;;
      match r with
      | None => Some (-1)
      | Some (line1, fp1) =>
          let (compare', len') :=
            snprintf_128 (lit "  " ++ stat ++ lit ": ") in
          r' <- skip_until compare' len' line1 fp1 ;;
          match r' with
          | None => Some (-1)
          | Some (line2, _) => s <- str_at line2 len' ;; atoi s
          end
      end
  end.

Definition getBinderSentTransactions (binder_stats : option Smaps.FILE)
    (pid : Z) : option Z :=
  read_binder_stat binder_stats pid (lit "bcTRANSACTION").

Definition getBinderReceivedTransactions (binder_stats : option Smaps.FILE)
    (pid : Z) : option Z :=
  read_binder_stat binder_stats pid (lit "brTRANSACTION").

End Binder.

(** ** Notions used to state the properties of [read_binder_stat] *)

Module BinderNotions.
Import CStr Int Libc.

(** The line [l] begins with the text [p]. *)
Definition begins (p l : list ascii) : bool := starts_with p (cut_nul l).

(** The texts the two loops look for. *)
Definition proc_text (pid : Z) : list ascii :=
  lit "proc " ++ Binder.format_d pid.
Definition stat_text (stat : list ascii) : list ascii :=
  lit "  " ++ stat ++ lit ": ".

(** No line of [fp] begins with [p]. *)
Definition none_begins (p : list ascii) (fp : Smaps.FILE) : Prop :=
  Forall (fun l => begins p l = false) fp.

(** What follows the text [p] on the line [l]. *)
Definition after_text (p l : list ascii) : list ascii :=
  skipn (List.length p) (cut_nul l).

End BinderNotions.

(** ** Notions used to state how a header line is read *)

Module HeaderNotions.
Import CStr Int Libc.

Definition is_hex (c : ascii) : bool :=
  match hexval c with Some _ => true | None => false end.

(** The fields of a header line as the kernel prints it: two
    addresses, the permissions, the offset, the device and the inode. *)
Record mapping : Type := mk_mapping {
  m_start : list ascii;
  m_end : list ascii;
  m_perms : list ascii;
  m_offset : list ascii;
  m_major : list ascii;
  m_minor : list ascii;
  m_inode : list ascii
}.

Definition hex_field (d : list ascii) : Prop :=
  d <> [] /\ forallb is_hex d = true.
Definition dec_field (d : list ascii) : Prop :=
  d <> [] /\ forallb isdigit d = true.
Definition word (w : list ascii) : Prop :=
  w <> [] /\ forallb (fun c => negb (isspace c) && negb (is_nul c)) w = true.
Definition blank (b : list ascii) : Prop := forallb isspace b = true.

Definition hex_value (d : list ascii) : Z := fst (hexadecimal 0 d).

Definition well_formed (m : mapping) : Prop :=
  hex_field (m_start m) /\ hex_field (m_end m) /\ word (m_perms m)
  /\ hex_field (m_offset m) /\ hex_field (m_major m)
  /\ hex_field (m_minor m) /\ dec_field (m_inode m)
  /\ hex_value (m_start m) <= UINT_MAX
  /\ hex_value (m_end m) <= UINT_MAX.

(** [start-end perms offset major:minor inode]. *)
Definition fields (m : mapping) : list ascii :=
  m_start m ++ lit "-" ++ m_end m ++ lit " " ++ m_perms m ++ lit " "
  ++ m_offset m ++ lit " " ++ m_major m ++ lit ":" ++ m_minor m ++ lit " "
  ++ m_inode m.

(** A mapping name: no NUL, and no white space at its start. *)
Definition name_ok (name : list ascii) : Prop :=
  Spec.no_nul name
  /\ match name with c :: _ => isspace c = false | [] => True end.

(** The text between the inode and the name: blanks, one at least
    before a name. *)
Definition gap_ok (gap name : list ascii) : Prop :=
  blank gap /\ (gap = [] -> name = []).

(** Where a number stops: at the end, or at a character that is no
    digit of it. *)
Definition stops (digit : ascii -> bool) (r : list ascii) : Prop :=
  match r with c :: _ => digit c = false | [] => True end.

(** A separator: a character that ends a hexadecimal number and is not
    the [x] of a [0x]. *)
Definition separates (r : list ascii) : Prop :=
  match r with
  | c :: _ => is_hex c = false /\ (code c =? 120) = false
              /\ (code c =? 88) = false
  | [] => True
  end.

End HeaderNotions.

(** ** Notions used to state the order of the report *)

Module ReportOrderNotions.
Import NativeHeap ReportNotions.

(** The size word that the line of a record stands for; [None] for any
    other piece of output. *)
Definition entry_word (o : output) : option Z :=
  match o with
  | Fprintf f [Num z; Num s; _] =>
      if String.eqb f "z %d  sz %8zu  num %4zu  bt"
      then Some (size_word z s) else None
  | _ => None
  end.

(** The size words of the entries of a report, in the order printed. *)
Definition entry_words (out : list output) : list Z :=
  flat_map (fun o => match entry_word o with Some w => [w] | None => [] end)
           out.

(** [r1] is not placed after [r2] by the comparator. *)
Definition not_after (r1 r2 : record) : Prop := compareHeapRecords r1 r2 <= 0.

End ReportOrderNotions.

(** ** The listing as the specification describes it

    The blocks of a listing and the values they state, read off the text
    of the listing by the rules of the specification, to compare what
    [read_mapinfo] accumulates with. *)

Module InputNotions.
Import CStr Int Libc Spec.

Definition keys : list key :=
  [Size; Rss; Pss; Shared_Clean; Shared_Dirty; Private_Clean; Private_Dirty;
   Referenced].

(** The value the line [l] gives for the key [k], when it is a statistic
    line of that key. *)
Definition stat_value (k : key) (l : list ascii) : option Z :=
  match sscanf_kv (key_format k) (cut_nul l) with
  | Some (Some t) => Some t
  | _ => None
  end.

Definition is_stat_line (l : list ascii) : bool :=
  existsb (fun k => match stat_value k l with Some _ => true | None => false end)
          keys.

(** "Line length > 30 and the character at offset 8 is [-] and the
    character at offset 17 is a space." *)
Definition header_shaped (l : list ascii) : bool :=
  let s := cut_nul l in
  (30 <? List.length s)%nat
  && (code (nth 8 s NUL) =? 45) && (code (nth 17 s NUL) =? 32).

(** A line that ends a block and heads the next: it gives no statistic
    and has the shape of a header. *)
Definition closing (l : list ascii) : bool :=
  negb (is_stat_line l) && header_shaped l.

(** The lines up to the first closing line, and the blocks from that line
    on, each with its header line. *)
Fixpoint split (fp : Smaps.FILE)
  : list (list ascii) * list (list ascii * list (list ascii)) :=
  match fp with
  | [] => ([], [])
  | l :: fp' =>
      let (body, blocks) := split fp' in
      if closing l then ([], (l, body) :: blocks) else (l :: body, blocks)
  end.

(** The blocks that follow the header line [h]. *)
Definition blocks_from (h : list ascii) (fp : Smaps.FILE)
  : list (list ascii * list (list ascii)) :=
  let (body, blocks) := split fp in (h, body) :: blocks.

(** The blocks of a listing: the first line heads the first block. *)
Definition input_blocks (fp : Smaps.FILE)
  : list (list ascii * list (list ascii)) :=
  match fp with
  | [] => []
  | h :: fp' => blocks_from h fp'
  end.

(** The value a block states for the key [k]: that of the last of its
    lines that gives one. *)
Fixpoint stated (k : key) (body : list (list ascii)) : option Z :=
  match body with
  | [] => None
  | l :: body' =>
      match stated k body' with
      | Some t => Some t
      | None => stat_value k l
      end
  end.

(** The value of a variable at the end of a block: the one the block
    states, or the one it began with. *)
Definition carried (o : option Z) (z : Z) : Z :=
  match o with Some t => t | None => z end.

(** The header line, less its last character, has the two addresses of
    the fixed pattern. *)
Definition header_ok (h : list ascii) : bool :=
  match sscanf_header (removelast (cut_nul h)) with
  | Some (Hdr2 _ _ _) => true
  | _ => false
  end.

(** The pss of a block of the listing, and of the listing. *)
Definition block_pss (blk : list ascii * list (list ascii)) : Z :=
  match stated Pss (snd blk) with Some t => t | None => 0 end.

Definition blocks_total (blocks : list (list ascii * list (list ascii))) : Z :=
  fold_right (fun blk acc => block_pss blk + acc) 0 blocks.

Definition input_pss (fp : Smaps.FILE) : Z := blocks_total (input_blocks fp).

(** The pss in force for each block, summed: the pss a block states or,
    when it states none, the pss in force for the block before it, [z]
    being the one in force before the first. *)
Fixpoint total_in_force (z : Z)
    (blocks : list (list ascii * list (list ascii))) : Z :=
  match blocks with
  | [] => 0
  | blk :: rest =>
      let p := carried (stated Pss (snd blk)) z in
      p + total_in_force p rest
  end.

Definition pss_in_force (fp : Smaps.FILE) : Z :=
  total_in_force 0 (input_blocks fp).

(** Every block has a well-formed header, and states its pss. *)
Definition well_formed_block (blk : list ascii * list (list ascii)) : Prop :=
  header_ok (fst blk) = true.
Definition states_pss (blk : list ascii * list (list ascii)) : Prop :=
  stated Pss (snd blk) <> None.

(** The number a line gives after a key, if it gives one, fits the [int]
    that [%d] stores. *)
Definition numbers_fit (l : list ascii) : bool :=
  forallb (fun k => match sscanf_kv (key_format k) (cut_nul l) with
                    | Some _ => true
                    | None => false
                    end)
          keys.

(** The totals of two runs agree on every heap. *)
Definition same_totals (a b : Smaps.stats_array) : Prop :=
  forall h, a h = b h.

End InputNotions.

(** ** Further sample listings *)

Module Listings.
Import Samples.

(** A shared library whose shared pages are half clean, half dirty. *)
Definition libfoo_shared_evenly : string :=
  "40000000-40001000 r-xp 00000000 b3:01 1234       /system/lib/libfoo.so"
  ++ nl ++
  "Pss:                 100 kB" ++ nl ++
  "Shared_Clean:         50 kB" ++ nl ++
  "Shared_Dirty:         50 kB" ++ nl ++
  "Private_Clean:        20 kB" ++ nl ++
  "Private_Dirty:        10 kB" ++ nl.

(** A library with its pss, then a heap mapping that states none. *)
Definition libfoo_then_bare_heap : string :=
  "40000000-40001000 r-xp 00000000 b3:01 1234       /system/lib/libfoo.so"
  ++ nl ++
  "Pss:                 100 kB" ++ nl ++
  "00010000-00011000 rw-p 00000000 00:00 0          [heap]" ++ nl ++
  "Rss:                   4 kB" ++ nl.

(** A stack mapping that states no pss, alone and after a block whose
    header is malformed. *)
Definition stack_alone : string :=
  "00020000-00021000 rw-p 00000000 00:00 0          [stack]" ++ nl ++
  "Rss:                   1 kB" ++ nl.

Definition malformed_line : string := "no addresses on this line" ++ nl.

(** A line that is the empty string for C, its first byte being NUL, and
    a listing that such a line heads. *)
Definition nul_line : string := String (ascii_of_N 0) nl.

Definition heap_with_pss : string :=
  "00010000-00011000 rw-p 00000000 00:00 0          [heap]" ++ nl ++
  "Pss:                   3 kB" ++ nl.

Definition nul_line_then_heap : string :=
  nul_line ++ "Pss:                 999 kB" ++ nl ++ heap_with_pss.

Definition malformed_then_stack : string :=
  malformed_line ++
  "Pss:                 999 kB" ++ nl ++
  "Private_Dirty:       999 kB" ++ nl ++
  stack_alone.

(** A heap mapping with shared and private pages, and a text line that
    is no statistic. *)
Definition heap_header : string :=
  "00010000-00011000 rw-p 00000000 00:00 0          [heap]" ++ nl.

Definition heap_statistics : string :=
  "Pss:                 100 kB" ++ nl ++
  "Shared_Clean:         50 kB" ++ nl ++
  "Shared_Dirty:         20 kB" ++ nl ++
  "Private_Clean:        20 kB" ++ nl ++
  "Private_Dirty:        10 kB" ++ nl.

End Listings.

(** * Properties *)

(** ** The allocation-record comparator and the report *)

Module NativeHeapFacts.
Import Int NativeHeap Spec.

Lemma compare_backtraces_lex (todo : nat) :
  forall idx bt1 bt2,
    compare_backtraces todo idx bt1 bt2
    = lex_compare (slots bt1 idx (compared todo idx bt1 bt2))
                  (slots bt2 idx (compared todo idx bt1 bt2)).
Proof.
  induction todo as [|todo IH]; intros idx bt1 bt2; [reflexivity|].
  cbn [compare_backtraces compared].
  destruct (slot bt1 idx =? slot bt2 idx) eqn:Heq.
  - apply Z.eqb_eq in Heq.
    destruct (slot bt1 idx =? 0) eqn:Hz.
    + cbn. rewrite Heq, Z.ltb_irrefl. reflexivity.
    + rewrite <- Heq, Hz. cbn [orb slots seq map lex_compare].
      rewrite <- Heq, Z.ltb_irrefl. apply IH.
  - apply Z.eqb_neq in Heq.
    assert (Hcases : slot bt1 idx < slot bt2 idx \/ slot bt2 idx < slot bt1 idx)
      by lia.
    destruct ((slot bt1 idx =? 0) || (slot bt2 idx =? 0));
      cbn [slots seq map lex_compare];
      destruct Hcases as [Hlt|Hgt].
    + apply Z.ltb_lt in Hlt. now rewrite Hlt.
    + assert (H1 : (slot bt1 idx <? slot bt2 idx) = false)
        by (apply Z.ltb_ge; lia).
      apply Z.ltb_lt in Hgt. now rewrite H1, Hgt.
    + apply Z.ltb_lt in Hlt. now rewrite Hlt.
    + assert (H1 : (slot bt1 idx <? slot bt2 idx) = false)
        by (apply Z.ltb_ge; lia).
      apply Z.ltb_lt in Hgt. now rewrite H1, Hgt.
Qed.

Lemma lex_compare_refl (l : list Z) : lex_compare l l = 0.
Proof.
  induction l as [|x l IH]; [reflexivity|].
  cbn [lex_compare]. rewrite Z.ltb_irrefl. exact IH.
Qed.

Lemma land_flag (x : Z) :
  0 <= x <= UINT_MAX ->
  Z.land x SIZE_FLAG_ZYGOTE_CHILD = if x <? 2147483648 then 0 else 2147483648.
Proof.
  intros Hx. unfold UINT_MAX in Hx.
  change SIZE_FLAG_ZYGOTE_CHILD with (2 ^ 31).
  apply Z.bits_inj'. intros n Hn.
  rewrite Z.land_spec, Z.pow2_bits_eqb by lia.
  destruct (Z.eqb_spec 31 n) as [<-|Hne].
  - rewrite andb_true_r.
    destruct (Z.ltb_spec x 2147483648) as [Hlt|Hge].
    + rewrite Z.bits_0. apply Z.testbit_false; [lia|].
      rewrite Z.div_small by (change (2 ^ 31) with 2147483648; lia).
      reflexivity.
    + change 2147483648 with (2 ^ 31). rewrite Z.pow2_bits_eqb by lia.
      rewrite Z.eqb_refl. apply Z.testbit_true; [lia|].
      change (2 ^ 31) with 2147483648.
      assert (Hq : x / 2147483648 = 1)
        by (symmetry; apply (Z.div_unique x 2147483648 1 (x - 2147483648)); lia).
      now rewrite Hq.
  - rewrite andb_false_r.
    destruct (x <? 2147483648).
    + now rewrite Z.bits_0.
    + change 2147483648 with (2 ^ 31). rewrite Z.pow2_bits_eqb by lia.
      symmetry. now apply Z.eqb_neq.
Qed.

Lemma cleared_size_mod (r : record) :
  cleared_size r = size r mod 2147483648.
Proof.
  unfold cleared_size.
  change (u32 (Z.lnot SIZE_FLAG_ZYGOTE_CHILD)) with (Z.ones 31).
  now rewrite Z.land_ones by lia.
Qed.

Lemma flag_ge (r : record) :
  0 <= size r <= UINT_MAX ->
  flag r = negb (size r <? 2147483648).
Proof.
  intros Hr. unfold flag. rewrite land_flag by assumption.
  now destruct (size r <? 2147483648).
Qed.

(** C3, as stated, fails: the comparator looks at the size word with its
    flag bit.  [plain_large] has the larger flag-cleared size (100 against
    10), yet [flagged_small] is the one that sorts first. *)
Lemma comparator_keeps_flag_bit :
  cleared_size Samples.flagged_small < cleared_size Samples.plain_large
  /\ ~ sorts_before Samples.plain_large Samples.flagged_small
  /\ sorts_before Samples.flagged_small Samples.plain_large.
Proof.
  unfold sorts_before. repeat split; vm_compute; congruence.
Qed.

(** C3, amended: the comparator orders by the size word as stored, flag
    bit included, descending.  Of two records with different size words
    the larger sorts first; hence when the flag bit is the same in both,
    the one with the larger flag-cleared size sorts first, and a record
    with the flag set sorts before any record without it. *)
Theorem comparator_orders_by_size_word (r1 r2 : record) :
  0 <= size r1 <= UINT_MAX ->
  0 <= size r2 <= UINT_MAX ->
  (size r2 < size r1 ->
     compareHeapRecords r1 r2 = -1 /\ compareHeapRecords r2 r1 = 1)
  /\ (flag r1 = flag r2 -> cleared_size r2 < cleared_size r1 ->
        sorts_before r1 r2)
  /\ (flag r1 = true -> flag r2 = false -> sorts_before r1 r2).
Proof.
  intros H1 H2.
  assert (Hraw : size r2 < size r1 ->
                 compareHeapRecords r1 r2 = -1 /\ compareHeapRecords r2 r1 = 1).
  { intros Hlt. unfold compareHeapRecords.
    assert (Ha : (size r1 <? size r2) = false) by (apply Z.ltb_ge; lia).
    assert (Hb : (size r2 <? size r1) = true) by (apply Z.ltb_lt; lia).
    now rewrite Ha, Hb. }
  split; [exact Hraw|].
  pose proof (Z.div_mod (size r1) 2147483648 ltac:(lia)) as D1.
  pose proof (Z.div_mod (size r2) 2147483648 ltac:(lia)) as D2.
  pose proof (Z.mod_pos_bound (size r1) 2147483648 ltac:(lia)) as B1.
  pose proof (Z.mod_pos_bound (size r2) 2147483648 ltac:(lia)) as B2.
  unfold UINT_MAX in H1, H2.
  split.
  - intros Hflag Hcl. unfold sorts_before.
    rewrite !flag_ge in Hflag by assumption.
    rewrite !cleared_size_mod in Hcl.
    destruct Hraw as [-> _]; [|lia].
    destruct (Z.ltb_spec (size r1) 2147483648) as [L1|L1];
      destruct (Z.ltb_spec (size r2) 2147483648) as [L2|L2];
      try discriminate.
    + rewrite !Z.mod_small in Hcl by lia. lia.
    + assert (Q1 : size r1 / 2147483648 = 1)
        by (symmetry;
            apply (Z.div_unique (size r1) 2147483648 1 (size r1 - 2147483648));
            lia).
      assert (Q2 : size r2 / 2147483648 = 1)
        by (symmetry;
            apply (Z.div_unique (size r2) 2147483648 1 (size r2 - 2147483648));
            lia).
      lia.
  - intros F1 F2. unfold sorts_before.
    rewrite flag_ge in F1, F2 by assumption.
    destruct (Z.ltb_spec (size r1) 2147483648) as [L1|L1]; [discriminate|].
    destruct (Z.ltb_spec (size r2) 2147483648) as [L2|L2]; [|discriminate].
    destruct Hraw as [-> _]; lia.
Qed.

Lemma comparator_orders_by_size_word_witness :
  (compareHeapRecords Samples.flagged_small Samples.plain_large = -1
   /\ compareHeapRecords Samples.plain_large Samples.flagged_small = 1)
  /\ sorts_before Samples.plain_large Samples.bt_1_2
  /\ sorts_before Samples.flagged_small Samples.plain_large.
Proof.
  assert (Hrange : forall r, In r [Samples.flagged_small; Samples.plain_large;
                                   Samples.bt_1_2] ->
                             0 <= size r <= UINT_MAX).
  { intros r [<-|[<-|[<-|[]]]]; vm_compute; split; discriminate. }
  destruct (comparator_orders_by_size_word
              Samples.flagged_small Samples.plain_large
              (Hrange _ (or_introl eq_refl))
              (Hrange _ (or_intror (or_introl eq_refl))))
    as [Hraw [_ Hflag]].
  destruct (comparator_orders_by_size_word
              Samples.plain_large Samples.bt_1_2
              (Hrange _ (or_intror (or_introl eq_refl)))
              (Hrange _ (or_intror (or_intror (or_introl eq_refl)))))
    as [_ [Hcleared _]].
  split; [|split].
  - apply Hraw. reflexivity.
  - apply Hcleared; reflexivity.
  - apply Hflag; reflexivity.
Defined.

(** C6: for two records of equal size the comparator is the
    lexicographic, ascending comparison of the two backtraces over the
    slots up to and including the first one where either holds zero, 32
    slots at most (entries compared as the [intptr_t] they are); equal up
    to a shared zero, the records compare equal; and with equal sizes
    [1,2,0,...] sorts before [1,3,0,...]. *)
Theorem comparator_tie_break (r1 r2 : record) :
  size r1 = size r2 ->
  let n := compared BACKTRACE_SIZE 0 (backtrace r1) (backtrace r2) in
  compareHeapRecords r1 r2
  = lex_compare (slots (backtrace r1) 0 n) (slots (backtrace r2) 0 n)
  /\ (slots (backtrace r1) 0 n = slots (backtrace r2) 0 n ->
      compareHeapRecords r1 r2 = 0)
  /\ (forall t1 t2,
        backtrace r1 = 1 :: 2 :: 0 :: t1 ->
        backtrace r2 = 1 :: 3 :: 0 :: t2 ->
        sorts_before r1 r2).
Proof.
  intros Hsize n.
  assert (Hcmp : compareHeapRecords r1 r2
                 = lex_compare (slots (backtrace r1) 0 n)
                               (slots (backtrace r2) 0 n)).
  { unfold compareHeapRecords. rewrite Hsize, Z.ltb_irrefl.
    apply compare_backtraces_lex. }
  split; [exact Hcmp|]. split.
  - intros Heq. rewrite Hcmp, Heq. apply lex_compare_refl.
  - intros t1 t2 E1 E2. unfold sorts_before, compareHeapRecords.
    rewrite Hsize, Z.ltb_irrefl, E1, E2. reflexivity.
Qed.

Lemma comparator_tie_break_witness :
  size Samples.bt_1_2 = size Samples.bt_1_3
  /\ compareHeapRecords Samples.bt_1_2 Samples.bt_1_3
     = lex_compare [1; 2] [1; 3]
  /\ sorts_before Samples.bt_1_2 Samples.bt_1_3.
Proof.
  split; [reflexivity|].
  destruct (comparator_tie_break Samples.bt_1_2 Samples.bt_1_3 eq_refl)
    as [Hlex [_ Hex]].
  split.
  - exact Hlex.
  - apply (Hex (repeat 0 29) (repeat 0 29)); reflexivity.
Defined.

(** C8: without allocation records ([info] is [NULL]) the report is the
    four lines of guidance and nothing else, whatever the other values
    and the mapping listing are: no header, no record line, no mapping
    listing, and the function returns. *)
Theorem no_records_guidance_only
    (qsort : (record -> record -> Z) -> list record -> list record)
    (BUFSIZ : nat) (overallSize infoSize totalMemory backtraceSize : Z)
    (maps : option (list ascii)) :
  dumpNativeHeap qsort BUFSIZ
    (mk_leak None overallSize infoSize totalMemory backtraceSize) maps
  = (guidance, Returned)
  /\ List.length guidance = 4%nat
  /\ forallb is_guidance_line guidance = true.
Proof.
  repeat split.
Qed.

End NativeHeapFacts.

(** ** The smaps parser *)

Module SmapsFacts.
Import CStr Int Libc Smaps Spec.

(** *** Machine arithmetic *)

Lemma s32_small (x : Z) : INT_MIN <= x <= INT_MAX -> s32 x = x.
Proof.
  unfold s32, INT_MIN, INT_MAX. intros H.
  rewrite Z.mod_small by lia. lia.
Qed.

Lemma s32_congruent (x : Z) : exists k, s32 x = x + k * 4294967296.
Proof.
  unfold s32.
  exists (- ((x + 2147483648) / 4294967296)).
  pose proof (Z.div_mod (x + 2147483648) 4294967296 ltac:(lia)). lia.
Qed.

Lemma u32_range (x : Z) : 0 <= u32 x <= UINT_MAX.
Proof.
  unfold u32, UINT_MAX.
  pose proof (Z.mod_pos_bound x 4294967296 ltac:(lia)). lia.
Qed.

Lemma u32_small (x : Z) : 0 <= x <= UINT_MAX -> u32 x = x.
Proof. unfold u32, UINT_MAX. intros H. apply Z.mod_small. lia. Qed.

(** *** Strings *)

Lemma starts_with_app (p s : list ascii) : starts_with p (p ++ s) = true.
Proof.
  induction p as [|c p IH]; [reflexivity|].
  cbn. now rewrite Z.eqb_refl, IH.
Qed.

Lemma strstr_at_start_prefix (p : string) (s : list ascii) :
  strstr_at_start (lit p ++ s) p = true.
Proof.
  unfold strstr_at_start.
  destruct (lit p ++ s) eqn:E; cbn [strstr];
    rewrite <- ?E, starts_with_app; reflexivity.
Qed.

(** *** The statistic lines *)

Lemma sscanf_kv_range (k : string) (s : list ascii) (t : Z) :
  sscanf_kv k s = Some (Some t) -> 0 <= t <= UINT_MAX.
Proof.
  unfold sscanf_kv.
  destruct (scan_lit (lit k) s); [|discriminate].
  destruct (scan_d (skip_ws rest)); [|discriminate].
  destruct (in_int v0); [|discriminate].
  intros [= <-]. apply u32_range.
Qed.

(** Case analysis on the chain of [sscanf] tests. *)
Ltac scan_chain :=
  unfold scan_stat_line, bind;
  repeat match goal with
    | |- context [sscanf_kv ?k ?s] =>
        let E := fresh "E" in
        destruct (sscanf_kv k s) as [[?|]|] eqn:E
    end.

(** What a line does to the variables depends on the line alone. *)
Lemma scan_stat_line_shape (s : list ascii) (v w : Var.t) :
  match scan_stat_line s v, scan_stat_line s w with
  | None, None => True
  | Some None, Some None => True
  | Some (Some _), Some (Some _) => True
  | _, _ => False
  end.
Proof. scan_chain; exact I. Qed.

Lemma scan_stat_line_pss (s : list ascii) (v v' : Var.t) :
  scan_stat_line s v = Some (Some v') ->
  0 <= Var.pss v -> 0 <= Var.pss v'.
Proof.
  scan_chain; intros [= <-] Hv; cbn; try assumption.
  apply sscanf_kv_range in E1. lia.
Qed.

Lemma read_stat_lines_pss (fp : FILE) :
  forall line v line' v' next,
    read_stat_lines line v fp = Some (line', v', next) ->
    0 <= Var.pss v -> 0 <= Var.pss v'.
Proof.
  induction fp as [|l fp IH]; intros line v line' v' next; cbn [read_stat_lines].
  - now intros [= _ <- _].
  - unfold bind at 1.
    destruct (scan_stat_line (cut_nul l) v) as [[w|]|] eqn:E; [| |discriminate].
    + intros H Hv. eapply IH; [exact H|].
      eapply scan_stat_line_pss; eassumption.
    + destruct (looks_like_header (cut_nul l)).
      * now intros [= _ <- _].
      * apply IH.
Qed.

(** Every block but the last ends on a line that was read. *)
Lemma read_stat_lines_shorter (fp : FILE) :
  forall line v line' v' fp',
    read_stat_lines line v fp = Some (line', v', Some fp') ->
    (List.length fp' < List.length fp)%nat.
Proof.
  induction fp as [|l fp IH]; intros line v line' v' fp'; cbn [read_stat_lines].
  - discriminate.
  - unfold bind at 1.
    destruct (scan_stat_line (cut_nul l) v) as [[w|]|]; [| |discriminate].
    + intros H. apply IH in H. cbn. lia.
    + destruct (looks_like_header (cut_nul l)).
      * intros [= _ _ <-]. cbn. lia.
      * intros H. apply IH in H. cbn. lia.
Qed.

(** The lines a block consumes do not depend on the buffer or on the
    variables: the stream stays aligned whatever the header was. *)
Lemma read_stat_lines_stream (fp : FILE) :
  forall line1 v1 line2 v2,
    stream_left (read_stat_lines line1 v1 fp)
    = stream_left (read_stat_lines line2 v2 fp).
Proof.
  induction fp as [|l fp IH]; intros line1 v1 line2 v2; [reflexivity|].
  cbn [read_stat_lines]. unfold bind.
  pose proof (scan_stat_line_shape (cut_nul l) v1 v2) as Hshape.
  destruct (scan_stat_line (cut_nul l) v1) as [[w1|]|],
           (scan_stat_line (cut_nul l) v2) as [[w2|]|];
    try contradiction; try reflexivity.
  - apply IH.
  - destruct (looks_like_header (cut_nul l)); [reflexivity|apply IH].
Qed.

(** *** Classification *)

Lemma heap_eqb_eq (a b : heap) : heap_eqb a b = true <-> a = b.
Proof.
  split.
  - destruct a, b; cbn; intros H; try reflexivity; discriminate H.
  - intros <-. destruct a; reflexivity.
Qed.

Lemma classify_dalvik_ok (name : list ascii) :
  is_dalvik (fst (classify_dalvik name)) = true
  /\ is_primary (snd (classify_dalvik name)) = false.
Proof.
  unfold classify_dalvik.
  repeat match goal with
    | |- context [if ?c then _ else _] => destruct c
    end; split; reflexivity.
Qed.

Lemma classify_ok (name : list ascii) (start prevEnd : Z) (prevHeap : heap) :
  let '(wh, sh, _) := classify name start prevEnd prevHeap in
  is_primary wh = true /\ (is_dalvik wh = true -> is_primary sh = false).
Proof.
  unfold classify.
  destruct (strstr_at_start name "[heap]"); [split; [reflexivity|discriminate]|].
  destruct (strncmp_eq name "/dev/ashmem" 11).
  { destruct (strncmp_eq name "/dev/ashmem/dalvik-" 19).
    - pose proof (classify_dalvik_ok name) as [Hd Hs].
      destruct (classify_dalvik name) as [wh sh]. cbn in Hd, Hs.
      split; [|intros _; exact Hs].
      unfold is_dalvik in Hd. apply orb_true_iff in Hd.
      destruct Hd as [Hd|Hd]; apply heap_eqb_eq in Hd; subst; reflexivity.
    - repeat match goal with
        | |- context [if ?c then _ else _] => destruct c
        end; split; try reflexivity; discriminate. }
  repeat match goal with
    | |- context [if ?c then _ else _] => destruct c
    end; split; try reflexivity; discriminate.
Qed.

(** *** One iteration *)

Lemma finish_block_apply (skip : bool) (wh sh : heap) (sw : bool)
    (v v' : Var.t) (stats stats' : stats_array) :
  finish_block skip wh sh sw v stats = Some (v', stats') ->
  stats' = apply_block stats (mk_block skip wh sh sw v')
  /\ Var.pss v' = Var.pss v.
Proof.
  unfold finish_block, apply_block, bind. cbn [b_skip b_whichHeap b_subHeap b_vars].
  destruct skip.
  - intros [= <- <-]. split; reflexivity.
  - destruct (compute_swappable_pss sw v); [|discriminate].
    intros [= <- <-]. split; reflexivity.
Qed.

Lemma read_header_ok (f : frame) line1 np e skip wh sh sw :
  read_header f = Some (Header line1 np e skip wh sh sw) ->
  is_primary wh = true /\ (is_dalvik wh = true -> is_primary sh = false).
Proof.
  unfold read_header, bind.
  destruct (str_at (line f) 0) as [s|]; [|discriminate].
  destruct (List.length s <? 1)%nat; [discriminate|].
  destruct (str_at _ 0) as [hdr|]; [|discriminate].
  destruct (sscanf_header hdr) as [[|start|start e' n]|]; try discriminate.
  - intros [= _ _ _ _ <- <- _]. split; [reflexivity|discriminate].
  - intros [= _ _ _ _ <- <- _]. split; [reflexivity|discriminate].
  - destruct (match n with Some p => Some p | None => name_pos f end)
      as [p|]; [|discriminate].
    destruct (skip_space_from _ p) as [p'|]; [|discriminate].
    destruct (str_at _ p') as [name|]; [|discriminate].
    pose proof (classify_ok name start (end_ f) (whichHeap f)) as Hc.
    destruct (classify name start (end_ f) (whichHeap f)) as [[wh0 sh0] sw0].
    intros [= _ _ _ _ <- <- _]. exact Hc.
Qed.

(** A completed block: what it did to the totals, and what the loop
    goes on with. *)
Lemma loop_body_block (f : frame) (fp : FILE) (stats : stats_array) (st : step) :
  loop_body f fp stats = Some st ->
  0 <= Var.pss (vars f) ->
  match st with
  | StepReturn => True
  | StepDone stats' b => stats' = apply_block stats b /\ block_ok b
  | StepNext f' fp' stats' b =>
      stats' = apply_block stats b /\ block_ok b
      /\ 0 <= Var.pss (vars f')
      /\ (List.length fp' < List.length fp)%nat
  end.
Proof.
  unfold loop_body. unfold bind at 1.
  destruct (read_header f) as [[|line1 np e skip wh sh sw]|] eqn:Hh;
    [| |discriminate].
  - now intros [= <-].
  - apply read_header_ok in Hh. unfold bind at 1.
    destruct (read_stat_lines line1 (vars f) fp) as [[[line2 v2] next]|] eqn:Hr;
      [|discriminate].
    unfold bind at 1.
    destruct (finish_block skip wh sh sw v2 stats) as [[v3 stats']|] eqn:Hf;
      [|discriminate].
    apply finish_block_apply in Hf. destruct Hf as [Hstats Hpss].
    intros Hst Hv.
    assert (Hv3 : 0 <= Var.pss v3).
    { rewrite Hpss. eapply read_stat_lines_pss; eassumption. }
    assert (Hok : block_ok (mk_block skip wh sh sw v3)).
    { unfold block_ok. cbn. destruct Hh. auto. }
    destruct next as [fp'|]; inversion Hst; subst st.
    + repeat split; try assumption; try apply Hok.
      eapply read_stat_lines_shorter; eassumption.
    + split; assumption.
Qed.

(** *** The loop *)

Lemma mapinfo_loop_fold (fuel : nat) :
  forall f fp stats trace stats' trace',
    mapinfo_loop fuel f fp stats trace = Done (stats', trace') ->
    0 <= Var.pss (vars f) ->
    exists blocks,
      trace' = trace ++ blocks
      /\ stats' = fold_left apply_block blocks stats
      /\ Forall block_ok blocks.
Proof.
  induction fuel as [|fuel IH]; intros f fp stats trace stats' trace';
    cbn [mapinfo_loop]; [discriminate|].
  destruct (loop_body f fp stats) as [st|] eqn:Hb; [|discriminate].
  intros Hrun Hv. pose proof (loop_body_block _ _ _ Hb Hv) as Hst.
  destruct st as [|stats1 b|f1 fp1 stats1 b].
  - injection Hrun as <- <-. exists []. rewrite app_nil_r. auto.
  - injection Hrun as <- <-. destruct Hst as [-> Hok].
    exists [b]. auto.
  - destruct Hst as [-> [Hok [Hv1 _]]].
    destruct (IH _ _ _ _ _ _ Hrun Hv1) as [blocks [-> [-> Hall]]].
    exists (b :: blocks). rewrite <- app_assoc. auto.
Qed.

(** The fuel [read_mapinfo] is run with is enough. *)
Lemma mapinfo_loop_fuel (fuel : nat) :
  forall f fp stats trace,
    (List.length fp < fuel)%nat ->
    0 <= Var.pss (vars f) ->
    mapinfo_loop fuel f fp stats trace <> OutOfFuel.
Proof.
  induction fuel as [|fuel IH]; intros f fp stats trace Hfuel Hv; [lia|].
  cbn [mapinfo_loop].
  destruct (loop_body f fp stats) as [st|] eqn:Hb; [|discriminate].
  pose proof (loop_body_block _ _ _ Hb Hv) as Hst.
  destruct st as [|stats1 b|f1 fp1 stats1 b]; try discriminate.
  destruct Hst as [_ [_ [Hv1 Hlen]]].
  apply IH; [lia|assumption].
Qed.

Theorem read_mapinfo_terminates (fp : FILE) (stats : stats_array) :
  read_mapinfo_blocks fp stats <> OutOfFuel
  /\ read_mapinfo fp stats <> OutOfFuel.
Proof.
  assert (H : read_mapinfo_blocks fp stats <> OutOfFuel).
  { unfold read_mapinfo_blocks. destruct fp as [|l fp]; [discriminate|].
    apply mapinfo_loop_fuel; cbn; lia. }
  split; [exact H|].
  unfold read_mapinfo.
  destruct (read_mapinfo_blocks fp stats) as [[? ?]| |];
    [discriminate|discriminate|contradiction].
Qed.

(** The totals are those of the blocks, added one after the other. *)
Lemma read_mapinfo_fold (fp : FILE) (stats stats' : stats_array)
    (trace : list block) :
  read_mapinfo_blocks fp stats = Done (stats', trace) ->
  stats' = fold_left apply_block trace stats /\ Forall block_ok trace.
Proof.
  unfold read_mapinfo_blocks. destruct fp as [|l fp].
  - intros [= <- <-]. auto.
  - intros H. apply mapinfo_loop_fold in H; [|cbn; lia].
    destruct H as [blocks [-> [-> Hall]]]. auto.
Qed.

(** *** Sums of totals *)

Lemma sum_over_set_stats (f : stats_t -> Z) (st : stats_array) (h : heap)
    (x : stats_t) (hs : list heap) :
  NoDup hs ->
  sum_over hs f (set_stats st h x)
  = sum_over hs f st
    + (if existsb (fun h' => heap_eqb h' h) hs then f x - f (st h) else 0).
Proof.
  induction hs as [|a hs IH]; intros Hnd; cbn [sum_over fold_right existsb].
  - lia.
  - inversion Hnd as [|? ? Hnotin Hnd']; subst.
    fold (sum_over hs f (set_stats st h x)). fold (sum_over hs f st).
    rewrite (IH Hnd'). unfold set_stats at 1.
    destruct (heap_eqb a h) eqn:Ea; cbn [orb].
    + apply heap_eqb_eq in Ea. subst a.
      assert (Hex : existsb (fun h' => heap_eqb h' h) hs = false).
      { apply not_true_is_false. intros Hex.
        apply existsb_exists in Hex. destruct Hex as [h' [Hin He]].
        apply heap_eqb_eq in He. subst h'. contradiction. }
      rewrite Hex. lia.
    + lia.
Qed.

Lemma primary_heaps_NoDup : NoDup primary_heaps.
Proof.
  repeat (constructor; [cbn; intuition discriminate|]). constructor.
Qed.

Lemma primary_heaps_member (h : heap) :
  existsb (fun h' => heap_eqb h' h) primary_heaps = is_primary h.
Proof. destruct h; reflexivity. Qed.

Lemma primary_heaps_In (h : heap) :
  is_primary h = true -> In h primary_heaps.
Proof. destruct h; cbn; intros H; try discriminate H; tauto. Qed.

Lemma sum_over_member (f : stats_t -> Z) (st : stats_array) (hs : list heap)
    (h : heap) :
  (forall h', In h' hs -> 0 <= f (st h')) ->
  In h hs -> 0 <= f (st h) <= sum_over hs f st.
Proof.
  induction hs as [|a hs IH]; intros Hpos Hin; [contradiction|].
  cbn [sum_over fold_right]. fold (sum_over hs f st).
  assert (Hsum : 0 <= sum_over hs f st).
  { clear IH Hin. induction hs as [|b hs IH]; cbn; [lia|].
    fold (sum_over hs f st).
    assert (0 <= f (st b)) by (apply Hpos; cbn; auto).
    assert (0 <= sum_over hs f st)
      by (apply IH; intros h' [->|H']; apply Hpos; cbn; auto).
    lia. }
  assert (Ha : 0 <= f (st a)) by (apply Hpos; cbn; auto).
  destruct Hin as [->|Hin].
  - lia.
  - assert (0 <= f (st h) <= sum_over hs f st)
      by (apply IH; [intros h' H'; apply Hpos; cbn; auto|assumption]).
    lia.
Qed.

(** The pss total of a heap after a block. *)
Lemma apply_block_pss (st : stats_array) (b : block) (h : heap) :
  block_ok b -> is_primary h = true ->
  pss (apply_block st b h)
  = if negb (b_skip b) && heap_eqb h (b_whichHeap b)
    then s32 (pss (st (b_whichHeap b)) + Var.pss (b_vars b))
    else pss (st h).
Proof.
  intros [Hwh [Hsh _]] Hh. unfold apply_block.
  destruct (b_skip b); [reflexivity|]. cbn [negb andb].
  fold (is_dalvik (b_whichHeap b)).
  assert (Hadd : forall st' h', pss (add_block st' h' (b_vars b) h)
                   = if heap_eqb h h'
                     then s32 (pss (st' h') + Var.pss (b_vars b))
                     else pss (st' h)).
  { intros st' h'. unfold add_block, set_stats.
    destruct (heap_eqb h h'); reflexivity. }
  destruct (is_dalvik (b_whichHeap b)) eqn:Hd.
  - rewrite Hadd.
    destruct (heap_eqb h (b_subHeap b)) eqn:Es.
    + apply heap_eqb_eq in Es. subst h. rewrite (Hsh eq_refl) in Hh.
      discriminate.
    + apply Hadd.
  - apply Hadd.
Qed.

(** The sum over the primary heaps after a block. *)
Lemma apply_block_sum (st : stats_array) (b : block) :
  block_ok b ->
  sum_over primary_heaps pss (apply_block st b)
  = sum_over primary_heaps pss st
    + (if b_skip b then 0
       else s32 (pss (st (b_whichHeap b)) + Var.pss (b_vars b))
            - pss (st (b_whichHeap b))).
Proof.
  intros [Hwh [Hsh _]]. unfold apply_block.
  destruct (b_skip b); [lia|].
  fold (is_dalvik (b_whichHeap b)).
  assert (Hfirst :
    sum_over primary_heaps pss (add_block st (b_whichHeap b) (b_vars b))
    = sum_over primary_heaps pss st
      + (s32 (pss (st (b_whichHeap b)) + Var.pss (b_vars b))
         - pss (st (b_whichHeap b)))).
  { unfold add_block.
    rewrite sum_over_set_stats by apply primary_heaps_NoDup.
    rewrite primary_heaps_member, Hwh. reflexivity. }
  destruct (is_dalvik (b_whichHeap b)); [|exact Hfirst].
  rewrite <- Hfirst. unfold add_block at 1.
  rewrite sum_over_set_stats by apply primary_heaps_NoDup.
  rewrite primary_heaps_member, (Hsh eq_refl). lia.
Qed.

Lemma fold_apply_congruent (blocks : list block) :
  forall st,
    Forall block_ok blocks ->
    exists k,
      sum_over primary_heaps pss (fold_left apply_block blocks st)
      = sum_over primary_heaps pss st + counted_pss blocks + k * 4294967296.
Proof.
  induction blocks as [|b blocks IH]; intros st Hall; cbn [fold_left counted_pss fold_right].
  - exists 0. lia.
  - inversion Hall as [|? ? Hb Hall']; subst.
    destruct (IH (apply_block st b) Hall') as [k Hk].
    rewrite Hk, (apply_block_sum st Hb).
    fold (counted_pss blocks).
    destruct (b_skip b).
    + exists k. lia.
    + destruct (s32_congruent (pss (st (b_whichHeap b)) + Var.pss (b_vars b)))
        as [j Hj].
      exists (k + j). lia.
Qed.

Lemma fold_apply_exact (blocks : list block) :
  forall st,
    Forall block_ok blocks ->
    (forall h, is_primary h = true -> 0 <= pss (st h)) ->
    sum_over primary_heaps pss st + counted_pss blocks <= INT_MAX ->
    sum_over primary_heaps pss (fold_left apply_block blocks st)
    = sum_over primary_heaps pss st + counted_pss blocks.
Proof.
  induction blocks as [|b blocks IH]; intros st Hall Hpos Hmax;
    cbn [fold_left counted_pss fold_right] in *.
  - lia.
  - inversion Hall as [|? ? Hb Hall']; subst.
    fold (counted_pss blocks) in *.
    assert (Hcnt : 0 <= counted_pss blocks).
    { clear - Hall'. induction Hall' as [|c cs Hc _ IHc]; cbn; [lia|].
      fold (counted_pss cs). destruct Hc as [_ [_ Hc]].
      destruct (b_skip c); lia. }
    pose proof Hb as [Hwh [_ Hp]].
    pose proof (sum_over_member pss st primary_heaps (b_whichHeap b)
                  (fun h' Hin => Hpos h' ltac:(
                     destruct h'; cbn in Hin; try reflexivity;
                     exfalso; intuition discriminate))
                  (primary_heaps_In _ Hwh)) as Hmem.
    assert (Hstep : b_skip b = false ->
              s32 (pss (st (b_whichHeap b)) + Var.pss (b_vars b))
              = pss (st (b_whichHeap b)) + Var.pss (b_vars b)).
    { intros Hs. rewrite Hs in Hmax. apply s32_small.
      unfold INT_MIN, INT_MAX in *. lia. }
    assert (Hsum : sum_over primary_heaps pss (apply_block st b)
                   = sum_over primary_heaps pss st
                     + (if b_skip b then 0 else Var.pss (b_vars b))).
    { rewrite (apply_block_sum st Hb).
      destruct (b_skip b); [lia|]. rewrite Hstep by reflexivity. lia. }
    assert (Hpos' : forall h, is_primary h = true ->
                              0 <= pss (apply_block st b h)).
    { intros h Hh. rewrite (@apply_block_pss st b h Hb Hh).
      destruct (negb (b_skip b) && heap_eqb h (b_whichHeap b)) eqn:E.
      - apply andb_true_iff in E. destruct E as [Hs _].
        apply negb_true_iff in Hs. rewrite Hstep by assumption. lia.
      - apply Hpos, Hh. }
    rewrite (IH (apply_block st b) Hall' Hpos').
    + rewrite Hsum. destruct (b_skip b); lia.
    + rewrite Hsum. destruct (b_skip b); lia.
Qed.

Lemma counted_pss_well_formed (trace : list block) :
  well_formed_headers trace -> counted_pss trace = blocks_pss trace.
Proof.
  induction 1 as [|b bs Hb _ IH]; cbn; [reflexivity|].
  fold (counted_pss bs). fold (blocks_pss bs). rewrite Hb, IH. reflexivity.
Qed.

(** The totals are those of the blocks that were not skipped. *)
Lemma skipped_blocks_add_nothing (trace : list block) :
  forall st,
    fold_left apply_block trace st
    = fold_left apply_block (filter (fun b => negb (b_skip b)) trace) st.
Proof.
  induction trace as [|b trace IH]; intros st; [reflexivity|].
  cbn [fold_left filter]. destruct (b_skip b) eqn:Hs; cbn [negb].
  - unfold apply_block at 2. rewrite Hs. apply IH.
  - cbn [fold_left]. apply IH.
Qed.

(** *** The folding loop of [getDirtyPagesPid] *)

Lemma sum_over_ext (f : stats_t -> Z) (st st' : stats_array) (hs : list heap) :
  (forall h, In h hs -> st' h = st h) ->
  sum_over hs f st' = sum_over hs f st.
Proof.
  induction hs as [|a hs IH]; intros Hext; cbn; [reflexivity|].
  fold (sum_over hs f st'). fold (sum_over hs f st).
  rewrite Hext by (cbn; auto). rewrite IH; [reflexivity|].
  intros h Hin. apply Hext. cbn. auto.
Qed.

Lemma fold_heaps_pss (hs : list heap) :
  forall st st',
    DirtyPages.fold_heaps st hs = Some st' ->
    ~ In HEAP_UNKNOWN hs ->
    pss (st' HEAP_UNKNOWN) = pss (st HEAP_UNKNOWN) + sum_over hs pss st
    /\ (forall h, h <> HEAP_UNKNOWN -> st' h = st h).
Proof.
  induction hs as [|i hs IH]; intros st st'; cbn [DirtyPages.fold_heaps].
  - intros [= <-] _. cbn. split; [lia|reflexivity].
  - unfold bind at 1.
    destruct (DirtyPages.fold_heap st i) as [st1|] eqn:E1; [|discriminate].
    intros Hrun Hnotin.
    assert (Hi : i <> HEAP_UNKNOWN) by (intros ->; apply Hnotin; cbn; auto).
    assert (Hhs : ~ In HEAP_UNKNOWN hs) by (intros H; apply Hnotin; cbn; auto).
    destruct (IH _ _ Hrun Hhs) as [Hu Hother].
    assert (H1 : pss (st1 HEAP_UNKNOWN)
                 = pss (st HEAP_UNKNOWN) + pss (st i)
                 /\ forall h, h <> HEAP_UNKNOWN -> st1 h = st h).
    { revert E1. unfold DirtyPages.fold_heap, bind, add_int.
      repeat match goal with
        | |- context [if in_int ?x then _ else _] => destruct (in_int x)
        end; try discriminate.
      intros [= <-]. split; [reflexivity|].
      intros h Hh. unfold set_stats.
      destruct (heap_eqb h HEAP_UNKNOWN) eqn:E; [|reflexivity].
      apply heap_eqb_eq in E. contradiction. }
    destruct H1 as [H1u H1other].
    split.
    + rewrite Hu, H1u. cbn [sum_over fold_right].
      fold (sum_over hs pss st).
      rewrite (sum_over_ext pss st st1 hs); [lia|].
      intros h Hin. apply H1other. intros ->. contradiction.
    + intros h Hh. rewrite Hother, H1other by assumption. reflexivity.
Qed.

(** *** Single precision *)

(** [F32.round] against the Standard Library's IEEE-754 operations at
    precision 24: the conversion, and the product followed by the sum. *)
Lemma round_agrees_with_SpecFloat :
  forallb (fun n => match F32.Z_of_sf (F32.sf_of_Z n) with
                    | Some m => m =? F32.round n
                    | None => false
                    end) Samples.rounding_samples = true
  /\ forallb (fun t => let '(a, b, c) := t in
                       match F32.sf_muladd a b c with
                       | Some m =>
                           m =? F32.add (F32.mul (F32.round a) (F32.round b))
                                        (F32.round c)
                       | None => false
                       end) Samples.muladd_samples = true.
Proof. split; vm_compute; reflexivity. Qed.

(** *** The header line *)

Lemma until_nul_store_nul (buf : list ascii) :
  forall s n,
    until_nul buf = Some s -> (n <= List.length s)%nat ->
    until_nul (store_nul buf n) = Some (firstn n s).
Proof.
  induction buf as [|c buf IH]; intros s n; cbn [until_nul]; [discriminate|].
  destruct (is_nul c) eqn:Ec.
  - intros [= <-] Hn. cbn in Hn. assert (n = O) by lia. subst n.
    reflexivity.
  - destruct (until_nul buf) as [s'|] eqn:Es'; [|discriminate].
    intros [= <-] Hn. destruct n as [|n]; [reflexivity|].
    cbn [store_nul until_nul firstn]. rewrite Ec.
    rewrite (IH s' n eq_refl) by (cbn in Hn; lia). reflexivity.
Qed.

Lemma str_at_strip (buf s : list ascii) :
  str_at buf 0 = Some s ->
  str_at (store_nul buf (List.length s - 1)) 0 = Some (removelast s).
Proof.
  unfold str_at. cbn [skipn]. intros H.
  rewrite (until_nul_store_nul _ H) by lia.
  rewrite removelast_firstn_len. do 2 f_equal. lia.
Qed.

(** *** C7: a library *)


(** *** C10: the variables are not reset *)

Lemma scan_stat_line_other (k : key) (s : list ascii) (v w : Var.t) :
  scan_stat_line s v = Some (Some w) ->
  sscanf_kv (key_format k) s = Some None ->
  variable k w = variable k v.
Proof.
  intros H Hk. revert H.
  scan_chain; intros [= <-]; destruct k; unfold key_format in Hk;
    try reflexivity; congruence.
Qed.

Lemma read_stat_lines_omits (k : key) (fp : FILE) :
  forall line v line' v' next,
    read_stat_lines line v fp = Some (line', v', next) ->
    omits k (block_lines fp next) ->
    variable k v' = variable k v.
Proof.
  induction fp as [|l fp IH]; intros line v line' v' next;
    cbn [read_stat_lines].
  - now intros [= _ <- _].
  - unfold bind at 1.
    destruct (scan_stat_line (cut_nul l) v) as [[w|]|] eqn:E; [| |discriminate].
    + intros Hrun Homits.
      assert (Hlines : block_lines (l :: fp) next = l :: block_lines fp next).
      { destruct next as [rest|]; [|reflexivity].
        apply read_stat_lines_shorter in Hrun. cbn [block_lines List.length].
        replace (S (List.length fp) - S (List.length rest))%nat
          with (S (List.length fp - S (List.length rest))) by lia.
        reflexivity. }
      rewrite Hlines in Homits. inversion Homits as [|? ? Hl Hrest]; subst.
      rewrite (IH _ _ _ _ _ Hrun Hrest).
      eapply scan_stat_line_other; eassumption.
    + destruct (looks_like_header (cut_nul l)).
      * now intros [= _ <- _].
      * intros Hrun Homits.
        assert (Hlines : block_lines (l :: fp) next = l :: block_lines fp next).
        { destruct next as [rest|]; [|reflexivity].
          apply read_stat_lines_shorter in Hrun. cbn [block_lines List.length].
          replace (S (List.length fp) - S (List.length rest))%nat
            with (S (List.length fp - S (List.length rest))) by lia.
          reflexivity. }
        rewrite Hlines in Homits. inversion Homits as [|? ? Hl Hrest]; subst.
        apply (IH _ _ _ _ _ Hrun Hrest).
Qed.

(** What a block that is not skipped adds to the totals of its heap. *)
Lemma finish_block_totals (wh sh : heap) (sw : bool) (v v' : Var.t)
    (stats stats' : stats_array) :
  finish_block false wh sh sw v stats = Some (v', stats') ->
  is_primary wh = true ->
  (is_dalvik wh = true -> is_primary sh = false) ->
  (forall k, variable k v' = variable k v)
  /\ (forall k field, total k = Some field ->
        field (stats' wh) = s32 (field (stats wh) + variable k v)).
Proof.
  unfold finish_block, bind.
  destruct (compute_swappable_pss sw v) as [x|]; [|discriminate].
  intros [= <- <-] Hwh Hsh.
  split; [intros k; destruct k; reflexivity|].
  intros k field Hk.
  assert (Hadd : forall st,
            field (add_block st wh (Var.set_swappable_pss v x) wh)
            = s32 (field (st wh) + variable k v)).
  { intros st. unfold add_block, set_stats.
    assert (Hrefl : heap_eqb wh wh = true) by now apply heap_eqb_eq.
    rewrite Hrefl.
    destruct k; cbn in Hk; try discriminate; injection Hk as <-; reflexivity. }
  fold (is_dalvik wh). destruct (is_dalvik wh) eqn:Hd; [|apply Hadd].
  unfold add_block at 1. unfold set_stats at 1.
  destruct (heap_eqb wh sh) eqn:E.
  - apply heap_eqb_eq in E. subst sh. rewrite (Hsh eq_refl) in Hwh.
    discriminate.
  - apply Hadd.
Qed.

(** C10, as stated, fails for three of the keys: [size], [resident] and
    [referenced] are carried over like the others but are added to no
    total.  The second block below has no [Size:] line and completes with
    the 7 of the first in [size], and every total of every heap is 0. *)
Lemma carried_size_is_not_added :
  exists stats b1 b2,
    read_mapinfo_blocks (fopen Samples.heap_then_stack) stats_zero
    = Done (stats, [b1; b2])
    /\ b_skip b2 = false
    /\ Var.size (b_vars b2) = 7
    /\ map stats all_heaps = map stats_zero all_heaps.
Proof.
  destruct (read_mapinfo_blocks (fopen Samples.heap_then_stack) stats_zero)
    as [[stats trace]| |] eqn:E; vm_compute in E; try discriminate E.
  injection E as <- <-. eexists. eexists. eexists.
  split; [reflexivity|]. repeat split.
Qed.

(** C10, amended: the eight variables are not reset between blocks.
    When the statistic lines of a well-formed block have no line for a
    key, the variable of that key ends the block with the value it had
    when the block began (the last one parsed in an earlier block, or the
    initial 0); and for the five keys that have a total ([Pss],
    [Shared_Clean], [Shared_Dirty], [Private_Clean], [Private_Dirty])
    that value is what is added to the total of the heap of the block. *)
Theorem omitted_key_is_carried_over (k : key) (f : frame) (fp : FILE)
    (stats stats' : stats_array) (st : step) (b : block)
    (next : option FILE) :
  loop_body f fp stats = Some st ->
  step_block st = Some (b, stats', next) ->
  b_skip b = false ->
  omits k (block_lines fp next) ->
  variable k (b_vars b) = variable k (vars f)
  /\ (forall field, total k = Some field ->
        field (stats' (b_whichHeap b))
        = s32 (field (stats (b_whichHeap b)) + variable k (vars f))).
Proof.
  unfold loop_body. unfold bind at 1.
  destruct (read_header f) as [[|line1 np e skip wh sh sw]|] eqn:Hh;
    [| |discriminate].
  { intros [= <-]. discriminate. }
  apply read_header_ok in Hh. destruct Hh as [Hwh Hsh].
  unfold bind at 1.
  destruct (read_stat_lines line1 (vars f) fp) as [[[line2 v2] nxt]|] eqn:Hr;
    [|discriminate].
  unfold bind at 1.
  destruct (finish_block skip wh sh sw v2 stats) as [[v3 stats1]|] eqn:Hf;
    [|discriminate].
  intros Hst Hblock Hskip Homits.
  assert (Hb : b = mk_block skip wh sh sw v3 /\ stats' = stats1 /\ next = nxt).
  { destruct nxt; injection Hst as <-; cbn in Hblock;
      injection Hblock as <- <- <-; auto. }
  destruct Hb as [-> [-> ->]]. cbn in Hskip. subst skip.
  cbn [b_vars b_whichHeap].
  destruct (finish_block_totals _ _ _ _ _ Hf Hwh Hsh) as [Hvars Htot].
  pose proof (@read_stat_lines_omits k fp _ _ _ _ _ Hr Homits) as Hcarry.
  split.
  - rewrite Hvars. exact Hcarry.
  - intros field Hk. rewrite (Htot k field Hk), Hcarry. reflexivity.
Qed.

Lemma omitted_key_is_carried_over_witness :
  exists stats' b,
    loop_body Samples.stack_frame Samples.lines_without_pss stats_zero
    = Some (StepDone stats' b)
    /\ b_whichHeap b = HEAP_STACK
    /\ Var.pss (b_vars b) = 100
    /\ pss (stats' HEAP_STACK) = 100.
Proof.
  destruct (loop_body Samples.stack_frame Samples.lines_without_pss stats_zero)
    as [[|stats' b|f' fp' stats' b]|] eqn:E;
    try (vm_compute in E; discriminate E).
  assert (Hb : b_skip b = false /\ b_whichHeap b = HEAP_STACK).
  { pose proof E as E'. vm_compute in E'. injection E' as _ <-.
    split; reflexivity. }
  destruct Hb as [Hskip Hheap].
  destruct (@omitted_key_is_carried_over Pss
              Samples.stack_frame Samples.lines_without_pss
              stats_zero stats' (StepDone stats' b) b None E eq_refl Hskip)
    as [Hvar Htot].
  - repeat constructor.
  - exists stats', b. split; [reflexivity|]. split; [exact Hheap|].
    split; [exact Hvar|].
    rewrite <- Hheap. rewrite (Htot pss eq_refl). rewrite Hheap. reflexivity.
Defined.

End SmapsFacts.

(** ** The private-usage helper *)

Module PssPidFacts.
Import CStr Int Libc PssPid Spec.

Lemma cut_nul_no_nul (l : list ascii) : no_nul (cut_nul l).
Proof.
  induction l as [|c l IH]; cbn; [constructor|].
  destruct (is_nul c) eqn:E; [constructor|].
  constructor; assumption.
Qed.

(** The buffer once [fgets] stored a line: the string, its NUL, and what
    was there before. *)
Lemma stored_line (l tail0 : list ascii) :
  exists z tail,
    l ++ NUL :: tail0 = cut_nul l ++ z :: tail /\ is_nul z = true.
Proof.
  induction l as [|c l [z [tail [IH Hz]]]]; cbn [app cut_nul].
  - exists NUL, tail0. split; reflexivity.
  - destruct (is_nul c) eqn:E.
    + exists c, (l ++ NUL :: tail0). split; [reflexivity|exact E].
    + exists z, tail. split; [cbn [app]; f_equal; exact IH|exact Hz].
Qed.

Lemma until_nul_string (x : list ascii) (z : ascii) (tail : list ascii) :
  no_nul x -> is_nul z = true -> until_nul (x ++ z :: tail) = Some x.
Proof.
  intros Hx Hz. induction Hx as [|c x Hc _ IH]; cbn [app until_nul].
  - now rewrite Hz.
  - now rewrite Hc, IH.
Qed.

Lemma from_first_digit_no_nul (x : list ascii) :
  no_nul x -> no_nul (from_first_digit x).
Proof.
  intros Hx. induction Hx as [|c x Hc Hx IH]; cbn; [constructor|].
  destruct (isdigit c); [constructor; assumption|exact IH].
Qed.

Lemma skip_to_digit_string (x : list ascii) (z : ascii) (tail : list ascii) :
  no_nul x -> is_nul z = true ->
  skip_to_digit (x ++ z :: tail) = Some (from_first_digit x ++ z :: tail).
Proof.
  intros Hx Hz.
  induction Hx as [|c x Hc _ IH]; cbn [app skip_to_digit from_first_digit].
  - now rewrite Hz.
  - rewrite Hc. cbn [orb]. destruct (isdigit c); [reflexivity|exact IH].
Qed.

Lemma from_first_digit_head (x : list ascii) (c : ascii) (r : list ascii) :
  from_first_digit x = c :: r -> isdigit c = true.
Proof.
  induction x as [|a x IH]; cbn; [discriminate|].
  destruct (isdigit a) eqn:E; [|exact IH].
  now intros [= <- _].
Qed.

(** [atoi] at the first digit: the first number, when it fits an [int],
    and 0 when there is none. *)
Lemma atoi_first_number (x : list ascii) :
  atoi (from_first_digit x)
  = match first_number x with
    | None => Some 0
    | Some n => if in_int n then Some n else None
    end.
Proof.
  unfold first_number.
  destruct (from_first_digit x) as [|c r] eqn:E; [reflexivity|].
  apply from_first_digit_head in E.
  unfold atoi. cbn [skip_ws].
  assert (Hsp : isspace c = false).
  { unfold isdigit in E. unfold isspace.
    apply andb_true_iff in E. destruct E as [E1 E2].
    apply Z.leb_le in E1. apply Z.leb_le in E2.
    destruct (Z.eqb_spec (code c) 32); [lia|].
    destruct (Z.leb_spec 9 (code c)); destruct (Z.leb_spec (code c) 13);
      try reflexivity; lia. }
  rewrite Hsp. unfold take_sign.
  assert (H45 : (code c =? 45) = false).
  { unfold isdigit in E. apply andb_true_iff in E. destruct E as [E1 _].
    apply Z.leb_le in E1. apply Z.eqb_neq. lia. }
  assert (H43 : (code c =? 43) = false).
  { unfold isdigit in E. apply andb_true_iff in E. destruct E as [E1 _].
    apply Z.leb_le in E1. apply Z.eqb_neq. lia. }
  rewrite H45, H43.
  destruct (decimal 0 (c :: r)) as [v rest]. reflexivity.
Qed.

(** [strncmp] with a literal over its whole length is the prefix test. *)
Lemma strncmp_literal (b : list ascii) :
  no_nul b ->
  forall a, (strncmp a b (List.length b) =? 0) = starts_with b a.
Proof.
  induction 1 as [|cb b Hcb _ IH]; intros a; [reflexivity|].
  cbn [List.length strncmp starts_with].
  destruct a as [|ca a].
  - now rewrite Hcb.
  - destruct (Z.ltb_spec (code ca) (code cb)) as [Hlt|Hge].
    + destruct (Z.eqb_spec (code cb) (code ca)); [lia|reflexivity].
    + destruct (Z.ltb_spec (code cb) (code ca)) as [Hgt|Hle].
      * destruct (Z.eqb_spec (code cb) (code ca)); [lia|reflexivity].
      * destruct (Z.eqb_spec (code cb) (code ca)); [apply IH|lia].
Qed.

Lemma starts_with_nth (b a : list ascii) :
  starts_with b a = true ->
  forall i, (i < List.length b)%nat ->
            code (nth i a NUL) = code (nth i b NUL).
Proof.
  revert a. induction b as [|cb b IH]; intros a H i Hi; [cbn in Hi; lia|].
  destruct a as [|ca a]; [discriminate|]. cbn in H.
  apply andb_true_iff in H. destruct H as [Hc H]. apply Z.eqb_eq in Hc.
  destruct i as [|i]; cbn; [lia|]. apply IH; [exact H|cbn in Hi; lia].
Qed.

(** The two prefixes differ in their ninth character, so no line has
    both: one of the two [strncmp] calls is not zero, and the
    disjunction is true of every line. *)
Lemma private_test_true (s : list ascii) : private_test s = true.
Proof.
  unfold private_test, truth.
  assert (Hc : no_nul (lit "Private_Clean:")) by (repeat constructor).
  assert (Hd : no_nul (lit "Private_Dirty:")) by (repeat constructor).
  pose proof (strncmp_literal Hc s) as Ec.
  pose proof (strncmp_literal Hd s) as Ed.
  change (List.length (lit "Private_Clean:")) with 14%nat in Ec.
  change (List.length (lit "Private_Dirty:")) with 14%nat in Ed.
  rewrite Ec, Ed.
  destruct (starts_with (lit "Private_Clean:") s) eqn:Sc; [|reflexivity].
  destruct (starts_with (lit "Private_Dirty:") s) eqn:Sd; [|reflexivity].
  assert (H8 : (8 < 14)%nat) by lia.
  pose proof (@starts_with_nth (lit "Private_Clean:") s Sc 8%nat H8) as H1.
  pose proof (@starts_with_nth (lit "Private_Dirty:") s Sd 8%nat H8) as H2.
  rewrite H1 in H2. vm_compute in H2. discriminate H2.
Qed.

Lemma no_nul_skipn (n : nat) (x : list ascii) :
  no_nul x -> no_nul (skipn n x).
Proof.
  revert x. induction n as [|n IH]; intros x Hx; [exact Hx|].
  destruct Hx as [|c x _ Hx]; [constructor|]. cbn. apply IH, Hx.
Qed.

(** C4, as stated, fails on a line shorter than 14 characters: [line +
    14] is then past the end of the line, in what earlier lines left in
    the buffer.  After a line [Private_Dirty: 12 kB] the line [P], which
    holds no number, adds 12 again. *)
Lemma short_line_takes_earlier_number :
  begins_with_P_not_Pss Samples.short_line = true
  /\ number_after 14 Samples.short_line = None
  /\ uss_as_claimed [Samples.private_dirty_line; Samples.short_line] = 12
  /\ getPssPid (Some [Samples.private_dirty_line; Samples.short_line])
     = Some (0, Some 24).
Proof. repeat split. Qed.

(** C4, amended: of every line the disjunction of the two prefix tests
    is true; so for every line of at least 14 characters that begins
    with [P] and not with [Pss:], whether or not it begins with either
    prefix, the private-usage total accumulates the first number found
    after column 14 of that line (0 when there is none; [atoi] is
    undefined when the number does not fit an [int]). *)
Theorem private_usage_accumulates (st : state) (l : list ascii) :
  starts_with (lit "P") (cut_nul l) = true ->
  starts_with (lit "Pss:") (cut_nul l) = false ->
  (14 <= List.length (cut_nul l))%nat ->
  private_test (cut_nul l) = true
  /\ read_line st l
     = (n <- match number_after 14 l with
             | None => Some 0
             | Some n => if in_int n then Some n else None
             end ;;
        uss' <- add_jlong (uss st) n ;;
        Some (mk_state (Smaps.fgets_store l (line st)) (pss st) uss')).
Proof.
  intros HP HPss Hlen. split; [apply private_test_true|].
  unfold read_line.
  set (line' := Smaps.fgets_store l (line st)).
  destruct (stored_line l (skipn (S (List.length l)) (line st)))
    as [z [tail [Hstored Hz]]].
  assert (Hline : line' = cut_nul l ++ z :: tail) by exact Hstored.
  pose proof (cut_nul_no_nul l) as Hnn.
  unfold number_after.
  remember (cut_nul l) as s eqn:Es.
  assert (Hstr : str_at line' 0 = Some s).
  { unfold str_at. cbn [skipn]. rewrite Hline.
    apply until_nul_string; assumption. }
  rewrite Hstr. cbn [bind].
  destruct s as [|c s']; [discriminate HP|].
  assert (Hc : code c = 80).
  { unfold lit in HP. cbn [list_ascii_of_string starts_with] in HP.
    apply andb_true_iff in HP. destruct HP as [HP _].
    apply Z.eqb_eq in HP. rewrite <- HP. reflexivity. }
  assert (Hchar : char_at line' 0 = Some c) by (rewrite Hline; reflexivity).
  rewrite Hchar. cbn [bind]. rewrite Hc. cbn [Z.eqb Pos.eqb].
  assert (H4 : no_nul (lit "Pss:")) by (repeat constructor).
  pose proof (strncmp_literal H4 (c :: s')) as E4.
  change (List.length (lit "Pss:")) with 4%nat in E4.
  rewrite E4, HPss, private_test_true.
  assert (Hskip : skipn 14 line'
                  = skipn 14 (c :: s') ++ z :: tail).
  { rewrite Hline, skipn_app.
    replace (14 - List.length (c :: s'))%nat with O by lia.
    reflexivity. }
  rewrite Hskip.
  rewrite skip_to_digit_string by (try apply no_nul_skipn; assumption).
  cbn [bind]. unfold atoi_at.
  rewrite until_nul_string
    by (try apply from_first_digit_no_nul; try apply no_nul_skipn; assumption).
  cbn [bind]. rewrite atoi_first_number. reflexivity.
Qed.

Lemma private_usage_accumulates_witness :
  number_after 14 Samples.pss_anon_line = Some 4
  /\ exists line',
      read_line (mk_state [] 5 7) Samples.pss_anon_line
      = Some (mk_state line' 5 11).
Proof.
  split; [reflexivity|].
  destruct (@private_usage_accumulates (mk_state [] 5 7) Samples.pss_anon_line)
    as [_ Hread]; [reflexivity|reflexivity|vm_compute; lia|].
  eexists. rewrite Hread. reflexivity.
Defined.

End PssPidFacts.

(** ** The model on sample inputs *)

Module Examples.
Import CStr Int Libc Smaps Spec.

Example header_line_scanned :
  sscanf_header
    (lit "40000000-40001000 r-xp 00000000 b3:01 1234       /system/lib/libfoo.so")
  = Some (Hdr2 1073741824 1073745920 (Some 42%nat))
  /\ sscanf_header (lit "40000000-40001000") = Some (Hdr2 1073741824 1073745920 None)
  /\ sscanf_header (lit "40000000 40001000 r-xp") = Some (Hdr1 1073741824)
  /\ sscanf_header (lit "Size:                  4 kB") = Some Hdr0
  /\ sscanf_header (lit "100000000-100001000 r-xp 0 0:0 0") = None.
Proof. repeat split. Qed.

Example statistic_line_scanned :
  sscanf_kv "Pss:" (lit "Pss:                 100 kB") = Some (Some 100)
  /\ sscanf_kv "Pss:" (lit "Pss:100") = Some (Some 100)
  /\ sscanf_kv "Pss:" (lit "Pss: -1 kB") = Some (Some 4294967295)
  /\ sscanf_kv "Pss:" (lit "Pss_Anon:            100 kB") = Some None
  /\ sscanf_kv "Pss:" (lit "Pss: kB") = Some None
  /\ sscanf_kv "Pss:" (lit "Pss: 2147483648 kB") = None.
Proof. repeat split. Qed.

Example lines_cut_by_fopen :
  fopen ("ab" ++ Samples.nl ++ Samples.nl ++ "cd")
  = [lit ("ab" ++ Samples.nl); lit Samples.nl; lit "cd"]
  /\ map (@List.length ascii)
         (fopen_aux 1023 [] (repeat "a"%char 2050 ++ lit Samples.nl))
     = [1023; 1023; 5]%nat.
Proof. split; vm_compute; reflexivity. Qed.

Example names_classified :
  map (fun name => let '(wh, sh, sw) := classify (lit name) 0 4096 HEAP_UNKNOWN
                   in (wh, sh, sw)) Samples.names
  = [ (HEAP_NATIVE, HEAP_UNKNOWN, false);
      (HEAP_DALVIK_OTHER, HEAP_DALVIK_LINEARALLOC, false);
      (HEAP_DALVIK_OTHER, HEAP_DALVIK_ACCOUNTING, false);
      (HEAP_DALVIK, HEAP_DALVIK_LARGE, false);
      (HEAP_DALVIK_OTHER, HEAP_DALVIK_CODE_CACHE, false);
      (HEAP_DALVIK, HEAP_DALVIK_NORMAL, false);
      (HEAP_CURSOR, HEAP_UNKNOWN, false);
      (HEAP_NATIVE, HEAP_UNKNOWN, false);
      (HEAP_ASHMEM, HEAP_UNKNOWN, false);
      (HEAP_NATIVE, HEAP_UNKNOWN, false);
      (HEAP_STACK, HEAP_UNKNOWN, false);
      (HEAP_UNKNOWN_DEV, HEAP_UNKNOWN, false);
      (HEAP_SO, HEAP_UNKNOWN, true);
      (HEAP_JAR, HEAP_UNKNOWN, true);
      (HEAP_APK, HEAP_UNKNOWN, true);
      (HEAP_TTF, HEAP_UNKNOWN, true);
      (HEAP_DEX, HEAP_UNKNOWN, true);
      (HEAP_DEX, HEAP_UNKNOWN, true);
      (HEAP_OAT, HEAP_UNKNOWN, true);
      (HEAP_ART, HEAP_UNKNOWN, true);
      (HEAP_UNKNOWN, HEAP_UNKNOWN, false);
      (HEAP_UNKNOWN_MAP, HEAP_UNKNOWN, false);
      (HEAP_UNKNOWN_MAP, HEAP_UNKNOWN, false);
      (HEAP_UNKNOWN, HEAP_UNKNOWN, false) ]
  /\ classify [] 4096 4096 HEAP_SO = (HEAP_SO, HEAP_UNKNOWN, false)
  /\ classify [] 4096 4096 HEAP_JAR = (HEAP_UNKNOWN, HEAP_UNKNOWN, false).
Proof. repeat split. Qed.

(** A large-object segment of the Dalvik heap is added to [HEAP_DALVIK] and
    to [HEAP_DALVIK_LARGE]. *)
Example dalvik_large_counted_twice :
  exists stats b,
    read_mapinfo_blocks (fopen Samples.dalvik_large) stats_zero
    = Done (stats, [b])
    /\ (b_whichHeap b, b_subHeap b) = (HEAP_DALVIK, HEAP_DALVIK_LARGE)
    /\ stats HEAP_DALVIK = mk_stats 64 0 64 0 0 0
    /\ stats HEAP_DALVIK_LARGE = mk_stats 64 0 64 0 0 0.
Proof.
  destruct (read_mapinfo_blocks (fopen Samples.dalvik_large) stats_zero)
    as [[stats trace]| |] eqn:E; vm_compute in E; try discriminate E.
  injection E as <- <-. eexists. eexists. split; [reflexivity|].
  repeat split.
Qed.

(** The mapping without a name that follows a shared object is counted
    with it, and is not swappable. *)
Example bss_counted_with_library :
  exists stats b1 b2,
    read_mapinfo_blocks (fopen Samples.library_and_bss) stats_zero
    = Done (stats, [b1; b2])
    /\ (b_whichHeap b2, b_is_swappable b2) = (HEAP_SO, false)
    /\ pss (stats HEAP_SO) = 12.
Proof.
  destruct (read_mapinfo_blocks (fopen Samples.library_and_bss) stats_zero)
    as [[stats trace]| |] eqn:E; vm_compute in E; try discriminate E.
  injection E as <- <-. eexists. eexists. eexists. split; [reflexivity|].
  repeat split.
Qed.

(** The larger allocation first. *)
Example larger_size_first :
  NativeHeap.compareHeapRecords
    (NativeHeap.mk_record 100 1 (5 :: repeat 0 31))
    (NativeHeap.mk_record 50 2 (1 :: repeat 0 31)) = -1.
Proof. reflexivity. Qed.

Example uss_of_a_listing :
  PssPid.getPssPid
    (Some (fopen ("Pss:                  12 kB" ++ Samples.nl ++
                  "Shared_Clean:          4 kB" ++ Samples.nl ++
                  "Private_Clean:         8 kB" ++ Samples.nl ++
                  "Private_Dirty:        16 kB" ++ Samples.nl)))
  = Some (12, Some 24)
  /\ PssPid.getPssPid None = Some (0, None).
Proof. split; reflexivity. Qed.

End Examples.

(** * Further properties *)

(** ** The comparator as an order, and the lines of the report *)

Module ReportFacts.
Import Int NativeHeap Spec ReportNotions.

Lemma compare_backtraces_range (todo : nat) :
  forall idx bt1 bt2,
    compare_backtraces todo idx bt1 bt2 = -1
    \/ compare_backtraces todo idx bt1 bt2 = 0
    \/ compare_backtraces todo idx bt1 bt2 = 1.
Proof.
  induction todo as [|todo IH]; intros idx bt1 bt2; cbn [compare_backtraces];
    [auto|].
  destruct (slot bt1 idx =? slot bt2 idx).
  - destruct (slot bt1 idx =? 0); [auto|apply IH].
  - destruct (slot bt1 idx <? slot bt2 idx); [auto|].
    destruct (slot bt2 idx <? slot bt1 idx); [auto|apply IH].
Qed.

Lemma compare_backtraces_swap (todo : nat) :
  forall idx bt1 bt2,
    compare_backtraces todo idx bt2 bt1 = - compare_backtraces todo idx bt1 bt2.
Proof.
  induction todo as [|todo IH]; intros idx bt1 bt2; cbn [compare_backtraces];
    [reflexivity|].
  destruct (Z.eqb_spec (slot bt1 idx) (slot bt2 idx)) as [E|E].
  - rewrite E, Z.eqb_refl. destruct (slot bt2 idx =? 0); [reflexivity|apply IH].
  - destruct (Z.eqb_spec (slot bt2 idx) (slot bt1 idx)) as [E'|_]; [congruence|].
    destruct (Z.ltb_spec (slot bt1 idx) (slot bt2 idx));
      destruct (Z.ltb_spec (slot bt2 idx) (slot bt1 idx));
      try reflexivity; lia.
Qed.

Lemma compare_backtraces_refl (todo : nat) :
  forall idx bt, compare_backtraces todo idx bt bt = 0.
Proof.
  induction todo as [|todo IH]; intros idx bt; cbn [compare_backtraces];
    [reflexivity|].
  rewrite Z.eqb_refl. destruct (slot bt idx =? 0); [reflexivity|apply IH].
Qed.

(** Both facts at once: [<= 0] is transitive, and strictly so when one of
    the two steps is strict. *)
Lemma compare_backtraces_trans (todo : nat) :
  forall idx a b c,
    compare_backtraces todo idx a b <= 0 ->
    compare_backtraces todo idx b c <= 0 ->
    compare_backtraces todo idx a c <= 0
    /\ (compare_backtraces todo idx a b < 0
        \/ compare_backtraces todo idx b c < 0 ->
        compare_backtraces todo idx a c < 0).
Proof.
  induction todo as [|todo IH]; intros idx a b c; cbn [compare_backtraces];
    [lia|].
  destruct (Z.eqb_spec (slot a idx) (slot b idx)) as [Eab|Eab];
    destruct (Z.eqb_spec (slot b idx) (slot c idx)) as [Ebc|Ebc];
    destruct (Z.eqb_spec (slot a idx) (slot c idx)) as [Eac|Eac];
    try (exfalso; congruence).
  - destruct (Z.eqb_spec (slot a idx) 0) as [Za|Za];
      destruct (Z.eqb_spec (slot b idx) 0) as [Zb|Zb];
      try (exfalso; congruence); [lia|apply IH].
  - destruct (Z.eqb_spec (slot a idx) 0) as [Za|Za];
      destruct (Z.ltb_spec (slot b idx) (slot c idx));
      destruct (Z.ltb_spec (slot c idx) (slot b idx));
      destruct (Z.ltb_spec (slot a idx) (slot c idx));
      destruct (Z.ltb_spec (slot c idx) (slot a idx));
      try lia;
      pose proof (compare_backtraces_range todo (S idx) a b);
      pose proof (compare_backtraces_range todo (S idx) a c); lia.
  - destruct (Z.eqb_spec (slot b idx) 0) as [Zb|Zb];
      destruct (Z.ltb_spec (slot a idx) (slot b idx));
      destruct (Z.ltb_spec (slot b idx) (slot a idx));
      destruct (Z.ltb_spec (slot a idx) (slot c idx));
      destruct (Z.ltb_spec (slot c idx) (slot a idx));
      try lia;
      pose proof (compare_backtraces_range todo (S idx) b c);
      pose proof (compare_backtraces_range todo (S idx) a c); lia.
  - destruct (Z.ltb_spec (slot a idx) (slot b idx));
      destruct (Z.ltb_spec (slot b idx) (slot a idx));
      destruct (Z.ltb_spec (slot b idx) (slot c idx));
      destruct (Z.ltb_spec (slot c idx) (slot b idx));
      try lia.
  - destruct (Z.ltb_spec (slot a idx) (slot b idx));
      destruct (Z.ltb_spec (slot b idx) (slot a idx));
      destruct (Z.ltb_spec (slot b idx) (slot c idx));
      destruct (Z.ltb_spec (slot c idx) (slot b idx));
      destruct (Z.ltb_spec (slot a idx) (slot c idx));
      destruct (Z.ltb_spec (slot c idx) (slot a idx));
      try lia.
Qed.

(** X1: [compareHeapRecords] is a comparator [qsort] can be given: it
    returns -1, 0 or 1, a record compares equal to itself, swapping the
    arguments negates the result, and "not after" is transitive. *)
Theorem comparator_is_total_preorder (a b c : record) :
  (compareHeapRecords a b = -1 \/ compareHeapRecords a b = 0
   \/ compareHeapRecords a b = 1)
  /\ compareHeapRecords a a = 0
  /\ compareHeapRecords b a = - compareHeapRecords a b
  /\ (compareHeapRecords a b <= 0 -> compareHeapRecords b c <= 0 ->
      compareHeapRecords a c <= 0).
Proof.
  unfold compareHeapRecords. repeat split.
  - destruct (size a <? size b); [auto|].
    destruct (size b <? size a); [auto|]. apply compare_backtraces_range.
  - rewrite Z.ltb_irrefl. apply compare_backtraces_refl.
  - destruct (Z.ltb_spec (size a) (size b));
      destruct (Z.ltb_spec (size b) (size a)); try reflexivity; try lia.
    apply compare_backtraces_swap.
  - destruct (Z.ltb_spec (size a) (size b));
      destruct (Z.ltb_spec (size b) (size a));
      destruct (Z.ltb_spec (size b) (size c));
      destruct (Z.ltb_spec (size c) (size b));
      destruct (Z.ltb_spec (size a) (size c));
      destruct (Z.ltb_spec (size c) (size a)); try lia.
    intros Hab Hbc.
    apply (compare_backtraces_trans BACKTRACE_SIZE 0 _ _ _ Hab Hbc).
Qed.

Lemma compare_backtraces_tie (todo : nat) :
  forall idx bt1 bt2 n,
    compare_backtraces todo idx bt1 bt2 = 0 ->
    (n <= todo)%nat ->
    dump_backtrace n idx bt1 = dump_backtrace n idx bt2.
Proof.
  induction todo as [|todo IH]; intros idx bt1 bt2 n Hc Hn.
  - assert (n = O) by lia. subst n. reflexivity.
  - destruct n as [|n]; [reflexivity|].
    cbn [compare_backtraces] in Hc. cbn [dump_backtrace].
    destruct (Z.eqb_spec (slot bt1 idx) (slot bt2 idx)) as [E|E].
    + rewrite <- E. destruct (slot bt1 idx =? 0); [reflexivity|].
      f_equal. apply IH; [exact Hc|lia].
    + destruct (Z.ltb_spec (slot bt1 idx) (slot bt2 idx)); [discriminate|].
      destruct (Z.ltb_spec (slot bt2 idx) (slot bt1 idx)); [discriminate|].
      lia.
Qed.

(** X2: two records that compare equal and have the same count are
    printed as the same lines, when at most 32 slots are printed: the
    report does not depend on the order [qsort] leaves such records in. *)
Theorem tied_records_print_alike (r1 r2 : record) (backtraceSize : Z) :
  compareHeapRecords r1 r2 = 0 ->
  allocations r1 = allocations r2 ->
  backtraceSize <= Z.of_nat BACKTRACE_SIZE ->
  dump_record backtraceSize r1 = dump_record backtraceSize r2.
Proof.
  unfold compareHeapRecords, dump_record. intros Hc Ha Hb.
  destruct (Z.ltb_spec (size r1) (size r2)); [discriminate|].
  destruct (Z.ltb_spec (size r2) (size r1)); [discriminate|].
  assert (Hs : size r1 = size r2) by lia.
  rewrite Hs, Ha. f_equal. f_equal.
  eapply compare_backtraces_tie; [exact Hc|]. unfold BACKTRACE_SIZE in *. lia.
Qed.

Lemma tied_records_print_alike_witness :
  dump_record 32 (mk_record 64 3 (1 :: 2 :: 0 :: 7 :: repeat 0 28))
  = dump_record 32 (mk_record 64 3 (1 :: 2 :: 0 :: 9 :: repeat 0 28)).
Proof.
  apply (@tied_records_print_alike
           (mk_record 64 3 (1 :: 2 :: 0 :: 7 :: repeat 0 28))
           (mk_record 64 3 (1 :: 2 :: 0 :: 9 :: repeat 0 28)) 32);
    [reflexivity|reflexivity|vm_compute; discriminate].
Defined.

(** X3: the flag and the size printed for a record give its size word
    back: for a 32-bit size word, flag * 2^31 + size is the word, the flag
    is 0 or 1 and the size printed is below 2^31. *)
Theorem printed_size_round_trip (r : record) :
  0 <= size r <= UINT_MAX ->
  size_word (printed_flag r) (printed_size r) = size r
  /\ (printed_flag r = 0 \/ printed_flag r = 1)
  /\ 0 <= printed_size r < SIZE_FLAG_ZYGOTE_CHILD
  /\ dump_record 0 r
     = [Fprintf "z %d  sz %8zu  num %4zu  bt"
          [Num (printed_flag r); Num (printed_size r); Num (allocations r)];
        Fprintf nl []].
Proof.
  intros Hr.
  split; [|split; [|split; [|reflexivity]]];
    unfold size_word, printed_flag, printed_size;
    pose proof (NativeHeapFacts.cleared_size_mod r) as Hc;
    unfold cleared_size in Hc; rewrite ?Hc;
    rewrite ?(NativeHeapFacts.land_flag Hr);
    change SIZE_FLAG_ZYGOTE_CHILD with 2147483648;
    unfold UINT_MAX in Hr;
    pose proof (Z.mod_pos_bound (size r) 2147483648 ltac:(lia)) as Hm.
  - destruct (Z.ltb_spec (size r) 2147483648) as [Hlt|Hge]; cbn [Z.eqb].
    + rewrite Z.mod_small by lia. lia.
    + pose proof (Z.div_mod (size r) 2147483648 ltac:(lia)) as Hd.
      assert (Hq : size r / 2147483648 = 1)
        by (symmetry;
            apply (Z.div_unique (size r) 2147483648 1 (size r - 2147483648));
            lia).
      rewrite Hq in Hd. lia.
  - destruct (size r <? 2147483648); cbn [Z.eqb]; auto.
  - lia.
Qed.

Lemma printed_size_round_trip_witness :
  size_word (printed_flag Samples.flagged_small)
            (printed_size Samples.flagged_small) = 2147483658
  /\ printed_flag Samples.flagged_small = 1
  /\ printed_size Samples.flagged_small = 10.
Proof.
  destruct (@printed_size_round_trip Samples.flagged_small)
    as [Hword _]; [vm_compute; split; discriminate|].
  split; [rewrite Hword; reflexivity|]. split; reflexivity.
Defined.

(** X4: the addresses printed for a record are the slots before the first
    zero among the first [backtraceSize]: none is zero, they are the
    leading slots in order, and the loop stops short of [backtraceSize]
    only on a slot that holds zero. *)
Theorem backtrace_printed_up_to_zero (todo : nat) (bt : list Z) :
  let out := dump_backtrace todo 0 bt in
  map printed_address out
  = map (fun a => Some a) (slots bt 0 (List.length out))
  /\ Forall (fun o => exists a, o = Fprintf " %08x" [Num a] /\ a <> 0) out
  /\ (List.length out <= todo)%nat
  /\ ((List.length out < todo)%nat -> slot bt (List.length out) = 0).
Proof.
  cbn zeta.
  assert (H : forall idx,
    map printed_address (dump_backtrace todo idx bt)
    = map (fun a => Some a)
          (slots bt idx (List.length (dump_backtrace todo idx bt)))
    /\ Forall (fun o => exists a, o = Fprintf " %08x" [Num a] /\ a <> 0)
              (dump_backtrace todo idx bt)
    /\ (List.length (dump_backtrace todo idx bt) <= todo)%nat
    /\ ((List.length (dump_backtrace todo idx bt) < todo)%nat ->
        slot bt (idx + List.length (dump_backtrace todo idx bt)) = 0)).
  { induction todo as [|todo IH]; intros idx; cbn [dump_backtrace].
    - repeat split; [constructor|cbn; lia|cbn; lia].
    - destruct (Z.eqb_spec (slot bt idx) 0) as [Hz|Hz].
      + repeat split; [constructor|cbn; lia|].
        cbn. intros _. now rewrite Nat.add_0_r.
      + destruct (IH (S idx)) as [Hmap [Hall [Hlen Hstop]]].
        cbn [List.length map printed_address]. unfold slots in *.
        cbn [seq map]. rewrite Hmap. repeat split.
        * constructor; [eauto|exact Hall].
        * lia.
        * intros Hlt. rewrite <- Hstop by lia. f_equal. lia. }
  destruct (H O) as [H1 [H2 [H3 H4]]]. auto.
Qed.

Lemma copy_maps_chunks (BUFSIZ : nat) (fuel : nat) :
  (0 < BUFSIZ)%nat ->
  forall content,
    (List.length content <= fuel)%nat ->
    List.concat (map written (copy_maps BUFSIZ fuel content)) = content
    /\ Forall (fun o => exists buf, o = Fwrite buf /\ buf <> []
                                    /\ (List.length buf <= BUFSIZ)%nat)
              (copy_maps BUFSIZ fuel content).
Proof.
  intros HB. induction fuel as [|fuel IH]; intros content Hlen.
  - destruct content; [|cbn in Hlen; lia]. split; [reflexivity|constructor].
  - cbn [copy_maps].
    destruct (firstn BUFSIZ content) as [|c buf] eqn:E.
    + destruct content as [|c content]; [split; [reflexivity|constructor]|].
      destruct BUFSIZ; [lia|cbn in E; discriminate E].
    + assert (Hskip : (List.length (skipn BUFSIZ content) <= fuel)%nat).
      { rewrite length_skipn.
        destruct content; [rewrite firstn_nil in E; discriminate E|].
        cbn [List.length] in *. lia. }
      destruct (IH _ Hskip) as [Hcat Hall].
      split.
      * cbn [map written List.concat]. rewrite Hcat, <- E.
        apply firstn_skipn.
      * constructor; [|exact Hall].
        exists (c :: buf). split; [reflexivity|]. split; [discriminate|].
        rewrite <- E. rewrite length_firstn. lia.
Qed.

(** X5: the mapping listing is copied whole and in order, in pieces of at
    most [BUFSIZ] bytes, none of them empty, whatever the (positive) size
    of the buffer. *)
Theorem maps_copied_verbatim (BUFSIZ : nat) (content : list ascii) :
  (0 < BUFSIZ)%nat ->
  let out := copy_maps BUFSIZ (List.length content) content in
  List.concat (map written out) = content
  /\ Forall (fun o => exists buf, o = Fwrite buf /\ buf <> []
                                  /\ (List.length buf <= BUFSIZ)%nat) out.
Proof.
  intros HB. apply copy_maps_chunks; [exact HB|lia].
Qed.

Lemma maps_copied_verbatim_witness :
  map written (copy_maps 4 9 (CStr.lit "123456789"))
  = [CStr.lit "1234"; CStr.lit "5678"; CStr.lit "9"]
  /\ List.concat (map written (copy_maps 4 9 (CStr.lit "123456789")))
     = CStr.lit "123456789".
Proof.
  split; [reflexivity|].
  apply (@maps_copied_verbatim 4 (CStr.lit "123456789")). lia.
Defined.

Lemma record_lines_of_entries (backtraceSize : Z) (l : list record) :
  List.length (filter is_record_line (flat_map (dump_record backtraceSize) l))
  = List.length l.
Proof.
  induction l as [|r l IH]; [reflexivity|].
  cbn [flat_map]. rewrite filter_app, length_app, IH.
  unfold dump_record. cbn [filter is_record_line String.eqb Ascii.eqb Bool.eqb].
  rewrite filter_app.
  assert (Hbt : forall todo idx,
            filter is_record_line (dump_backtrace todo idx (backtrace r)) = []).
  { induction todo as [|todo IHt]; intros idx; cbn [dump_backtrace];
      [reflexivity|].
    destruct (slot (backtrace r) idx =? 0); [reflexivity|].
    cbn [filter is_record_line]. apply IHt. }
  rewrite Hbt. reflexivity.
Qed.

Lemma no_record_line_in_copy (BUFSIZ fuel : nat) :
  forall content, filter is_record_line (copy_maps BUFSIZ fuel content) = [].
Proof.
  induction fuel as [|fuel IH]; intros content; cbn [copy_maps];
    [reflexivity|].
  destruct (firstn BUFSIZ content); [reflexivity|].
  cbn [filter is_record_line]. apply IH.
Qed.

(** X6: when allocation records are supplied and the two assertions hold,
    the function returns and the report has one entry line for each of the
    [overallSize / infoSize] records, the number its header announces,
    provided [qsort] returns as many records as it is given. *)
Theorem one_entry_line_per_record
    (qsort : (record -> record -> Z) -> list record -> list record)
    (BUFSIZ : nat) (leak : leak_info) (records : list record)
    (maps : option (list ascii)) :
  (forall cmp l, List.length (qsort cmp l) = List.length l) ->
  info leak = Some records ->
  infoSize leak <> 0 ->
  overallSize leak mod infoSize leak = 0 ->
  0 <= overallSize leak / infoSize leak <= Z.of_nat (List.length records) ->
  let '(out, status) := dumpNativeHeap qsort BUFSIZ leak maps in
  status = Returned
  /\ Z.of_nat (List.length (filter is_record_line out))
     = overallSize leak / infoSize leak
  /\ In (Fprintf ("Allocation records: %zd" ++ nl)
           [Num (overallSize leak / infoSize leak)]) out.
Proof.
  intros Hq Hinfo Hsize Hmod Hcount. unfold dumpNativeHeap. rewrite Hinfo.
  destruct (Z.eqb_spec (infoSize leak) 0) as [E|_]; [contradiction|].
  rewrite Hmod. cbn [Z.eqb negb orb].
  split; [reflexivity|]. split.
  - rewrite !filter_app, !length_app, record_lines_of_entries, Hq.
    rewrite length_firstn.
    assert (Hno : forall l, Forall (fun o => is_record_line o = false) l ->
                            List.length (filter is_record_line l) = O).
    { induction 1 as [|o l Ho _ IHl]; [reflexivity|]. cbn. now rewrite Ho. }
    rewrite (Hno [_; _; _]) by (repeat constructor).
    rewrite (Hno [Fprintf nl []]) by (repeat constructor).
    rewrite (Hno [Fprintf ("MAPS" ++ nl) []]) by (repeat constructor).
    assert (Hw : List.length (filter is_record_line
                   (if backtraceSize leak =? Z.of_nat BACKTRACE_SIZE then []
                    else [Fprintf ("WARNING: mismatched backtrace sizes (%d vs. %d)"
                                   ++ nl)
                            [Num (backtraceSize leak);
                             Num (Z.of_nat BACKTRACE_SIZE)]])) = O)
      by (destruct (backtraceSize leak =? Z.of_nat BACKTRACE_SIZE); reflexivity).
    rewrite Hw.
    assert (Ht : List.length (filter is_record_line
                   match maps with
                   | None => [Fprintf ("Could not open %s" ++ nl)
                                [Str "/proc/self/maps"]]
                   | Some content =>
                       copy_maps BUFSIZ (List.length content) content
                       ++ [Fprintf ("END" ++ nl) []]
                   end) = O).
    { destruct maps as [content|]; [|reflexivity].
      rewrite filter_app, no_record_line_in_copy. reflexivity. }
    rewrite Ht. lia.
  - cbn. auto.
Qed.

Lemma one_entry_line_per_record_witness :
  let '(out, status) :=
    dumpNativeHeap (fun _ l => rev l) 4
      (mk_leak (Some [Samples.plain_large; Samples.flagged_small]) 272 136 110 32)
      (Some (CStr.lit "maps")) in
  status = Returned
  /\ Z.of_nat (List.length (filter is_record_line out)) = 2.
Proof.
  pose proof (@one_entry_line_per_record (fun _ l => rev l) 4
                (mk_leak (Some [Samples.plain_large; Samples.flagged_small])
                   272 136 110 32)
                [Samples.plain_large; Samples.flagged_small]
                (Some (CStr.lit "maps"))
                (fun _ l => length_rev l) eq_refl) as H.
  cbn [infoSize overallSize] in H.
  specialize (H ltac:(discriminate) eq_refl ltac:(vm_compute; split; discriminate)).
  destruct (dumpNativeHeap _ _ _ _) as [out status].
  destruct H as [H1 [H2 _]]. split; [exact H1|exact H2].
Defined.

End ReportFacts.

(** ** The totals of the parser *)

Module TotalsFacts.
Import CStr Int Libc Smaps Spec TotalsNotions SmapsFacts.

Lemma add_block_field (c : counter) (st : stats_array) (h h' : heap)
    (v : Var.t) :
  field c (add_block st h v h')
  = if heap_eqb h' h then s32 (field c (st h) + var c v) else field c (st h').
Proof.
  unfold add_block, set_stats.
  destruct (heap_eqb h' h); [|reflexivity]. destruct c; reflexivity.
Qed.

Lemma sub_heaps_NoDup : NoDup sub_heaps.
Proof.
  repeat (constructor; [cbn; intuition discriminate|]). constructor.
Qed.

Lemma dalvik_heaps_NoDup : NoDup dalvik_heaps.
Proof.
  repeat (constructor; [cbn; intuition discriminate|]). constructor.
Qed.

Lemma sub_heaps_member (h : heap) :
  existsb (fun h' => heap_eqb h' h) sub_heaps = negb (is_primary h).
Proof. destruct h; reflexivity. Qed.

Lemma dalvik_heaps_member (h : heap) :
  existsb (fun h' => heap_eqb h' h) dalvik_heaps = is_dalvik h.
Proof. destruct h; reflexivity. Qed.

Lemma dalvik_is_primary (h : heap) : is_dalvik h = true -> is_primary h = true.
Proof. destruct h; cbn; intros H; try reflexivity; discriminate H. Qed.

(** The sum of a total over a set of heaps after [add_block]. *)
Lemma add_block_sum (c : counter) (hs : list heap) (st : stats_array)
    (h : heap) (v : Var.t) :
  NoDup hs ->
  sum_over hs (field c) (add_block st h v)
  = sum_over hs (field c) st
    + (if existsb (fun h' => heap_eqb h' h) hs
       then s32 (field c (st h) + var c v) - field c (st h) else 0).
Proof.
  intros Hnd. unfold add_block. rewrite sum_over_set_stats by assumption.
  destruct (existsb (fun h' => heap_eqb h' h) hs); [|reflexivity].
  destruct c; reflexivity.
Qed.

Lemma fold_blocks_primary (c : counter) (blocks : list block) :
  forall st,
    Forall block_ok blocks ->
    exists k,
      sum_over primary_heaps (field c) (fold_left apply_block blocks st)
      = sum_over primary_heaps (field c) st + counted c blocks
        + k * 4294967296.
Proof.
  induction blocks as [|b blocks IH]; intros st Hall;
    cbn [fold_left counted fold_right].
  - exists 0. lia.
  - inversion Hall as [|? ? Hb Hall']; subst.
    destruct (IH (apply_block st b) Hall') as [k Hk]. rewrite Hk.
    fold (counted c blocks).
    destruct Hb as [Hwh [Hsh _]]. unfold apply_block.
    destruct (b_skip b); [exists k; lia|].
    fold (is_dalvik (b_whichHeap b)).
    destruct (s32_congruent
                (field c (st (b_whichHeap b)) + var c (b_vars b))) as [j Hj].
    destruct (is_dalvik (b_whichHeap b)) eqn:Hd.
    + rewrite !add_block_sum by apply primary_heaps_NoDup.
      rewrite !primary_heaps_member, Hwh, (Hsh eq_refl).
      exists (k + j). lia.
    + rewrite add_block_sum by apply primary_heaps_NoDup.
      rewrite primary_heaps_member, Hwh. exists (k + j). lia.
Qed.

(** X7: for each of the six totals, once [read_mapinfo] is done the sum
    of that total over the sixteen primary heaps is, modulo 2^32, the sum of
    the matching variable over the blocks that were not skipped. *)
Theorem each_total_sums_the_blocks (c : counter) (fp : FILE)
    (stats : stats_array) (trace : list block) :
  read_mapinfo_blocks fp stats_zero = Done (stats, trace) ->
  sum_over primary_heaps (field c) stats mod 4294967296
  = counted c trace mod 4294967296.
Proof.
  intros Hrun. apply read_mapinfo_fold in Hrun. destruct Hrun as [-> Hall].
  destruct (fold_blocks_primary c stats_zero Hall) as [k Hk]. rewrite Hk.
  assert (Hz : sum_over primary_heaps (field c) stats_zero = 0)
    by (destruct c; reflexivity).
  rewrite Hz, Z.add_0_l. apply Z.mod_add. lia.
Qed.

Lemma each_total_sums_the_blocks_witness :
  match read_mapinfo_blocks (fopen Samples.libfoo_then_heap) stats_zero with
  | Done (stats, trace) =>
      counted PrivateDirty_total trace = 20
      /\ sum_over primary_heaps privateDirty stats mod 4294967296 = 20
  | _ => False
  end.
Proof.
  destruct (read_mapinfo_blocks (fopen Samples.libfoo_then_heap) stats_zero)
    as [[stats trace]| |] eqn:E;
    [|vm_compute in E; discriminate E|vm_compute in E; discriminate E].
  assert (Hc : counted PrivateDirty_total trace = 20).
  { pose proof E as E'. vm_compute in E'. injection E' as _ <-. reflexivity. }
  split; [exact Hc|].
  change privateDirty with (field PrivateDirty_total).
  rewrite (@each_total_sums_the_blocks PrivateDirty_total _ _ _ E), Hc.
  reflexivity.
Defined.

Lemma fold_blocks_dalvik (c : counter) (blocks : list block) :
  forall st,
    Forall block_ok blocks ->
    exists k,
      sum_over sub_heaps (field c) (fold_left apply_block blocks st)
      - sum_over dalvik_heaps (field c) (fold_left apply_block blocks st)
      = sum_over sub_heaps (field c) st - sum_over dalvik_heaps (field c) st
        + k * 4294967296.
Proof.
  induction blocks as [|b blocks IH]; intros st Hall; cbn [fold_left].
  - exists 0. lia.
  - inversion Hall as [|? ? Hb Hall']; subst.
    destruct (IH (apply_block st b) Hall') as [k Hk]. rewrite Hk.
    destruct Hb as [Hwh [Hsh _]]. unfold apply_block.
    destruct (b_skip b); [exists k; lia|].
    fold (is_dalvik (b_whichHeap b)).
    destruct (is_dalvik (b_whichHeap b)) eqn:Hd.
    + rewrite !add_block_sum
        by (try apply sub_heaps_NoDup; apply dalvik_heaps_NoDup).
      rewrite !sub_heaps_member, !dalvik_heaps_member, Hwh, (Hsh eq_refl), Hd.
      assert (Hsd : is_dalvik (b_subHeap b) = false).
      { destruct (is_dalvik (b_subHeap b)) eqn:E; [|reflexivity].
        apply dalvik_is_primary in E. rewrite (Hsh eq_refl) in E.
        discriminate. }
      rewrite Hsd. cbn [negb].
      destruct (s32_congruent
                  (field c (st (b_whichHeap b)) + var c (b_vars b)))
        as [j Hj].
      destruct (s32_congruent
                  (field c (add_block st (b_whichHeap b) (b_vars b)
                                      (b_subHeap b))
                   + var c (b_vars b))) as [i Hi].
      exists (k + i - j). lia.
    + rewrite !add_block_sum
        by (try apply sub_heaps_NoDup; apply dalvik_heaps_NoDup).
      rewrite sub_heaps_member, dalvik_heaps_member, Hwh, Hd.
      exists k. cbn [negb]. lia.
Qed.

(** X8: the five Dalvik sub-heaps detail the two Dalvik heaps: once
    [read_mapinfo] is done, for each of the six totals the sum over the
    sub-heaps is, modulo 2^32, the sum over [HEAP_DALVIK] and
    [HEAP_DALVIK_OTHER]. *)
Theorem sub_heaps_detail_dalvik (c : counter) (fp : FILE)
    (stats : stats_array) (trace : list block) :
  read_mapinfo_blocks fp stats_zero = Done (stats, trace) ->
  sum_over sub_heaps (field c) stats mod 4294967296
  = sum_over dalvik_heaps (field c) stats mod 4294967296.
Proof.
  intros Hrun. apply read_mapinfo_fold in Hrun. destruct Hrun as [-> Hall].
  destruct (fold_blocks_dalvik c stats_zero Hall) as [k Hk].
  assert (Hz : sum_over sub_heaps (field c) stats_zero
               - sum_over dalvik_heaps (field c) stats_zero = 0)
    by (destruct c; reflexivity).
  rewrite Hz in Hk.
  replace (sum_over sub_heaps (field c)
             (fold_left apply_block trace stats_zero))
    with (sum_over dalvik_heaps (field c)
            (fold_left apply_block trace stats_zero) + k * 4294967296) by lia.
  apply Z.mod_add. lia.
Qed.

Lemma sub_heaps_detail_dalvik_witness :
  match read_mapinfo_blocks (fopen Samples.dalvik_large) stats_zero with
  | Done (stats, trace) =>
      sum_over dalvik_heaps pss stats = 64
      /\ sum_over sub_heaps pss stats mod 4294967296 = 64
  | _ => False
  end.
Proof.
  destruct (read_mapinfo_blocks (fopen Samples.dalvik_large) stats_zero)
    as [[stats trace]| |] eqn:E;
    [|vm_compute in E; discriminate E|vm_compute in E; discriminate E].
  assert (Hd : sum_over dalvik_heaps pss stats = 64).
  { pose proof E as E'. vm_compute in E'. injection E' as <- _. reflexivity. }
  split; [exact Hd|].
  change (sum_over sub_heaps pss stats)
    with (sum_over sub_heaps (field Pss_total) stats).
  rewrite (@sub_heaps_detail_dalvik Pss_total _ _ _ E).
  change (field Pss_total) with pss. rewrite Hd. reflexivity.
Defined.

End TotalsFacts.

(** ** The iterations of the parser *)

Module ParserFacts.
Import CStr Int Libc Smaps Spec TotalsNotions SmapsFacts.

Lemma mapinfo_loop_blocks (fuel : nat) :
  forall f fp stats trace stats' trace',
    mapinfo_loop fuel f fp stats trace = Done (stats', trace') ->
    0 <= Var.pss (vars f) ->
    (List.length trace' <= List.length trace + S (List.length fp))%nat.
Proof.
  induction fuel as [|fuel IH]; intros f fp stats trace stats' trace';
    cbn [mapinfo_loop]; [discriminate|].
  destruct (loop_body f fp stats) as [st|] eqn:Hb; [|discriminate].
  intros Hrun Hv. pose proof (loop_body_block _ _ _ Hb Hv) as Hst.
  destruct st as [|stats1 b|f1 fp1 stats1 b].
  - injection Hrun as _ <-. lia.
  - injection Hrun as _ <-. rewrite length_app. cbn. lia.
  - destruct Hst as [_ [_ [Hv1 Hlen]]].
    apply IH in Hrun; [|exact Hv1]. rewrite length_app in Hrun. cbn in Hrun.
    lia.
Qed.

(** X9: [read_mapinfo] terminates on every stream: the fuel it is run
    with, the number of lines, never runs out; and it completes at most as
    many blocks as the stream has lines. *)
Theorem read_mapinfo_ends (fp : FILE) (stats : stats_array) :
  read_mapinfo fp stats <> OutOfFuel
  /\ forall stats' trace,
      read_mapinfo_blocks fp stats = Done (stats', trace) ->
      (List.length trace <= List.length fp)%nat.
Proof.
  split; [apply read_mapinfo_terminates|].
  unfold read_mapinfo_blocks. destruct fp as [|l fp].
  - intros stats' trace [= _ <-]. cbn. lia.
  - intros stats' trace Hrun.
    apply mapinfo_loop_blocks in Hrun; [|cbn; lia]. cbn in Hrun |- *. lia.
Qed.

(** X10: an iteration changes the totals of the heap of its block and,
    for a Dalvik heap, of its sub-heap, and of no other heap; a block that
    is skipped changes none. *)
Theorem block_changes_its_heaps_only (f : frame) (fp : FILE)
    (stats stats' : stats_array) (st : step) (b : block)
    (next : option FILE) :
  loop_body f fp stats = Some st ->
  step_block st = Some (b, stats', next) ->
  0 <= Var.pss (vars f) ->
  (forall h, h <> b_whichHeap b -> h <> b_subHeap b -> stats' h = stats h)
  /\ (is_dalvik (b_whichHeap b) = false ->
      forall h, h <> b_whichHeap b -> stats' h = stats h)
  /\ (b_skip b = true -> forall h, stats' h = stats h).
Proof.
  intros Hbody Hstep Hv.
  pose proof (loop_body_block _ _ _ Hbody Hv) as Hst.
  assert (Hstats : stats' = apply_block stats b).
  { destruct st as [|s1 b1|f1 fp1 s1 b1]; cbn in Hstep; [discriminate| |];
      injection Hstep as <- <- <-; apply Hst. }
  subst stats'. unfold apply_block. fold (is_dalvik (b_whichHeap b)).
  assert (Hadd : forall st0 h0 h, h <> h0 ->
                   add_block st0 h0 (b_vars b) h = st0 h).
  { intros st0 h0 h Hne. unfold add_block, set_stats.
    destruct (heap_eqb h h0) eqn:E; [|reflexivity].
    apply heap_eqb_eq in E. contradiction. }
  split; [|split].
  - intros h H1 H2. destruct (b_skip b); [reflexivity|].
    destruct (is_dalvik (b_whichHeap b)); rewrite ?Hadd by assumption;
      reflexivity.
  - intros Hd h H1. rewrite Hd. destruct (b_skip b); [reflexivity|].
    apply Hadd, H1.
  - intros Hs h. rewrite Hs. reflexivity.
Qed.

Lemma block_changes_its_heaps_only_witness :
  exists stats' b,
    loop_body Samples.stack_frame Samples.lines_without_pss stats_zero
    = Some (StepDone stats' b)
    /\ b_whichHeap b = HEAP_STACK
    /\ stats' HEAP_NATIVE = stats_zero HEAP_NATIVE.
Proof.
  destruct (loop_body Samples.stack_frame Samples.lines_without_pss stats_zero)
    as [[|stats' b|f' fp' stats' b]|] eqn:E;
    try (vm_compute in E; discriminate E).
  assert (Hb : b_whichHeap b = HEAP_STACK /\ b_subHeap b = HEAP_UNKNOWN).
  { pose proof E as E'. vm_compute in E'. injection E' as _ <-.
    split; reflexivity. }
  destruct Hb as [Hwh Hsh].
  destruct (@block_changes_its_heaps_only
              Samples.stack_frame Samples.lines_without_pss
              stats_zero stats' (StepDone stats' b) b None E eq_refl)
    as [Hframe _]; [vm_compute; discriminate|].
  exists stats', b. split; [reflexivity|]. split; [exact Hwh|].
  apply Hframe; [rewrite Hwh|rewrite Hsh]; discriminate.
Defined.

(** *** The statistic lines of a block *)

Lemma block_lines_cons (l : list ascii) (fp : FILE) (line : list ascii)
    (v : Var.t) (line' : list ascii) (v' : Var.t) (next : option FILE) :
  read_stat_lines line v fp = Some (line', v', next) ->
  block_lines (l :: fp) next = l :: block_lines fp next.
Proof.
  intros Hrun. destruct next as [rest|]; [|reflexivity].
  apply read_stat_lines_shorter in Hrun. cbn [block_lines List.length].
  replace (S (List.length fp) - S (List.length rest))%nat
    with (S (List.length fp - S (List.length rest))) by lia.
  reflexivity.
Qed.

Lemma block_lines_stop (l : list ascii) (fp : FILE) :
  block_lines (l :: fp) (Some fp) = [].
Proof.
  cbn [block_lines List.length].
  replace (S (List.length fp) - S (List.length fp))%nat with O by lia.
  reflexivity.
Qed.

Lemma scan_lit_starts_with (key s : list ascii) (r : list ascii) (u : unit) :
  scan_lit key s = Conv u r -> starts_with key s = true.
Proof.
  revert s. induction key as [|k key IH]; intros s; [reflexivity|].
  cbn [scan_lit starts_with]. destruct s as [|c s]; [discriminate|].
  destruct (Z.eqb_spec (code c) (code k)) as [E|E]; [|discriminate].
  intros H. rewrite <- E, Z.eqb_refl. cbn [andb]. apply (IH _ H).
Qed.

Lemma starts_with_both (a b s : list ascii) :
  starts_with a s = true -> starts_with b s = true ->
  starts_with a b = true \/ starts_with b a = true.
Proof.
  revert b s. induction a as [|x a IH]; intros b s Ha Hb; [left; reflexivity|].
  destruct b as [|y b]; [right; reflexivity|].
  destruct s as [|c s]; [discriminate|]. cbn [starts_with] in *.
  apply andb_true_iff in Ha. destruct Ha as [Hx Ha].
  apply andb_true_iff in Hb. destruct Hb as [Hy Hb].
  apply Z.eqb_eq in Hx. apply Z.eqb_eq in Hy.
  assert (Hxy : (code x =? code y) = true) by (apply Z.eqb_eq; congruence).
  assert (Hyx : (code y =? code x) = true) by (apply Z.eqb_eq; congruence).
  rewrite Hxy, Hyx. cbn [andb]. eapply IH; eassumption.
Qed.

(** No line matches two keys. *)
Lemma other_keys_fail (k k' : key) (s : list ascii) (t : Z) :
  sscanf_kv (key_format k) s = Some (Some t) ->
  k' <> k ->
  sscanf_kv (key_format k') s = Some None.
Proof.
  unfold sscanf_kv. intros Hk Hne.
  destruct (scan_lit (lit (key_format k)) s) as [u r|] eqn:E; [|discriminate].
  destruct (scan_lit (lit (key_format k')) s) as [u' r'|] eqn:E';
    [|reflexivity].
  apply scan_lit_starts_with in E. apply scan_lit_starts_with in E'.
  destruct (starts_with_both _ _ _ E E') as [H|H];
    destruct k, k'; try contradiction; vm_compute in H; discriminate H.
Qed.

Lemma scan_stat_line_key (k : key) (s : list ascii) (t : Z) (v : Var.t) :
  sscanf_kv (key_format k) s = Some (Some t) ->
  exists w, scan_stat_line s v = Some (Some w) /\ variable k w = t.
Proof.
  intros Hk.
  assert (Hother : forall k', k' <> k ->
                     sscanf_kv (key_format k') s = Some None)
    by (intros k' Hne; eapply other_keys_fail; eassumption).
  pose proof (Hother Size) as H1. pose proof (Hother Rss) as H2.
  pose proof (Hother Pss) as H3. pose proof (Hother Shared_Clean) as H4.
  pose proof (Hother Shared_Dirty) as H5.
  pose proof (Hother Private_Clean) as H6.
  pose proof (Hother Private_Dirty) as H7.
  pose proof (Hother Referenced) as H8. clear Hother.
  unfold scan_stat_line, bind.
  destruct k; unfold key_format in *;
    repeat match goal with
      | H : ?a <> ?a -> _ |- _ => clear H
      | H : ?a <> ?b -> _ |- _ => specialize (H ltac:(discriminate))
      end;
    repeat match goal with
      | H : sscanf_kv ?f s = _ |- _ => rewrite H; clear H
      end;
    eexists; split; reflexivity.
Qed.

(** X11: when a key has several lines in a block the last one counts: the
    variable ends the block with the value of the last line of that key. *)
Theorem last_line_of_a_key_counts (k : key) (fp : FILE) :
  forall (pre post : list (list ascii)) (l : list ascii) (t : Z)
         line v line' v' next,
    read_stat_lines line v fp = Some (line', v', next) ->
    block_lines fp next = pre ++ l :: post ->
    sscanf_kv (key_format k) (cut_nul l) = Some (Some t) ->
    omits k post ->
    variable k v' = t.
Proof.
  induction fp as [|l0 fp IH];
    intros pre post l t line v line' v' next; cbn [read_stat_lines].
  - intros [= _ _ <-] Hlines. cbn in Hlines.
    destruct pre; discriminate Hlines.
  - unfold bind at 1.
    destruct (scan_stat_line (cut_nul l0) v) as [[w|]|] eqn:E;
      [| |discriminate].
    + intros Hrun Hlines Hk Hpost.
      rewrite (block_lines_cons l0 _ _ _ Hrun) in Hlines.
      destruct pre as [|p pre]; cbn [app] in Hlines.
      * injection Hlines as -> Hpost'. rewrite <- Hpost' in Hpost.
        rewrite (@read_stat_lines_omits k fp _ _ _ _ _ Hrun Hpost).
        destruct (@scan_stat_line_key k _ t v Hk) as [w' [Hw' Ht]].
        congruence.
      * injection Hlines as _ Hlines.
        eapply IH; eassumption.
    + destruct (looks_like_header (cut_nul l0)).
      * intros [= _ _ <-] Hlines. rewrite block_lines_stop in Hlines.
        destruct pre; discriminate Hlines.
      * intros Hrun Hlines Hk Hpost.
        rewrite (block_lines_cons l0 _ _ _ Hrun) in Hlines.
        destruct pre as [|p pre]; cbn [app] in Hlines.
        -- injection Hlines as -> _.
           destruct (@scan_stat_line_key k _ t v Hk) as [w' [Hw' _]].
           congruence.
        -- injection Hlines as _ Hlines.
           eapply IH; eassumption.
Qed.

Lemma last_line_of_a_key_counts_witness :
  exists line' v',
    read_stat_lines [] Smaps.Var.zero
      (fopen ("Pss: 1 kB" ++ Samples.nl ++ "Rss: 5 kB" ++ Samples.nl ++
              "Pss: 2 kB" ++ Samples.nl ++ "Size: 9 kB" ++ Samples.nl))
    = Some (line', v', None)
    /\ Var.pss v' = 2.
Proof.
  destruct (read_stat_lines [] Smaps.Var.zero
      (fopen ("Pss: 1 kB" ++ Samples.nl ++ "Rss: 5 kB" ++ Samples.nl ++
              "Pss: 2 kB" ++ Samples.nl ++ "Size: 9 kB" ++ Samples.nl)))
    as [[[line' v'] [rest|]]|] eqn:E; try (vm_compute in E; discriminate E).
  exists line', v'. split; [reflexivity|].
  apply (@last_line_of_a_key_counts Pss _
           [lit ("Pss: 1 kB" ++ Samples.nl); lit ("Rss: 5 kB" ++ Samples.nl)]
           [lit ("Size: 9 kB" ++ Samples.nl)]
           (lit ("Pss: 2 kB" ++ Samples.nl)) 2 _ _ _ _ _ E);
    [reflexivity|reflexivity|repeat constructor].
Defined.

(** *** The lookahead line *)

Lemma read_stat_lines_stop (fp : FILE) :
  forall line v line' v' fp',
    read_stat_lines line v fp = Some (line', v', Some fp') ->
    exists l buf,
      fp = block_lines fp (Some fp') ++ l :: fp'
      /\ line' = fgets_store l buf
      /\ looks_like_header (cut_nul l) = true
      /\ scan_stat_line (cut_nul l) v' = Some None.
Proof.
  induction fp as [|l0 fp IH]; intros line v line' v' fp';
    cbn [read_stat_lines]; [discriminate|].
  unfold bind at 1.
  destruct (scan_stat_line (cut_nul l0) v) as [[w|]|] eqn:E; [| |discriminate].
  - intros Hrun. rewrite (block_lines_cons l0 _ _ _ Hrun).
    destruct (IH _ _ _ _ _ Hrun) as [l [buf [Hfp H]]].
    exists l, buf. split; [cbn [app]; f_equal; exact Hfp|exact H].
  - destruct (looks_like_header (cut_nul l0)) eqn:Hh.
    + intros [= <- <- <-]. rewrite block_lines_stop.
      exists l0, line. repeat split; assumption.
    + intros Hrun. rewrite (block_lines_cons l0 _ _ _ Hrun).
      destruct (IH _ _ _ _ _ Hrun) as [l [buf [Hfp H]]].
      exists l, buf. split; [cbn [app]; f_equal; exact Hfp|exact H].
Qed.

(** X12: no line is lost between two blocks.  When an iteration goes on
    to another, the stream it consumed is the statistic lines of its
    block and then one line that looks like a header and matches no key;
    that line is what the next iteration finds in the buffer as its
    header, and the heap and variables of the block are the ones the next
    iteration starts from. *)
Theorem closing_line_is_next_header (f f' : frame) (fp fp' : FILE)
    (stats stats' : stats_array) (b : block) :
  loop_body f fp stats = Some (StepNext f' fp' stats' b) ->
  exists l,
    fp = block_lines fp (Some fp') ++ l :: fp'
    /\ looks_like_header (cut_nul l) = true
    /\ str_at (line f') 0 = Some (cut_nul l)
    /\ whichHeap f' = b_whichHeap b
    /\ vars f' = b_vars b.
Proof.
  unfold loop_body, bind.
  destruct (read_header f) as [[|line1 np e skip wh sh sw]|];
    [discriminate| |discriminate].
  destruct (read_stat_lines line1 (vars f) fp) as [[[line2 v2] next]|] eqn:Hr;
    [|discriminate].
  destruct (finish_block skip wh sh sw v2 stats) as [[v3 stats1]|];
    [|discriminate].
  destruct next as [rest|]; [|discriminate].
  intros [= <- <- _ <-].
  destruct (read_stat_lines_stop _ _ _ Hr) as [l [buf [Hfp [Hline [Hh _]]]]].
  exists l. split; [exact Hfp|]. split; [exact Hh|].
  cbn [line whichHeap vars b_whichHeap b_vars]. split; [|split; reflexivity].
  subst line2. unfold str_at. rewrite skipn_O. unfold fgets_store.
  destruct (PssPidFacts.stored_line l (skipn (S (List.length l)) buf))
    as [z [tail [-> Hz]]].
  apply PssPidFacts.until_nul_string;
    [apply PssPidFacts.cut_nul_no_nul|exact Hz].
Qed.

Lemma closing_line_is_next_header_witness :
  exists f' fp' stats' b l,
    loop_body
      (mk_frame (fgets_store (lit Samples.libfoo) []) None 0 HEAP_UNKNOWN
                Var.zero)
      (fopen ("Pss: 12 kB" ++ Samples.nl ++ Samples.dalvik_heap ++ Samples.nl
              ++ "Pss: 3 kB" ++ Samples.nl))
      stats_zero
    = Some (StepNext f' fp' stats' b)
    /\ str_at (line f') 0 = Some (cut_nul l)
    /\ looks_like_header (cut_nul l) = true.
Proof.
  destruct (loop_body
      (mk_frame (fgets_store (lit Samples.libfoo) []) None 0 HEAP_UNKNOWN
                Var.zero)
      (fopen ("Pss: 12 kB" ++ Samples.nl ++ Samples.dalvik_heap ++ Samples.nl
              ++ "Pss: 3 kB" ++ Samples.nl))
      stats_zero) as [[|stats' b|f' fp' stats' b]|] eqn:E;
    try (vm_compute in E; discriminate E).
  destruct (closing_line_is_next_header _ _ _ E) as [l [_ [Hh [Hl _]]]].
  exists f', fp', stats', b, l. split; [reflexivity|]. split; assumption.
Defined.

(** *** The names of the mappings *)

Lemma strstr_at_start_is_prefix (name : list ascii) (p : string) :
  strstr_at_start name p = starts_with (lit p) name.
Proof.
  unfold strstr_at_start.
  destruct name as [|c name]; cbn [strstr];
    destruct (starts_with (lit p) _); try reflexivity.
  destruct (strstr name (lit p)); reflexivity.
Qed.

Lemma strncmp_eq_is_prefix (name : list ascii) (p : string) (n : nat) :
  n = List.length (lit p) -> no_nul (lit p) ->
  strncmp_eq name p n = starts_with (lit p) name.
Proof.
  intros -> Hp. unfold strncmp_eq. apply PssPidFacts.strncmp_literal, Hp.
Qed.

Lemma code_inj (a b : ascii) : code a = code b -> a = b.
Proof.
  unfold code. intros Hab. apply N2Z.inj in Hab.
  rewrite <- (ascii_N_embedding a), <- (ascii_N_embedding b). now f_equal.
Qed.

Lemma strcmp_eq (a : list ascii) :
  forall b, strcmp a b = 0 -> a = b.
Proof.
  induction a as [|x a IH]; intros [|y b]; cbn [strcmp];
    try discriminate; [reflexivity|].
  destruct (Z.ltb_spec (code x) (code y)) as [|Hxy]; [discriminate|].
  destruct (Z.ltb_spec (code y) (code x)) as [|Hyx]; [discriminate|].
  intros Hs. f_equal; [apply code_inj; lia|apply IH, Hs].
Qed.

Lemma ends_in_suffix (name : list ascii) (k : nat) (s : string) :
  ends_in name (List.length name) k s = true ->
  exists stem, stem <> [] /\ name = stem ++ lit s.
Proof.
  unfold ends_in. intros H. apply andb_true_iff in H. destruct H as [Hk Hs].
  apply Nat.ltb_lt in Hk. apply Z.eqb_eq, strcmp_eq in Hs.
  exists (firstn (List.length name - k) name). split.
  - intros Hnil. apply (f_equal (@List.length ascii)) in Hnil.
    rewrite length_firstn in Hnil. cbn in Hnil. lia.
  - rewrite <- Hs. symmetry. apply firstn_skipn.
Qed.

Lemma prefix_excludes (a b name : list ascii) :
  starts_with a name = true ->
  starts_with a b = false -> starts_with b a = false ->
  starts_with b name = false.
Proof.
  intros Ha Hab Hba. destruct (starts_with b name) eqn:Hb; [|reflexivity].
  destruct (starts_with_both _ _ _ Ha Hb); congruence.
Qed.

(** X13: a mapping is swappable only as a named file.  When the
    classification makes a mapping swappable its heap is one of the seven
    file heaps, it has no sub-heap, its name is a non-empty stem followed
    by one of the eight endings, and the name begins with none of
    [/dev/], [[heap]] and [[stack]. *)
Theorem swappable_mapping_is_a_file (name : list ascii) (start prevEnd : Z)
    (prevHeap wh sh : heap) :
  classify name start prevEnd prevHeap = (wh, sh, true) ->
  In wh swappable_heaps
  /\ sh = HEAP_UNKNOWN
  /\ (exists suffix stem,
        In suffix swappable_suffixes /\ stem <> []
        /\ name = stem ++ lit suffix)
  /\ starts_with (lit "/dev/") name = false
  /\ starts_with (lit "[heap]") name = false
  /\ starts_with (lit "[stack") name = false.
Proof.
  intros H.
  assert (Hpre : starts_with (lit "/dev/") name = false
                 /\ starts_with (lit "[heap]") name = false
                 /\ starts_with (lit "[stack") name = false).
  { rewrite <- (strstr_at_start_is_prefix name "[heap]").
    rewrite <- (@strncmp_eq_is_prefix name "/dev/" 5 eq_refl)
      by (repeat constructor).
    rewrite <- (@strncmp_eq_is_prefix name "[stack" 6 eq_refl)
      by (repeat constructor).
    unfold classify in H.
    destruct (strstr_at_start name "[heap]"); [discriminate|].
    destruct (strncmp_eq name "/dev/ashmem" 11).
    { destruct (strncmp_eq name "/dev/ashmem/dalvik-" 19).
      - destruct (classify_dalvik name); discriminate.
      - destruct (strncmp_eq name "/dev/ashmem/CursorWindow" 24);
          [discriminate|].
        destruct (strncmp_eq name "/dev/ashmem/libc malloc" 23);
          discriminate. }
    destruct (strncmp_eq name "[anon:libc_malloc]" 18); [discriminate|].
    destruct (strncmp_eq name "[stack" 6); [discriminate|].
    destruct (strncmp_eq name "/dev/" 5); [discriminate|].
    repeat split. }
  split; [|split; [|split; [|exact Hpre]]]; unfold classify in H;
    repeat match type of H with
      | (let (_, _) := ?c in _) = _ => destruct c
      | (if ?c then _ else _) = _ =>
          let E := fresh "E" in destruct c eqn:E; try discriminate H
      end;
    injection H as <- <-;
    try (unfold swappable_heaps; cbn [In]; intuition congruence);
    try reflexivity;
    repeat match goal with
      | E : _ || _ = true |- _ => apply orb_true_iff in E; destruct E as [E|E]
      end;
    match goal with
    | E : ends_in name _ _ ?s = true |- _ =>
        destruct (ends_in_suffix _ _ _ E) as [stem [Hstem Hname]];
        exists s, stem; split;
        [unfold swappable_suffixes; cbn [In]; intuition congruence
        |split; assumption]
    end.
Qed.

Lemma swappable_mapping_is_a_file_witness :
  In HEAP_APK swappable_heaps
  /\ exists suffix stem,
      In suffix swappable_suffixes /\ stem <> []
      /\ lit "/system/app/Foo.apk" = stem ++ lit suffix.
Proof.
  destruct (@swappable_mapping_is_a_file (lit "/system/app/Foo.apk") 0 0
              HEAP_UNKNOWN HEAP_APK HEAP_UNKNOWN eq_refl)
    as [Hwh [_ [Hname _]]].
  split; assumption.
Defined.

(** X14: the device names come first.  A name that begins with [/dev/]
    gets one of the six device heaps and is never swappable, whatever its
    ending; and outside [/dev/ashmem] the heap is the one of the other
    devices. *)
Theorem device_mapping_is_not_swappable (name : list ascii)
    (start prevEnd : Z) (prevHeap : heap) :
  starts_with (lit "/dev/") name = true ->
  In (fst (fst (classify name start prevEnd prevHeap))) device_heaps
  /\ snd (classify name start prevEnd prevHeap) = false
  /\ (starts_with (lit "/dev/ashmem") name = false ->
      classify name start prevEnd prevHeap
      = (HEAP_UNKNOWN_DEV, HEAP_UNKNOWN, false)).
Proof.
  intros Hdev. unfold classify.
  rewrite (strstr_at_start_is_prefix name "[heap]").
  rewrite (@strncmp_eq_is_prefix name "/dev/ashmem" 11 eq_refl)
    by (repeat constructor).
  rewrite (@strncmp_eq_is_prefix name "[anon:libc_malloc]" 18 eq_refl)
    by (repeat constructor).
  rewrite (@strncmp_eq_is_prefix name "[stack" 6 eq_refl)
    by (repeat constructor).
  rewrite (@strncmp_eq_is_prefix name "/dev/" 5 eq_refl)
    by (repeat constructor).
  rewrite (@prefix_excludes _ (lit "[heap]") _ Hdev eq_refl eq_refl).
  rewrite (@prefix_excludes _ (lit "[anon:libc_malloc]") _ Hdev eq_refl eq_refl).
  rewrite (@prefix_excludes _ (lit "[stack") _ Hdev eq_refl eq_refl).
  rewrite Hdev.
  destruct (starts_with (lit "/dev/ashmem") name).
  - destruct (strncmp_eq name "/dev/ashmem/dalvik-" 19).
    + pose proof (classify_dalvik_ok name) as [Hd _].
      destruct (classify_dalvik name) as [wh sh]. cbn [fst snd] in *.
      split; [|split; [reflexivity|discriminate]].
      unfold is_dalvik in Hd. apply orb_true_iff in Hd.
      destruct Hd as [Hd|Hd]; apply heap_eqb_eq in Hd; subst wh;
        unfold device_heaps; cbn [In]; intuition congruence.
    + destruct (strncmp_eq name "/dev/ashmem/CursorWindow" 24);
        [|destruct (strncmp_eq name "/dev/ashmem/libc malloc" 23)];
        (split; [unfold device_heaps; cbn [In fst]; intuition congruence
                |split; [reflexivity|discriminate]]).
  - split; [unfold device_heaps; cbn [In fst]; intuition congruence|].
    split; reflexivity.
Qed.

Lemma device_mapping_is_not_swappable_witness :
  snd (classify (lit "/dev/ashmem/libfoo.so") 0 0 HEAP_UNKNOWN) = false
  /\ classify (lit "/dev/binder.so") 0 0 HEAP_UNKNOWN
     = (HEAP_UNKNOWN_DEV, HEAP_UNKNOWN, false).
Proof.
  split.
  - apply (@device_mapping_is_not_swappable
             (lit "/dev/ashmem/libfoo.so") 0 0 HEAP_UNKNOWN eq_refl).
  - apply (@device_mapping_is_not_swappable
             (lit "/dev/binder.so") 0 0 HEAP_UNKNOWN eq_refl).
    reflexivity.
Defined.

End ParserFacts.


(** ** What [getDirtyPagesPid] stores *)

Module MemoryInfoFacts.
Import CStr Int Libc Smaps DirtyPages Spec TotalsNotions MemoryInfoNotions.
Import SmapsFacts.

Lemma fold_heap_field (c : counter) (st st1 : stats_array) (i : heap) :
  fold_heap st i = Some st1 ->
  field c (st1 HEAP_UNKNOWN)
  = field c (st HEAP_UNKNOWN) + field c (st i)
  /\ forall h, h <> HEAP_UNKNOWN -> st1 h = st h.
Proof.
  unfold fold_heap, bind, add_int.
  repeat match goal with
    | |- context [if in_int ?x then _ else _] => destruct (in_int x)
    end; try discriminate.
  intros [= <-]. split; [destruct c; reflexivity|].
  intros h Hh. unfold set_stats.
  destruct (heap_eqb h HEAP_UNKNOWN) eqn:E; [|reflexivity].
  apply heap_eqb_eq in E. contradiction.
Qed.

Lemma fold_heaps_field (c : counter) (hs : list heap) :
  forall st st',
    fold_heaps st hs = Some st' ->
    ~ In HEAP_UNKNOWN hs ->
    field c (st' HEAP_UNKNOWN)
    = field c (st HEAP_UNKNOWN) + sum_over hs (field c) st
    /\ (forall h, h <> HEAP_UNKNOWN -> st' h = st h).
Proof.
  induction hs as [|i hs IH]; intros st st'; cbn [fold_heaps].
  - intros [= <-] _. cbn. split; [lia|reflexivity].
  - unfold bind at 1.
    destruct (fold_heap st i) as [st1|] eqn:E1; [|discriminate].
    intros Hrun Hnotin.
    assert (Hi : i <> HEAP_UNKNOWN) by (intros ->; apply Hnotin; cbn; auto).
    assert (Hhs : ~ In HEAP_UNKNOWN hs)
      by (intros Hin; apply Hnotin; cbn; auto).
    destruct (IH _ _ Hrun Hhs) as [Hu Hother].
    destruct (fold_heap_field c _ _ E1) as [H1u H1other].
    split.
    + rewrite Hu, H1u. cbn [sum_over fold_right].
      fold (sum_over hs (field c) st).
      rewrite (sum_over_ext (field c) st st1 hs); [lia|].
      intros h Hin. apply H1other. intros ->. contradiction.
    + intros h Hh. rewrite Hother, H1other by assumption. reflexivity.
Qed.

Lemma getDirtyPagesPid_stats (smaps : option FILE) (info : MemoryInfo) :
  getDirtyPagesPid smaps = Done info ->
  exists stats stats',
    load_maps smaps stats_zero = Done stats
    /\ fold_heaps stats folded_heaps = Some stats'
    /\ info = mk_info [stats' HEAP_UNKNOWN; stats' HEAP_DALVIK;
                       stats' HEAP_NATIVE]
                      (flat_map (fun i => six (stats' i)) other_heaps).
Proof.
  unfold getDirtyPagesPid.
  destruct (load_maps smaps stats_zero) as [stats| |]; try discriminate.
  fold folded_heaps.
  destruct (fold_heaps stats folded_heaps) as [stats'|] eqn:Hf;
    [|discriminate].
  intros [= <-]. exists stats, stats'. repeat split. exact Hf.
Qed.

(** X15: what [getDirtyPagesPid] stores.  The Dalvik and native entries are
    the totals of these heaps; the entry of [HEAP_UNKNOWN] is its total
    plus the totals of the thirteen other primary heaps, none of the sums
    having overflowed; and [otherStats] holds 108 numbers, the six totals
    of each of the eighteen other heaps as they were before that
    addition. *)
Theorem getDirtyPagesPid_stores (smaps : option FILE) (info : MemoryInfo) :
  getDirtyPagesPid smaps = Done info ->
  exists stats,
    load_maps smaps stats_zero = Done stats
    /\ List.length (core info) = _NUM_CORE_HEAP
    /\ core_entry info HEAP_DALVIK = stats HEAP_DALVIK
    /\ core_entry info HEAP_NATIVE = stats HEAP_NATIVE
    /\ (forall c,
          field c (core_entry info HEAP_UNKNOWN)
          = field c (stats HEAP_UNKNOWN)
            + sum_over folded_heaps (field c) stats
          /\ INT_MIN <= field c (core_entry info HEAP_UNKNOWN) <= INT_MAX)
    /\ otherStats info = flat_map (fun i => six (stats i)) other_heaps
    /\ List.length (otherStats info) = 108%nat.
Proof.
  intros Hrun.
  destruct (getDirtyPagesPid_stats _ Hrun) as [stats [stats' [Hl [Hf ->]]]].
  exists stats. split; [exact Hl|]. split; [reflexivity|].
  assert (Hnotin : ~ In HEAP_UNKNOWN folded_heaps)
    by (cbn; intuition discriminate).
  assert (Hother : forall h, h <> HEAP_UNKNOWN -> stats' h = stats h)
    by (apply (fold_heaps_field Pss_total _ _ Hf Hnotin)).
  unfold core_entry. cbn [core otherStats heap_index nth].
  split; [apply Hother; discriminate|].
  split; [apply Hother; discriminate|].
  assert (Hflat : flat_map (fun i => six (stats' i)) other_heaps
                  = flat_map (fun i => six (stats i)) other_heaps).
  { change other_heaps
      with [HEAP_DALVIK_OTHER; HEAP_STACK; HEAP_CURSOR; HEAP_ASHMEM;
            HEAP_UNKNOWN_DEV; HEAP_SO; HEAP_JAR; HEAP_APK; HEAP_TTF;
            HEAP_DEX; HEAP_OAT; HEAP_ART; HEAP_UNKNOWN_MAP;
            HEAP_DALVIK_NORMAL; HEAP_DALVIK_LARGE; HEAP_DALVIK_LINEARALLOC;
            HEAP_DALVIK_ACCOUNTING; HEAP_DALVIK_CODE_CACHE].
    cbn [flat_map]. rewrite !Hother by discriminate. reflexivity. }
  split; [|split; [exact Hflat|rewrite Hflat; reflexivity]].
  intros c. split; [apply (fold_heaps_field c _ _ Hf Hnotin)|].
  clear Hflat Hother Hrun Hl.
  assert (Hlast : exists st0 i, fold_heap st0 i = Some stats').
  { assert (Hne : folded_heaps <> []) by discriminate.
    revert Hne Hf. generalize folded_heaps as hs. generalize stats as st.
    intros st hs. revert st.
    induction hs as [|i hs IH]; intros st Hne; [contradiction|].
    cbn [fold_heaps]. unfold bind at 1.
    destruct (fold_heap st i) as [st1|] eqn:E1; [|discriminate].
    destruct hs as [|i' hs].
    - intros [= <-]. exists st, i. exact E1.
    - intros Hrest. apply (IH st1); [discriminate|exact Hrest]. }
  destruct Hlast as [st0 [i Hlast]]. revert Hlast.
  unfold fold_heap, bind, add_int, in_int.
  repeat match goal with
    | |- context [if ?x then _ else _] => destruct x eqn:?
    end; try discriminate.
  intros [= <-]. unfold set_stats. cbn [heap_eqb heap_index Nat.eqb].
  destruct c; cbn [field pss swappablePss privateDirty sharedDirty
                   privateClean sharedClean]; lia.
Qed.

Lemma getDirtyPagesPid_stores_witness :
  exists info,
    getDirtyPagesPid (Some (fopen Samples.libfoo_then_heap)) = Done info
    /\ List.length (otherStats info) = 108%nat
    /\ List.length (core info) = 3%nat.
Proof.
  destruct (getDirtyPagesPid (Some (fopen Samples.libfoo_then_heap)))
    as [info| |] eqn:E; try (vm_compute in E; discriminate E).
  destruct (getDirtyPagesPid_stores _ E) as [stats [_ [Hc [_ [_ [_ [_ Hl]]]]]]].
  exists info. split; [reflexivity|]. split; assumption.
Defined.

(** X16: the three entries stored for the core heaps cover every mapping
    counted: for each of the six counters their sum is, modulo 2^32, the sum
    of the matching variable over the blocks of the file that were not
    skipped. *)
Theorem core_entries_cover_every_block (c : counter) (fp : FILE)
    (info : MemoryInfo) :
  getDirtyPagesPid (Some fp) = Done info ->
  exists stats trace,
    read_mapinfo_blocks fp stats_zero = Done (stats, trace)
    /\ core_total c info mod 4294967296 = counted c trace mod 4294967296.
Proof.
  intros Hrun.
  destruct (getDirtyPagesPid_stats _ Hrun) as [stats [stats' [Hl [Hf ->]]]].
  cbn [load_maps] in Hl. unfold read_mapinfo in Hl.
  destruct (read_mapinfo_blocks fp stats_zero) as [[stats0 trace]| |] eqn:Hb;
    try discriminate.
  injection Hl as ->. exists stats, trace. split; [reflexivity|].
  assert (Hnotin : ~ In HEAP_UNKNOWN folded_heaps)
    by (cbn; intuition discriminate).
  destruct (fold_heaps_field c _ _ Hf Hnotin) as [Hu Hother].
  assert (Hcore : core_total c
                    (mk_info [stats' HEAP_UNKNOWN; stats' HEAP_DALVIK;
                              stats' HEAP_NATIVE]
                       (flat_map (fun i => six (stats' i)) other_heaps))
                  = sum_over primary_heaps (field c) stats).
  { unfold core_total. cbn [core fold_right].
    change (sum_over primary_heaps (field c) stats)
      with (field c (stats HEAP_UNKNOWN)
            + (field c (stats HEAP_DALVIK)
               + (field c (stats HEAP_NATIVE)
                  + sum_over folded_heaps (field c) stats))).
    rewrite Hu, !Hother by discriminate. lia. }
  rewrite Hcore.
  apply read_mapinfo_fold in Hb. destruct Hb as [-> Hall].
  destruct (TotalsFacts.fold_blocks_primary c stats_zero Hall) as [k Hk].
  rewrite Hk.
  assert (Hz : sum_over primary_heaps (field c) stats_zero = 0)
    by (destruct c; reflexivity).
  rewrite Hz, Z.add_0_l. apply Z.mod_add. lia.
Qed.

Lemma core_entries_cover_every_block_witness :
  exists info stats trace,
    getDirtyPagesPid (Some (fopen Samples.libfoo_then_heap)) = Done info
    /\ read_mapinfo_blocks (fopen Samples.libfoo_then_heap) stats_zero
       = Done (stats, trace)
    /\ core_total Pss_total info mod 4294967296
       = counted Pss_total trace mod 4294967296.
Proof.
  destruct (getDirtyPagesPid (Some (fopen Samples.libfoo_then_heap)))
    as [info| |] eqn:E; try (vm_compute in E; discriminate E).
  destruct (core_entries_cover_every_block Pss_total _ E)
    as [stats [trace [Hb Hsum]]].
  exists info, stats, trace. split; [reflexivity|]. split; assumption.
Defined.

End MemoryInfoFacts.


(** ** The two totals of [getPssPid] *)

Module PssTotalsFacts.
Import CStr Int Libc PssPid Spec PssPidNotions PssPidFacts.

Lemma starts_with_length (b a : list ascii) :
  starts_with b a = true -> (List.length b <= List.length a)%nat.
Proof.
  revert a. induction b as [|cb b IH]; intros a; [cbn; lia|].
  destruct a as [|ca a]; [discriminate|]. cbn [starts_with List.length].
  intros Hs. apply andb_true_iff in Hs. destruct Hs as [_ Hs].
  apply IH in Hs. lia.
Qed.

(** The number [atoi] reads after column [col] of the stored line. *)
Lemma atoi_after_column (col : nat) (l tail0 : list ascii) :
  (col <= List.length (cut_nul l))%nat ->
  (c <- skip_to_digit (skipn col (l ++ NUL :: tail0)) ;; atoi_at c)
  = atoi_of (number_after col l).
Proof.
  intros Hcol.
  destruct (stored_line l tail0) as [z [tail [-> Hz]]].
  pose proof (cut_nul_no_nul l) as Hnn.
  rewrite skipn_app.
  replace (col - List.length (cut_nul l))%nat with O by lia.
  rewrite skipn_O.
  rewrite skip_to_digit_string by (try apply no_nul_skipn; assumption).
  cbn [bind]. unfold atoi_at.
  rewrite until_nul_string
    by (try apply from_first_digit_no_nul; try apply no_nul_skipn; assumption).
  cbn [bind]. rewrite atoi_first_number. reflexivity.
Qed.

(** What the body of the loop does with a line, by the way the line
    begins. *)
Lemma read_line_on (st : state) (l : list ascii) :
  (begins_with_P_not_Pss l = true -> (14 <= List.length (cut_nul l))%nat) ->
  read_line st l
  = (let line' := Smaps.fgets_store l (line st) in
     if starts_with (lit "Pss:") (cut_nul l) then
       n <- atoi_of (number_after 4 l) ;;
       pss' <- add_jlong (pss st) n ;;
       Some (mk_state line' pss' (uss st))
     else if starts_with (lit "P") (cut_nul l) then
       n <- atoi_of (number_after 14 l) ;;
       uss' <- add_jlong (uss st) n ;;
       Some (mk_state line' (pss st) uss')
     else Some (mk_state line' (pss st) (uss st))).
Proof.
  intros Hlen. unfold read_line. cbv zeta.
  pose proof (@atoi_after_column 4 l
                (skipn (S (List.length l)) (line st))) as H4.
  pose proof (@atoi_after_column 14 l
                (skipn (S (List.length l)) (line st))) as H14.
  unfold begins_with_P_not_Pss in Hlen.
  unfold Smaps.fgets_store in *.
  destruct (stored_line l (skipn (S (List.length l)) (line st)))
    as [z [tail [Hstored Hz]]].
  pose proof (cut_nul_no_nul l) as Hnn.
  assert (Hstr : str_at (l ++ NUL :: skipn (S (List.length l)) (line st)) 0
                 = Some (cut_nul l)).
  { unfold str_at. rewrite skipn_O, Hstored.
    apply until_nul_string; assumption. }
  rewrite Hstr. cbn [bind].
  assert (Hchar : char_at (l ++ NUL :: skipn (S (List.length l)) (line st)) 0
                  = Some (match cut_nul l with [] => z | c :: _ => c end)).
  { rewrite Hstored. destruct (cut_nul l); reflexivity. }
  rewrite Hchar. cbn [bind].
  assert (HP : starts_with (lit "P") (cut_nul l)
               = (code (match cut_nul l with [] => z | c :: _ => c end)
                  =? 80)).
  { destruct (cut_nul l) as [|c s'].
    - unfold is_nul in Hz. apply Z.eqb_eq in Hz. rewrite Hz. reflexivity.
    - unfold lit. cbn [list_ascii_of_string starts_with].
      rewrite andb_true_r. apply Z.eqb_sym. }
  rewrite <- HP.
  assert (N4 : no_nul (lit "Pss:")) by (repeat constructor).
  pose proof (strncmp_literal N4 (cut_nul l)) as E4.
  change (List.length (lit "Pss:")) with 4%nat in E4. rewrite E4.
  destruct (starts_with (lit "Pss:") (cut_nul l)) eqn:HPss.
  - assert (HP1 : starts_with (lit "P") (cut_nul l) = true).
    { destruct (cut_nul l) as [|c s']; [discriminate HPss|].
      unfold lit in *. cbn [list_ascii_of_string starts_with] in *.
      apply andb_true_iff in HPss. destruct HPss as [-> _]. reflexivity. }
    rewrite HP1.
    apply starts_with_length in HPss.
    change (List.length (lit "Pss:")) with 4%nat in HPss.
    cbv iota. clear H14. specialize (H4 HPss). unfold bind in H4 |- *.
    rewrite <- H4. destruct (skip_to_digit _) as [c|]; reflexivity.
  - destruct (starts_with (lit "P") (cut_nul l)) eqn:HP1; [|reflexivity].
    rewrite private_test_true. cbv iota. clear H4.
    specialize (H14 (Hlen eq_refl)). unfold bind in H14 |- *.
    rewrite <- H14. destruct (skip_to_digit _) as [c|]; reflexivity.
Qed.

Lemma decimal_nonneg (l : list ascii) :
  forall acc, 0 <= acc -> 0 <= fst (decimal acc l).
Proof.
  induction l as [|c l IH]; intros acc Hacc; cbn [decimal]; [exact Hacc|].
  destruct (isdigit c) eqn:E; [|exact Hacc].
  apply IH. unfold isdigit in E. apply andb_true_iff in E.
  destruct E as [E _]. apply Z.leb_le in E. lia.
Qed.

Lemma number_after_nonneg (col : nat) (l : list ascii) :
  0 <= value (number_after col l).
Proof.
  unfold number_after, first_number.
  destruct (from_first_digit _); cbn [value]; [lia|].
  apply decimal_nonneg. lia.
Qed.

Lemma line_totals_nonneg (l : list ascii) :
  0 <= line_pss l /\ 0 <= line_uss l.
Proof.
  unfold line_pss, line_uss. split.
  - destruct (starts_with _ _); [apply number_after_nonneg|lia].
  - destruct (begins_with_P_not_Pss l); [apply number_after_nonneg|lia].
Qed.

Lemma totals_nonneg (fp : Smaps.FILE) : 0 <= pss_total fp /\ 0 <= uss_total fp.
Proof.
  induction fp as [|l fp [IHp IHu]]; cbn; [lia|].
  fold (pss_total fp). fold (uss_total fp).
  destruct (line_totals_nonneg l). lia.
Qed.

Lemma atoi_of_value (o : option Z) :
  0 <= value o -> value o <= INT_MAX -> atoi_of o = Some (value o).
Proof.
  destruct o as [n|]; cbn [value atoi_of]; [|reflexivity].
  intros H0 H1. unfold in_int, INT_MIN, INT_MAX in *.
  destruct (Z.leb_spec (-2147483648) n); [|lia].
  destruct (Z.leb_spec n 2147483647); [reflexivity|lia].
Qed.

Lemma add_jlong_small (a b : Z) :
  0 <= a -> 0 <= b -> a + b <= LLONG_MAX -> add_jlong a b = Some (a + b).
Proof.
  intros Ha Hb Hab. unfold add_jlong, in_jlong, LLONG_MIN, LLONG_MAX in *.
  destruct (Z.leb_spec (-9223372036854775808) (a + b)); [|lia].
  destruct (Z.leb_spec (a + b) 9223372036854775807); [reflexivity|lia].
Qed.

Lemma read_line_regular (st : state) (l : list ascii) :
  regular l ->
  0 <= pss st -> 0 <= uss st ->
  pss st + line_pss l <= LLONG_MAX ->
  uss st + line_uss l <= LLONG_MAX ->
  read_line st l
  = Some (mk_state (Smaps.fgets_store l (line st))
                   (pss st + line_pss l) (uss st + line_uss l)).
Proof.
  intros [Hlen [Hp Hu]] Hp0 Hu0 Hpm Hum.
  rewrite (read_line_on st l Hlen). cbv zeta.
  unfold line_pss, line_uss, begins_with_P_not_Pss in *.
  destruct (starts_with (lit "Pss:") (cut_nul l)) eqn:HPss.
  - rewrite andb_false_r in *.
    rewrite atoi_of_value by (try apply number_after_nonneg; assumption).
    cbn [bind].
    rewrite add_jlong_small by (try apply number_after_nonneg; assumption).
    cbn [bind]. rewrite Z.add_0_r. reflexivity.
  - rewrite andb_true_r in *.
    destruct (starts_with (lit "P") (cut_nul l)).
    + rewrite atoi_of_value by (try apply number_after_nonneg; assumption).
      cbn [bind].
      rewrite add_jlong_small by (try apply number_after_nonneg; assumption).
      cbn [bind]. rewrite Z.add_0_r. reflexivity.
    + rewrite !Z.add_0_r. reflexivity.
Qed.

Lemma read_lines_regular (fp : Smaps.FILE) :
  forall st,
    Forall regular fp ->
    0 <= pss st -> 0 <= uss st ->
    pss st + pss_total fp <= LLONG_MAX ->
    uss st + uss_total fp <= LLONG_MAX ->
    exists line',
      read_lines st fp
      = Some (mk_state line' (pss st + pss_total fp) (uss st + uss_total fp)).
Proof.
  induction fp as [|l fp IH]; intros st Hreg Hp0 Hu0 Hpm Hum.
  - exists (line st). cbn. rewrite !Z.add_0_r. destruct st; reflexivity.
  - inversion Hreg as [|? ? Hl Hfp]; subst.
    cbn [pss_total uss_total fold_right] in Hpm, Hum |- *.
    fold (pss_total fp) in *. fold (uss_total fp) in *.
    destruct (line_totals_nonneg l) as [Hlp Hlu].
    destruct (totals_nonneg fp) as [Htp Htu].
    cbn [read_lines].
    rewrite (@read_line_regular st l Hl) by lia. cbn [bind].
    destruct (IH (mk_state (Smaps.fgets_store l (line st))
                           (pss st + line_pss l) (uss st + line_uss l)) Hfp)
      as [line' Hrun]; cbn [pss uss]; try lia.
    exists line'. rewrite Hrun. cbn [pss uss]. do 2 f_equal; lia.
Qed.

(** X17: a line that begins with [Pss:] adds the first number found after
    its column 4 to the pss total, whatever its length, and leaves the
    private usage; a line that does not begin with [P] changes neither
    total. *)
Theorem pss_line_accumulates (st : state) (l : list ascii) :
  (starts_with (lit "Pss:") (cut_nul l) = true ->
   read_line st l
   = (n <- atoi_of (number_after 4 l) ;;
      pss' <- add_jlong (pss st) n ;;
      Some (mk_state (Smaps.fgets_store l (line st)) pss' (uss st))))
  /\ (starts_with (lit "P") (cut_nul l) = false ->
      read_line st l
      = Some (mk_state (Smaps.fgets_store l (line st)) (pss st) (uss st))).
Proof.
  split; intros Hl.
  - rewrite read_line_on.
    + cbv zeta. rewrite Hl. reflexivity.
    + unfold begins_with_P_not_Pss. rewrite Hl, andb_false_r. discriminate.
  - rewrite read_line_on.
    + cbv zeta. rewrite Hl.
      destruct (starts_with (lit "Pss:") (cut_nul l)) eqn:HPss;
        [|reflexivity].
      destruct (cut_nul l) as [|c s']; [discriminate HPss|].
      unfold lit in *. cbn [list_ascii_of_string starts_with] in *.
      apply andb_true_iff in HPss. destruct HPss as [Hc _].
      rewrite Hc in Hl. discriminate Hl.
    + unfold begins_with_P_not_Pss. rewrite Hl. discriminate.
Qed.

(** X18: on a file whose lines are all regular, and whose totals fit a
    [jlong], [getPssPid] is defined and returns the sum of the numbers of
    the [Pss:] lines, and stores in [outUss] the sum of the numbers after
    column 14 of the other lines that begin with [P]. *)
Theorem getPssPid_totals (fp : Smaps.FILE) :
  Forall regular fp ->
  pss_total fp <= LLONG_MAX ->
  uss_total fp <= LLONG_MAX ->
  getPssPid (Some fp) = Some (pss_total fp, Some (uss_total fp))
  /\ uss_total fp = uss_as_claimed fp
  /\ 0 <= pss_total fp /\ 0 <= uss_total fp.
Proof.
  intros Hreg Hp Hu. split; [|split; [reflexivity|apply totals_nonneg]].
  unfold getPssPid.
  destruct (@read_lines_regular fp (mk_state [] 0 0) Hreg)
    as [line' Hrun]; cbn [pss uss]; try lia.
  rewrite Hrun. reflexivity.
Qed.

Lemma getPssPid_totals_witness :
  getPssPid (Some (Smaps.fopen Samples.libfoo_then_heap))
  = Some (103, Some 30).
Proof.
  assert (Hreg : Forall regular (Smaps.fopen Samples.libfoo_then_heap)).
  { repeat (constructor;
            [split; [vm_compute; first [discriminate|intros _; lia]
                    |split; vm_compute; discriminate]|]).
    constructor. }
  destruct (@getPssPid_totals _ Hreg) as [Hrun _];
    try (vm_compute; discriminate).
  exact Hrun.
Defined.

Lemma pss_line_accumulates_witness :
  read_line (mk_state [] 5 7) (lit ("Pss:  12 kB" ++ Samples.nl))
  = Some (mk_state
            (Smaps.fgets_store (lit ("Pss:  12 kB" ++ Samples.nl)) [])
            17 7).
Proof.
  destruct (pss_line_accumulates (mk_state [] 5 7)
              (lit ("Pss:  12 kB" ++ Samples.nl))) as [Hpss _].
  rewrite (Hpss eq_refl). reflexivity.
Defined.

End PssTotalsFacts.


(** ** The binder statistic of a process *)

Module BinderFacts.
Import CStr Int Libc Binder Spec BinderNotions PssPidFacts.

Lemma strncmp_text (b : list ascii) :
  no_nul b ->
  forall a, (strncmp b a (List.length b) =? 0) = starts_with b a.
Proof.
  induction 1 as [|cb b Hcb _ IH]; intros a; [reflexivity|].
  cbn [List.length strncmp starts_with].
  destruct a as [|ca a].
  - now rewrite Hcb.
  - destruct (Z.ltb_spec (code cb) (code ca)) as [Hlt|Hge].
    + destruct (Z.eqb_spec (code cb) (code ca)); [lia|reflexivity].
    + destruct (Z.ltb_spec (code ca) (code cb)) as [Hgt|Hle].
      * destruct (Z.eqb_spec (code cb) (code ca)); [lia|reflexivity].
      * destruct (Z.eqb_spec (code cb) (code ca)); [apply IH|lia].
Qed.

Lemma code_ascii_of_N (k : Z) :
  0 <= k < 256 -> code (ascii_of_N (Z.to_N k)) = k.
Proof.
  intros Hk. unfold code. rewrite N_ascii_embedding by lia.
  apply Z2N.id. lia.
Qed.

Lemma digits_shape (fuel : nat) :
  forall n acc,
    no_nul acc ->
    no_nul (digits fuel n acc)
    /\ (List.length (digits fuel n acc) <= fuel + List.length acc)%nat.
Proof.
  induction fuel as [|fuel IH]; intros n acc Hacc; cbn [digits].
  - split; [exact Hacc|lia].
  - assert (Hd : no_nul (ascii_of_N (Z.to_N (48 + n mod 10)) :: acc)).
    { constructor; [|exact Hacc]. unfold is_nul.
      pose proof (Z.mod_pos_bound n 10 ltac:(lia)) as Hm.
      rewrite code_ascii_of_N by lia. apply Z.eqb_neq. lia. }
    destruct (n <? 10).
    + split; [exact Hd|cbn [List.length]; lia].
    + destruct (IH (n / 10) _ Hd) as [Hnn Hlen].
      split; [exact Hnn|cbn [List.length] in Hlen; lia].
Qed.

Lemma proc_text_shape (pid : Z) :
  no_nul (proc_text pid) /\ (List.length (proc_text pid) <= 127)%nat.
Proof.
  unfold proc_text, format_d.
  assert (Hnil : no_nul []) by constructor.
  destruct (pid <? 0).
  - destruct (digits_shape 10 (- pid) Hnil) as [Hnn Hlen].
    split.
    + apply Forall_app. split; [repeat constructor|].
      constructor; [reflexivity|exact Hnn].
    + rewrite length_app. cbn [List.length] in *.
      change (List.length (lit "proc ")) with 5%nat. lia.
  - destruct (digits_shape 10 pid Hnil) as [Hnn Hlen].
    split.
    + apply Forall_app. split; [repeat constructor|exact Hnn].
    + rewrite length_app. cbn [List.length] in *.
      change (List.length (lit "proc ")) with 5%nat. lia.
Qed.

Lemma stat_text_shape (stat : list ascii) :
  no_nul stat -> (List.length stat + 4 <= 127)%nat ->
  no_nul (stat_text stat) /\ (List.length (stat_text stat) <= 127)%nat.
Proof.
  intros Hnn Hlen. unfold stat_text. split.
  - apply Forall_app. split; [repeat constructor|].
    apply Forall_app. split; [exact Hnn|repeat constructor].
  - rewrite !length_app.
    change (List.length (lit "  ")) with 2%nat.
    change (List.length (lit ": ")) with 2%nat. lia.
Qed.

Lemma snprintf_128_fits (s : list ascii) :
  (List.length s <= 127)%nat -> snprintf_128 s = (s, List.length s).
Proof.
  intros Hs. unfold snprintf_128. now rewrite firstn_all2 by exact Hs.
Qed.

(** The buffer after [fgets] stored [l]: the string at its start, and the
    string after [k] characters of it. *)
Lemma stored_string (l buf : list ascii) (k : nat) :
  (k <= List.length (cut_nul l))%nat ->
  str_at (Smaps.fgets_store l buf) k = Some (skipn k (cut_nul l)).
Proof.
  intros Hk. unfold str_at, Smaps.fgets_store.
  destruct (stored_line l (skipn (S (List.length l)) buf))
    as [z [tail [-> Hz]]].
  rewrite skipn_app.
  replace (k - List.length (cut_nul l))%nat with O by lia.
  rewrite skipn_O.
  apply until_nul_string; [apply no_nul_skipn, cut_nul_no_nul|exact Hz].
Qed.

Lemma skip_until_step (p line l : list ascii) (fp : Smaps.FILE) :
  no_nul p ->
  skip_until p (List.length p) line (l :: fp)
  = if begins p l then Some (Some (Smaps.fgets_store l line, fp))
    else skip_until p (List.length p) (Smaps.fgets_store l line) fp.
Proof.
  intros Hp. cbn [skip_until].
  rewrite (@stored_string l line 0) by lia. rewrite skipn_O. cbn [bind].
  rewrite (strncmp_text Hp). reflexivity.
Qed.

Lemma skip_until_finds (p l : list ascii) (pre post : Smaps.FILE) :
  no_nul p ->
  none_begins p pre ->
  begins p l = true ->
  forall line,
    exists buf,
      skip_until p (List.length p) line (pre ++ l :: post)
      = Some (Some (Smaps.fgets_store l buf, post)).
Proof.
  intros Hp Hpre Hl. induction Hpre as [|l0 pre Hl0 _ IH]; intros line.
  - cbn [app]. rewrite skip_until_step by exact Hp. rewrite Hl.
    exists line. reflexivity.
  - cbn [app]. rewrite skip_until_step by exact Hp. rewrite Hl0.
    apply IH.
Qed.

Lemma skip_until_misses (p : list ascii) (fp : Smaps.FILE) :
  no_nul p ->
  none_begins p fp ->
  forall line, skip_until p (List.length p) line fp = Some None.
Proof.
  intros Hp Hfp. induction Hfp as [|l0 fp Hl0 _ IH]; intros line.
  - reflexivity.
  - rewrite skip_until_step by exact Hp. rewrite Hl0. apply IH.
Qed.

Lemma read_binder_stat_unfold (fp : Smaps.FILE) (pid : Z)
    (stat : list ascii) :
  no_nul stat -> (List.length stat + 4 <= 127)%nat ->
  read_binder_stat (Some fp) pid stat
  = (r <- skip_until (proc_text pid) (List.length (proc_text pid)) [] fp ;;
     match r with
     | None => Some (-1)
     | Some (line1, fp1) =>
         r' <- skip_until (stat_text stat) (List.length (stat_text stat))
                 line1 fp1 ;;
         match r' with
         | None => Some (-1)
         | Some (line2, _) =>
             s <- str_at line2 (List.length (stat_text stat)) ;; atoi s
         end
     end).
Proof.
  intros Hnn Hlen. unfold read_binder_stat.
  fold (proc_text pid). fold (stat_text stat).
  rewrite (snprintf_128_fits _ (proj2 (proc_text_shape pid))).
  rewrite (snprintf_128_fits _ (proj2 (stat_text_shape Hnn Hlen))).
  reflexivity.
Qed.

Lemma begins_length (p l : list ascii) :
  begins p l = true -> (List.length p <= List.length (cut_nul l))%nat.
Proof.
  unfold begins. revert l. generalize dependent p.
  intros p l. generalize (cut_nul l) as a. clear l.
  induction p as [|cb p IH]; intros a; [cbn; lia|].
  destruct a as [|ca a]; [discriminate|]. cbn [starts_with List.length].
  intros Hs. apply andb_true_iff in Hs. destruct Hs as [_ Hs].
  apply IH in Hs. lia.
Qed.

(** X19: the statistic is read from the first line that begins with
    [  <stat>: ] after the first line that begins with [proc <pid>]: the
    value returned is [atoi] of what follows that text on that line,
    whatever the lines before held and whatever was left in the buffer. *)
Theorem binder_stat_found (pid : Z) (stat : list ascii)
    (pre mid post : Smaps.FILE) (p l : list ascii) :
  no_nul stat -> (List.length stat + 4 <= 127)%nat ->
  none_begins (proc_text pid) pre ->
  begins (proc_text pid) p = true ->
  none_begins (stat_text stat) mid ->
  begins (stat_text stat) l = true ->
  read_binder_stat (Some (pre ++ p :: mid ++ l :: post)) pid stat
  = atoi (after_text (stat_text stat) l).
Proof.
  intros Hnn Hlen Hpre Hp Hmid Hl.
  rewrite read_binder_stat_unfold by assumption.
  destruct (proc_text_shape pid) as [Hpn _].
  destruct (stat_text_shape Hnn Hlen) as [Hsn _].
  destruct (@skip_until_finds _ p pre (mid ++ l :: post) Hpn Hpre Hp [])
    as [buf1 ->].
  cbn [bind].
  destruct (@skip_until_finds _ l mid post Hsn Hmid Hl
              (Smaps.fgets_store p buf1)) as [buf2 ->].
  cbn [bind].
  rewrite stored_string by (apply begins_length, Hl).
  reflexivity.
Qed.

Lemma binder_stat_found_witness :
  getBinderSentTransactions
    (Some (Smaps.fopen ("binder stats:" ++ Samples.nl ++
                        "proc 77" ++ Samples.nl ++
                        "  threads: 4" ++ Samples.nl ++
                        "  bcTRANSACTION: 15" ++ Samples.nl ++
                        "  brTRANSACTION: 9" ++ Samples.nl)))
    77
  = Some 15.
Proof.
  unfold getBinderSentTransactions.
  change (Smaps.fopen ("binder stats:" ++ Samples.nl ++
                       "proc 77" ++ Samples.nl ++
                       "  threads: 4" ++ Samples.nl ++
                       "  bcTRANSACTION: 15" ++ Samples.nl ++
                       "  brTRANSACTION: 9" ++ Samples.nl))
    with ([lit ("binder stats:" ++ Samples.nl)]
          ++ lit ("proc 77" ++ Samples.nl)
          :: [lit ("  threads: 4" ++ Samples.nl)]
          ++ lit ("  bcTRANSACTION: 15" ++ Samples.nl)
          :: [lit ("  brTRANSACTION: 9" ++ Samples.nl)]).
  rewrite binder_stat_found;
    [reflexivity|repeat constructor|cbn; lia|repeat constructor|reflexivity
    |repeat constructor|reflexivity].
Defined.

(** X20: the value is -1 when the file cannot be opened, when no line
    begins with [proc <pid>], and when no line after the first of these
    begins with [  <stat>: ]. *)
Theorem binder_stat_missing (pid : Z) (stat : list ascii)
    (pre mid : Smaps.FILE) (p : list ascii) :
  no_nul stat -> (List.length stat + 4 <= 127)%nat ->
  none_begins (proc_text pid) pre ->
  begins (proc_text pid) p = true ->
  none_begins (stat_text stat) mid ->
  read_binder_stat None pid stat = Some (-1)
  /\ read_binder_stat (Some pre) pid stat = Some (-1)
  /\ read_binder_stat (Some (pre ++ p :: mid)) pid stat = Some (-1).
Proof.
  intros Hnn Hlen Hpre Hp Hmid.
  destruct (proc_text_shape pid) as [Hpn _].
  destruct (stat_text_shape Hnn Hlen) as [Hsn _].
  split; [reflexivity|]. split.
  - rewrite read_binder_stat_unfold by assumption.
    rewrite skip_until_misses by assumption. reflexivity.
  - rewrite read_binder_stat_unfold by assumption.
    destruct (@skip_until_finds _ p pre mid Hpn Hpre Hp []) as [buf1 ->].
    cbn [bind]. rewrite skip_until_misses by assumption. reflexivity.
Qed.

Lemma binder_stat_missing_witness :
  getBinderReceivedTransactions
    (Some (Smaps.fopen ("proc 78" ++ Samples.nl ++
                        "  brTRANSACTION: 9" ++ Samples.nl ++
                        "proc 77" ++ Samples.nl ++
                        "  bcTRANSACTION: 15" ++ Samples.nl)))
    77
  = Some (-1).
Proof.
  unfold getBinderReceivedTransactions.
  change (Smaps.fopen ("proc 78" ++ Samples.nl ++
                       "  brTRANSACTION: 9" ++ Samples.nl ++
                       "proc 77" ++ Samples.nl ++
                       "  bcTRANSACTION: 15" ++ Samples.nl))
    with ([lit ("proc 78" ++ Samples.nl);
           lit ("  brTRANSACTION: 9" ++ Samples.nl)]
          ++ lit ("proc 77" ++ Samples.nl)
          :: [lit ("  bcTRANSACTION: 15" ++ Samples.nl)]).
  apply binder_stat_missing;
    [repeat constructor|cbn; lia|repeat constructor|reflexivity
    |repeat constructor].
Defined.

Lemma starts_with_app_text (p s : list ascii) :
  starts_with p (p ++ s) = true.
Proof.
  induction p as [|c p IH]; [reflexivity|].
  cbn. now rewrite Z.eqb_refl, IH.
Qed.

Lemma cut_nul_app (p s : list ascii) :
  no_nul p -> cut_nul (p ++ s) = p ++ cut_nul s.
Proof.
  induction 1 as [|c p Hc _ IH]; [reflexivity|].
  cbn [app cut_nul]. now rewrite Hc, IH.
Qed.

(** X21: the block of the process is found by its beginning only.  A
    line [proc <pid>] followed by anything, a further digit for one, is
    taken for the line of the process: the statistic returned is then the
    one of the first such block of the file, be it the block of a process
    whose number only begins with the digits of [pid]. *)
Theorem longer_pid_is_taken (pid : Z) (stat more l : list ascii)
    (mid post : Smaps.FILE) :
  no_nul stat -> (List.length stat + 4 <= 127)%nat ->
  none_begins (stat_text stat) mid ->
  begins (stat_text stat) l = true ->
  read_binder_stat (Some ((proc_text pid ++ more) :: mid ++ l :: post))
    pid stat
  = atoi (after_text (stat_text stat) l).
Proof.
  intros Hnn Hlen Hmid Hl.
  rewrite read_binder_stat_unfold by assumption.
  destruct (proc_text_shape pid) as [Hpn _].
  destruct (stat_text_shape Hnn Hlen) as [Hsn _].
  rewrite skip_until_step by exact Hpn.
  assert (Hb : begins (proc_text pid) (proc_text pid ++ more) = true).
  { unfold begins. rewrite cut_nul_app by exact Hpn.
    apply starts_with_app_text. }
  rewrite Hb. cbn [bind].
  destruct (@skip_until_finds _ l mid post Hsn Hmid Hl
              (Smaps.fgets_store (proc_text pid ++ more) []))
    as [buf2 ->].
  cbn [bind].
  rewrite stored_string by (apply begins_length, Hl).
  reflexivity.
Qed.

Lemma longer_pid_is_taken_witness :
  getBinderSentTransactions
    (Some (Smaps.fopen ("proc 123" ++ Samples.nl ++
                        "  bcTRANSACTION: 7" ++ Samples.nl ++
                        "proc 12" ++ Samples.nl ++
                        "  bcTRANSACTION: 5" ++ Samples.nl)))
    12
  = Some 7.
Proof.
  unfold getBinderSentTransactions.
  change (Smaps.fopen ("proc 123" ++ Samples.nl ++
                       "  bcTRANSACTION: 7" ++ Samples.nl ++
                       "proc 12" ++ Samples.nl ++
                       "  bcTRANSACTION: 5" ++ Samples.nl))
    with ((proc_text 12 ++ lit ("3" ++ Samples.nl))
          :: [] ++ lit ("  bcTRANSACTION: 7" ++ Samples.nl)
          :: [lit ("proc 12" ++ Samples.nl);
              lit ("  bcTRANSACTION: 5" ++ Samples.nl)]).
  rewrite longer_pid_is_taken;
    [reflexivity|repeat constructor|cbn; lia|constructor|reflexivity].
Defined.

End BinderFacts.


(** ** The header line of a block *)

Module HeaderFacts.
Import CStr Int Libc Smaps Spec HeaderNotions PssPidFacts.

Lemma hex_char (c : ascii) :
  is_hex c = true ->
  isspace c = false /\ is_nul c = false
  /\ (code c =? 45) = false /\ (code c =? 43) = false
  /\ (code c =? 120) = false /\ (code c =? 88) = false.
Proof.
  unfold is_hex, hexval, isspace, is_nul.
  destruct (Z.leb_spec 48 (code c)), (Z.leb_spec (code c) 57),
           (Z.leb_spec 97 (code c)), (Z.leb_spec (code c) 102),
           (Z.leb_spec 65 (code c)), (Z.leb_spec (code c) 70);
    cbn [andb]; try discriminate; intros _;
    repeat split;
    repeat match goal with
      | |- context [?a =? ?b] => destruct (Z.eqb_spec a b); try lia
      | |- context [?a <=? ?b] => destruct (Z.leb_spec a b); try lia
      end; reflexivity.
Qed.

Lemma digit_is_hex (c : ascii) : isdigit c = true -> is_hex c = true.
Proof.
  unfold isdigit, is_hex, hexval. intros ->. reflexivity.
Qed.

Lemma hexadecimal_field (d r : list ascii) :
  forallb is_hex d = true -> stops is_hex r ->
  forall acc, hexadecimal acc (d ++ r) = (fst (hexadecimal acc d), r).
Proof.
  intros Hd Hr. induction d as [|c d IH]; intros acc.
  - cbn [app]. destruct r as [|c r]; [reflexivity|].
    cbn [hexadecimal]. cbn in Hr. unfold is_hex in Hr.
    destruct (hexval c); [discriminate|reflexivity].
  - cbn [forallb] in Hd. apply andb_true_iff in Hd. destruct Hd as [Hc Hd].
    cbn [app hexadecimal]. unfold is_hex in Hc.
    destruct (hexval c) as [v|]; [|discriminate]. apply IH, Hd.
Qed.

Lemma decimal_field (d r : list ascii) :
  forallb isdigit d = true -> stops isdigit r ->
  forall acc, decimal acc (d ++ r) = (fst (decimal acc d), r).
Proof.
  intros Hd Hr. induction d as [|c d IH]; intros acc.
  - cbn [app]. destruct r as [|c r]; [reflexivity|].
    cbn [decimal]. cbn in Hr. rewrite Hr. reflexivity.
  - cbn [forallb] in Hd. apply andb_true_iff in Hd. destruct Hd as [Hc Hd].
    cbn [app decimal]. rewrite Hc. apply IH, Hd.
Qed.

Lemma scan_x_field (d r : list ascii) :
  hex_field d -> separates r ->
  scan_x (d ++ r) = Conv (false, hex_value d) r.
Proof.
  intros [Hne Hd] Hr. destruct d as [|c d]; [contradiction|].
  pose proof Hd as Hd'. cbn [forallb] in Hd'.
  apply andb_true_iff in Hd'. destruct Hd' as [Hc Hrest].
  destruct (@hex_char c Hc) as [Hsp [_ [Hm [Hp _]]]].
  assert (Hstop : stops is_hex r).
  { destruct r as [|x r]; [exact I|]. apply Hr. }
  assert (Hdigits :
    match (c :: d) ++ r with
    | c0 :: _ =>
        match hexval c0 with
        | Some _ => let (v, rest) := hexadecimal 0 ((c :: d) ++ r) in
                    Conv (false, v) rest
        | None => NoConv
        end
    | [] => NoConv
    end = Conv (false, hex_value (c :: d)) r).
  { cbn [app]. unfold is_hex in Hc.
    destruct (hexval c) eqn:Ev; [|discriminate].
    change (c :: d ++ r) with ((c :: d) ++ r).
    rewrite (@hexadecimal_field (c :: d) r Hd Hstop). reflexivity. }
  unfold scan_x. cbn [app skip_ws]. rewrite Hsp.
  cbn [take_sign]. rewrite Hm, Hp.
  assert (Hx : match d ++ r with
               | x :: _ => (code x =? 120) || (code x =? 88) = false
               | [] => True
               end).
  { destruct d as [|x d]; cbn [app].
    - destruct r as [|x r]; [exact I|].
      destruct Hr as [_ [-> ->]]. reflexivity.
    - cbn [forallb] in Hrest. apply andb_true_iff in Hrest.
      destruct Hrest as [Hxh _].
      destruct (@hex_char x Hxh) as [_ [_ [_ [_ [-> ->]]]]]. reflexivity. }
  cbn [app] in Hdigits.
  destruct (d ++ r) as [|x t] eqn:Edr.
  - exact Hdigits.
  - rewrite Hx, andb_false_r. exact Hdigits.
Qed.

Lemma skip_ws_blank (b r : list ascii) :
  blank b -> stops isspace r -> skip_ws (b ++ r) = r.
Proof.
  intros Hb Hr. induction b as [|c b IH]; cbn [app].
  - destruct r as [|c r]; [reflexivity|]. cbn in Hr |- *. now rewrite Hr.
  - cbn [blank forallb] in Hb. apply andb_true_iff in Hb.
    destruct Hb as [Hc Hb]. cbn [skip_ws]. rewrite Hc. apply IH, Hb.
Qed.

Lemma hex_field_stops (d r : list ascii) :
  hex_field d -> stops isspace (d ++ r).
Proof.
  intros [Hne Hd]. destruct d as [|c d]; [contradiction|].
  cbn [forallb] in Hd. apply andb_true_iff in Hd. destruct Hd as [Hc _].
  cbn. apply (@hex_char c Hc).
Qed.

Lemma scan_x_after_space (d r : list ascii) :
  hex_field d -> separates r ->
  scan_x (lit " " ++ d ++ r) = Conv (false, hex_value d) r.
Proof.
  intros Hd Hr. rewrite <- (@scan_x_field d r Hd Hr).
  unfold scan_x.
  rewrite (@skip_ws_blank (lit " ") (d ++ r) eq_refl (@hex_field_stops d r Hd)).
  pose proof (@skip_ws_blank [] (d ++ r) eq_refl (@hex_field_stops d r Hd))
    as Hnone.
  cbn [app] in Hnone. rewrite Hnone. reflexivity.
Qed.

Lemma skip_nonws_word (w r : list ascii) :
  forallb (fun c => negb (isspace c) && negb (is_nul c)) w = true ->
  skip_nonws (w ++ lit " " ++ r) = lit " " ++ r.
Proof.
  intros Hw. induction w as [|c w IH]; [reflexivity|].
  cbn [forallb] in Hw. apply andb_true_iff in Hw. destruct Hw as [Hc Hw].
  apply andb_true_iff in Hc. destruct Hc as [Hc _].
  apply negb_true_iff in Hc. cbn [app skip_nonws]. rewrite Hc.
  apply IH, Hw.
Qed.

Lemma scan_s_word (w r : list ascii) :
  word w ->
  scan_s (lit " " ++ w ++ lit " " ++ r) = Conv tt (lit " " ++ r).
Proof.
  intros [Hne Hw]. destruct w as [|c w]; [contradiction|].
  pose proof Hw as Hw'. cbn [forallb] in Hw'.
  apply andb_true_iff in Hw'. destruct Hw' as [Hc Hrest].
  apply andb_true_iff in Hc. destruct Hc as [Hc _].
  apply negb_true_iff in Hc.
  unfold scan_s. cbn [lit list_ascii_of_string app skip_ws].
  change (isspace " "%char) with true. cbv iota. rewrite Hc.
  f_equal. apply (@skip_nonws_word w r Hrest).
Qed.

Lemma scan_d_field (d r : list ascii) :
  dec_field d -> stops isdigit r ->
  scan_d (lit " " ++ d ++ r) = Conv (fst (decimal 0 d)) r.
Proof.
  intros [Hne Hd] Hr. destruct d as [|c d]; [contradiction|].
  pose proof Hd as Hd'. cbn [forallb] in Hd'.
  apply andb_true_iff in Hd'. destruct Hd' as [Hc _].
  destruct (@hex_char c (@digit_is_hex c Hc)) as [Hsp [_ [Hm [Hp _]]]].
  unfold scan_d. cbn [lit list_ascii_of_string app skip_ws].
  change (isspace " "%char) with true. cbv iota. rewrite Hsp.
  cbn [take_sign]. rewrite Hm, Hp, Hc.
  change (c :: d ++ r) with ((c :: d) ++ r).
  rewrite (@decimal_field (c :: d) r Hd Hr). reflexivity.
Qed.

(** What [sscanf] does with a header line of the kernel's form. *)
Lemma sscanf_header_fields (m : mapping) (rest : list ascii) :
  well_formed m -> stops isdigit rest ->
  sscanf_header (fields m ++ rest)
  = Some (Hdr2 (hex_value (m_start m)) (hex_value (m_end m))
               (Some (List.length (fields m)))).
Proof.
  intros [Hs [He [Hp [Ho [Hma [Hmi [Hi [Hsv Hev]]]]]]]] Hrest.
  unfold sscanf_header, fields. rewrite <- !app_assoc.
  unfold scan_lx.
  rewrite (@scan_x_field (m_start m) _ Hs)
    by (cbn; repeat split; reflexivity).
  apply Z.leb_le in Hsv. rewrite Hsv. cbn [bind].
  cbn [lit list_ascii_of_string app scan_char].
  change (code "-"%char =? 45) with true. cbv iota.
  rewrite (@scan_x_field (m_end m) _ He)
    by (cbn; repeat split; reflexivity).
  apply Z.leb_le in Hev. rewrite Hev. cbn [bind].
  unfold scan_header_tail.
  change (" "%char :: m_perms m ++ " "%char :: m_offset m ++ " "%char ::
          m_major m ++ ":"%char :: m_minor m ++ " "%char :: m_inode m ++ rest)
    with (lit " " ++ m_perms m ++ lit " " ++ m_offset m ++ " "%char ::
          m_major m ++ ":"%char :: m_minor m ++ " "%char :: m_inode m ++ rest).
  rewrite (@scan_s_word (m_perms m) _ Hp).
  rewrite (@scan_x_after_space (m_offset m) _ Ho)
    by (cbn; repeat split; reflexivity).
  change (" "%char :: m_major m ++ ":"%char :: m_minor m ++ " "%char ::
          m_inode m ++ rest)
    with (lit " " ++ m_major m ++ ":"%char :: m_minor m ++ " "%char ::
          m_inode m ++ rest).
  rewrite (@scan_x_after_space (m_major m) _ Hma)
    by (cbn; repeat split; reflexivity).
  cbn [scan_char]. change (code ":"%char =? 58) with true. cbv iota.
  rewrite (@scan_x_field (m_minor m) _ Hmi)
    by (cbn; repeat split; reflexivity).
  change (" "%char :: m_inode m ++ rest) with (lit " " ++ m_inode m ++ rest).
  rewrite (@scan_d_field (m_inode m) rest Hi Hrest).
  do 3 f_equal.
  repeat first [rewrite length_app
               |progress cbn [lit list_ascii_of_string List.length app]].
  lia.
Qed.

Lemma forallb_no_nul (p : ascii -> bool) (l : list ascii) :
  (forall c, p c = true -> is_nul c = false) ->
  forallb p l = true -> no_nul l.
Proof.
  intros Hp Hl. induction l as [|c l IH]; [constructor|].
  cbn [forallb] in Hl. apply andb_true_iff in Hl. destruct Hl as [Hc Hl].
  constructor; [apply Hp, Hc|apply IH, Hl].
Qed.

Lemma space_not_nul (c : ascii) : isspace c = true -> is_nul c = false.
Proof.
  unfold isspace, is_nul. intros H. apply Z.eqb_neq. intros Hz.
  rewrite Hz in H. discriminate H.
Qed.

Lemma hex_field_no_nul (d : list ascii) : hex_field d -> no_nul d.
Proof.
  intros [_ Hd]. apply (forallb_no_nul is_hex); [|exact Hd].
  intros c Hc. apply (@hex_char c Hc).
Qed.

Lemma fields_no_nul (m : mapping) : well_formed m -> no_nul (fields m).
Proof.
  intros [Hs [He [Hp [Ho [Hma [Hmi [Hi _]]]]]]]. unfold fields.
  repeat (apply Forall_app; split);
    try (apply hex_field_no_nul; assumption);
    try (repeat constructor).
  - destruct Hp as [_ Hp].
    apply (forallb_no_nul
             (fun c => negb (isspace c) && negb (is_nul c))); [|exact Hp].
    intros c Hc. apply andb_true_iff in Hc. destruct Hc as [_ Hc].
    now apply negb_true_iff in Hc.
  - destruct Hi as [_ Hi]. apply (forallb_no_nul isdigit); [|exact Hi].
    intros c Hc. apply (@hex_char c (@digit_is_hex c Hc)).
Qed.

Lemma store_nul_at (body : list ascii) (c : ascii) (t : list ascii) :
  store_nul (body ++ c :: t) (List.length body) = body ++ NUL :: t.
Proof.
  induction body as [|x body IH]; [reflexivity|].
  cbn [app List.length store_nul]. now rewrite IH.
Qed.

Lemma skip_space_from_gap (gap x : list ascii) (p : nat) :
  blank gap -> x <> [] -> stops isspace x ->
  skip_space_from (gap ++ x) p = Some (p + List.length gap)%nat.
Proof.
  intros Hg Hne Hx. revert p. induction gap as [|c gap IH]; intros p.
  - cbn [app List.length]. destruct x as [|c x]; [contradiction|].
    cbn in Hx |- *. rewrite Hx. f_equal. lia.
  - cbn [blank forallb] in Hg. apply andb_true_iff in Hg.
    destruct Hg as [Hc Hg]. cbn [app skip_space_from List.length].
    rewrite Hc, (IH Hg). f_equal. lia.
Qed.

(** The header of a frame whose buffer holds a line of the kernel's
    form, with what the classification gives for its name. *)
Lemma read_header_fields (f : frame) (m : mapping)
    (gap name buf : list ascii) (last : ascii) :
  well_formed m -> gap_ok gap name -> name_ok name -> is_nul last = false ->
  line f = fgets_store (fields m ++ gap ++ name ++ [last]) buf ->
  read_header f
  = (let c := classify name (hex_value (m_start m)) (end_ f) (whichHeap f) in
     Some (Header (store_nul (line f)
                     (List.length (fields m ++ gap ++ name)))
                  (Some (List.length (fields m) + List.length gap)%nat)
                  (hex_value (m_end m)) false
                  (fst (fst c)) (snd (fst c)) (snd c))).
Proof.
  intros Hm [Hgap Hgn] [Hname Hfirst] Hlast Hline.
  pose proof (fields_no_nul Hm) as Hf.
  assert (Hg : no_nul gap)
    by (apply (forallb_no_nul isspace); [apply space_not_nul|exact Hgap]).
  set (body := fields m ++ gap ++ name).
  assert (Hbody : no_nul body).
  { unfold body. apply Forall_app. split; [exact Hf|].
    apply Forall_app. split; assumption. }
  set (tail := skipn (S (List.length (fields m ++ gap ++ name ++ [last])))
                     buf) in *.
  assert (Hbuf : line f = body ++ last :: NUL :: tail).
  { rewrite Hline. unfold fgets_store, body. fold tail.
    rewrite <- !app_assoc. reflexivity. }
  assert (Hl : no_nul (body ++ [last])).
  { apply Forall_app. split; [exact Hbody|]. constructor; [exact Hlast|].
    constructor. }
  unfold read_header.
  assert (Hs : str_at (line f) 0 = Some (body ++ [last])).
  { rewrite Hbuf. unfold str_at. rewrite skipn_O.
    change (body ++ last :: NUL :: tail)
      with (body ++ [last] ++ NUL :: tail).
    rewrite app_assoc. apply until_nul_string; [exact Hl|reflexivity]. }
  rewrite Hs. cbn [bind].
  assert (Hlen : (List.length (body ++ [last]) - 1)%nat = List.length body)
    by (rewrite length_app; cbn [List.length]; lia).
  rewrite Hlen.
  assert (Hone : (List.length (body ++ [last]) <? 1)%nat = false)
    by (apply Nat.ltb_ge; rewrite length_app; cbn [List.length]; lia).
  rewrite Hone.
  assert (Hline1 : store_nul (line f) (List.length body)
                   = body ++ NUL :: NUL :: tail)
    by (rewrite Hbuf; apply store_nul_at).
  rewrite Hline1.
  assert (Hhdr : str_at (body ++ NUL :: NUL :: tail) 0 = Some body).
  { unfold str_at. rewrite skipn_O.
    apply until_nul_string; [exact Hbody|reflexivity]. }
  rewrite Hhdr. cbn [bind].
  assert (Hrest : stops isdigit (gap ++ name)).
  { destruct gap as [|c gap].
    - rewrite (Hgn eq_refl). exact I.
    - cbn [blank forallb] in Hgap. apply andb_true_iff in Hgap.
      destruct Hgap as [Hc _]. cbn.
      destruct (isdigit c) eqn:Hd; [|reflexivity].
      destruct (@hex_char c (@digit_is_hex c Hd)) as [Hsp _]. congruence. }
  unfold body at 1.
  rewrite (@sscanf_header_fields m (gap ++ name) Hm Hrest). cbn [bind].
  assert (Hskip : skipn (List.length (fields m))
                        (body ++ NUL :: NUL :: tail)
                  = gap ++ (name ++ NUL :: NUL :: tail)).
  { unfold body. rewrite <- !app_assoc. rewrite skipn_app, skipn_all.
    rewrite Nat.sub_diag. reflexivity. }
  rewrite Hskip.
  rewrite skip_space_from_gap.
  - cbn [bind].
    assert (Hn : str_at (body ++ NUL :: NUL :: tail)
                   (List.length (fields m) + List.length gap)
                 = Some name).
    { unfold str_at, body.
      rewrite (app_assoc (fields m) gap name), <- app_assoc.
      rewrite <- length_app, skipn_app, skipn_all, Nat.sub_diag.
      cbn [skipn app]. apply until_nul_string; [exact Hname|reflexivity]. }
    rewrite Hn. cbn [bind]. cbv zeta.
    destruct (classify name (hex_value (m_start m)) (end_ f) (whichHeap f))
      as [[wh sh] sw].
    reflexivity.
  - exact Hgap.
  - destruct name; discriminate.
  - destruct name as [|c name]; [reflexivity|exact Hfirst].
Qed.


(** X22: a header line of the kernel's form is read as such.  When the
    buffer holds the two addresses, the permissions, the offset, the
    device and the inode, then blanks, a name and one last character, the
    block is not skipped: the last character is dropped, be it a newline
    or not, the end address is the one of the line, and the mapping is
    classified by the name as it stands after the blanks, with the start
    address of the line. *)
Theorem header_line_is_read (f : frame) (m : mapping)
    (gap name buf : list ascii) (last : ascii) :
  well_formed m -> gap_ok gap name -> name_ok name -> is_nul last = false ->
  line f = fgets_store (fields m ++ gap ++ name ++ [last]) buf ->
  read_header f
  = Some (let '(wh, sh, sw) :=
            classify name (hex_value (m_start m)) (end_ f) (whichHeap f) in
          Header (store_nul (line f) (List.length (fields m ++ gap ++ name)))
                 (Some (List.length (fields m) + List.length gap)%nat)
                 (hex_value (m_end m)) false wh sh sw).
Proof.
  intros Hm Hgap Hname Hlast Hline.
  rewrite (@read_header_fields f m gap name buf last
             Hm Hgap Hname Hlast Hline).
  cbv zeta.
  destruct (classify name (hex_value (m_start m)) (end_ f) (whichHeap f))
    as [[wh sh] sw].
  reflexivity.
Qed.

Lemma header_line_is_read_witness :
  read_header
    (mk_frame (fgets_store
                 (lit ("40000000-40001000 r-xp 00000000 b3:01 1234       "
                       ++ "/system/lib/libfoo.so" ++ Samples.nl)) [])
              None 0 HEAP_UNKNOWN Var.zero)
  = Some (Header
            (store_nul
               (fgets_store
                  (lit ("40000000-40001000 r-xp 00000000 b3:01 1234       "
                        ++ "/system/lib/libfoo.so" ++ Samples.nl)) [])
               70)
            (Some 49%nat) 1073745920 false HEAP_SO HEAP_UNKNOWN true).
Proof.
  apply (@header_line_is_read
           (mk_frame (fgets_store
                 (lit ("40000000-40001000 r-xp 00000000 b3:01 1234       "
                       ++ "/system/lib/libfoo.so" ++ Samples.nl)) [])
              None 0 HEAP_UNKNOWN Var.zero)
           (mk_mapping (lit "40000000") (lit "40001000") (lit "r-xp")
                       (lit "00000000") (lit "b3") (lit "01") (lit "1234"))
           (lit "       ") (lit "/system/lib/libfoo.so") []
           (ascii_of_N 10)).
  - repeat split; try discriminate; vm_compute; discriminate.
  - split; [reflexivity|discriminate].
  - split; [repeat constructor|reflexivity].
  - reflexivity.
  - reflexivity.
Defined.

End HeaderFacts.


(** ** The order of the entries of the report *)

Module ReportOrderFacts.
Import Int NativeHeap Spec ReportNotions ReportOrderNotions.

Lemma size_word_of_record (r : record) :
  0 <= size r <= UINT_MAX ->
  size_word (printed_flag r) (printed_size r) = size r.
Proof.
  intros Hr. unfold size_word, printed_flag, printed_size.
  pose proof (NativeHeapFacts.cleared_size_mod r) as Hc.
  unfold cleared_size in Hc. rewrite Hc.
  rewrite (NativeHeapFacts.land_flag Hr).
  change SIZE_FLAG_ZYGOTE_CHILD with 2147483648.
  unfold UINT_MAX in Hr.
  destruct (Z.ltb_spec (size r) 2147483648) as [Hlt|Hge]; cbn [Z.eqb].
  - rewrite Z.mod_small by lia. lia.
  - pose proof (Z.div_mod (size r) 2147483648 ltac:(lia)) as Hd.
    assert (Hq : size r / 2147483648 = 1)
      by (symmetry;
          apply (Z.div_unique (size r) 2147483648 1 (size r - 2147483648));
          lia).
    rewrite Hq in Hd. lia.
Qed.

Lemma entry_words_app (a b : list output) :
  entry_words (a ++ b) = entry_words a ++ entry_words b.
Proof. apply flat_map_app. Qed.

Lemma entry_words_backtrace (todo : nat) (bt : list Z) :
  forall idx, entry_words (dump_backtrace todo idx bt) = [].
Proof.
  induction todo as [|todo IH]; intros idx; cbn [dump_backtrace];
    [reflexivity|].
  destruct (slot bt idx =? 0); [reflexivity|].
  cbn [entry_words flat_map entry_word app]. apply IH.
Qed.

Lemma entry_words_record (backtraceSize : Z) (r : record) :
  entry_words (dump_record backtraceSize r)
  = [size_word (printed_flag r) (printed_size r)].
Proof.
  unfold dump_record.
  change (entry_words (?x :: ?l))
    with ((match entry_word x with Some w => [w] | None => [] end)
          ++ entry_words l).
  rewrite entry_words_app, entry_words_backtrace. reflexivity.
Qed.

Lemma entry_words_records (backtraceSize : Z) (l : list record) :
  Forall (fun r => 0 <= size r <= UINT_MAX) l ->
  entry_words (flat_map (dump_record backtraceSize) l) = map size l.
Proof.
  induction 1 as [|r l Hr _ IH]; [reflexivity|].
  cbn [flat_map map]. rewrite entry_words_app, entry_words_record, IH.
  rewrite (@size_word_of_record r Hr). reflexivity.
Qed.

Lemma entry_words_copy (BUFSIZ fuel : nat) :
  forall content, entry_words (copy_maps BUFSIZ fuel content) = [].
Proof.
  induction fuel as [|fuel IH]; intros content; cbn [copy_maps];
    [reflexivity|].
  destruct (firstn BUFSIZ content); [reflexivity|].
  cbn [entry_words flat_map entry_word app]. apply IH.
Qed.

Lemma not_after_sizes (r1 r2 : record) :
  not_after r1 r2 -> size r1 >= size r2.
Proof.
  unfold not_after, compareHeapRecords.
  destruct (Z.ltb_spec (size r1) (size r2)); lia.
Qed.

(** X23: the report lists the records by decreasing size word.  When
    [qsort] has sorted the records by the comparator (its result is a
    permutation of them in which no record is placed after a later one),
    the size words that the entry lines stand for, in the order printed,
    are those of the records in non-increasing order. *)
Theorem report_in_decreasing_order
    (qsort : (record -> record -> Z) -> list record -> list record)
    (BUFSIZ : nat) (leak : leak_info) (records : list record)
    (maps : option (list ascii)) :
  info leak = Some records ->
  infoSize leak <> 0 ->
  overallSize leak mod infoSize leak = 0 ->
  let input :=
    firstn (Z.to_nat (overallSize leak / infoSize leak)) records in
  Forall (fun r => 0 <= size r <= UINT_MAX) input ->
  Permutation.Permutation (qsort compareHeapRecords input) input ->
  Sorted.StronglySorted not_after (qsort compareHeapRecords input) ->
  let out := fst (dumpNativeHeap qsort BUFSIZ leak maps) in
  Sorted.StronglySorted Z.ge (entry_words out)
  /\ Permutation.Permutation (entry_words out) (map size input).
Proof.
  intros Hinfo Hsize Hmod input Hrange Hperm Hsorted out.
  assert (Hout : entry_words out
                 = map size (qsort compareHeapRecords input)).
  { subst out. unfold dumpNativeHeap. rewrite Hinfo.
    destruct (Z.eqb_spec (infoSize leak) 0) as [E|_]; [contradiction|].
    rewrite Hmod. cbn [Z.eqb negb orb fst]. fold input.
    rewrite !entry_words_app.
    rewrite (@entry_words_records (backtraceSize leak)
               (qsort compareHeapRecords input)).
    - assert (Hw : entry_words
                     (if backtraceSize leak =? Z.of_nat BACKTRACE_SIZE
                      then []
                      else [Fprintf
                              ("WARNING: mismatched backtrace sizes (%d vs. %d)"
                               ++ nl)
                              [Num (backtraceSize leak);
                               Num (Z.of_nat BACKTRACE_SIZE)]]) = [])
        by (destruct (backtraceSize leak =? Z.of_nat BACKTRACE_SIZE);
            reflexivity).
      rewrite Hw.
      assert (Ht : entry_words
                     match maps with
                     | None => [Fprintf ("Could not open %s" ++ nl)
                                  [Str "/proc/self/maps"]]
                     | Some content =>
                         copy_maps BUFSIZ (List.length content) content
                         ++ [Fprintf ("END" ++ nl) []]
                     end = []).
      { destruct maps as [content|]; [|reflexivity].
        rewrite entry_words_app, entry_words_copy. reflexivity. }
      rewrite Ht. cbn [entry_words flat_map entry_word app].
      rewrite app_nil_r. reflexivity.
    - apply (Permutation.Permutation_Forall (Permutation.Permutation_sym Hperm)).
      exact Hrange. }
  rewrite Hout. split.
  - clear Hout Hperm. induction Hsorted as [|r l _ IH Hall]; cbn [map].
    + constructor.
    + constructor; [exact IH|].
      apply Forall_map.
      apply (Forall_impl (fun r2 => size r >= size r2)
               (fun r2 => @not_after_sizes r r2) Hall).
  - apply Permutation.Permutation_map, Hperm.
Qed.

Lemma report_in_decreasing_order_witness :
  entry_words
    (fst (dumpNativeHeap (fun _ l => rev l) 4096
            (mk_leak (Some [Samples.plain_large; Samples.flagged_small])
                     272 136 110 32)
            None))
  = [size Samples.flagged_small; size Samples.plain_large]
  /\ Sorted.StronglySorted Z.ge
       [size Samples.flagged_small; size Samples.plain_large].
Proof.
  destruct (@report_in_decreasing_order (fun _ l => rev l) 4096
              (mk_leak (Some [Samples.plain_large; Samples.flagged_small])
                       272 136 110 32)
              [Samples.plain_large; Samples.flagged_small] None
              eq_refl)
    as [Hsorted _].
  - discriminate.
  - reflexivity.
  - repeat constructor; vm_compute; discriminate.
  - apply Permutation.Permutation_rev.
  - repeat constructor; vm_compute; discriminate.
  - split; [reflexivity|exact Hsorted].
Defined.

End ReportOrderFacts.



(** ** The totals against the listing *)

Module InputFacts.
Import CStr Int Libc Smaps Spec InputNotions SmapsFacts.

(** *** Statistic lines *)

Lemma stat_value_is_stat (k : key) (l : list ascii) (t : Z) :
  sscanf_kv (key_format k) (cut_nul l) = Some (Some t) ->
  is_stat_line l = true.
Proof.
  intros H. unfold is_stat_line, keys. cbn [existsb].
  destruct k; unfold stat_value; rewrite H; rewrite ?orb_true_r; reflexivity.
Qed.

(** One test of the chain at a time, the branches not taken being dropped. *)
Ltac scan_next :=
  match goal with
  | |- context [sscanf_kv ?k ?s] =>
      let E := fresh "E" in
      destruct (sscanf_kv k s) as [[?|]|] eqn:E; cbv beta iota
  end.

Lemma scan_stat_line_none (l : list ascii) (v : Var.t) :
  scan_stat_line (cut_nul l) v = Some None -> is_stat_line l = false.
Proof.
  unfold scan_stat_line, bind.
  do 8 (scan_next; try discriminate). intros _.
  unfold is_stat_line, keys, stat_value, key_format. cbn [existsb].
  repeat match goal with E : sscanf_kv _ _ = _ |- _ => rewrite E; clear E end.
  reflexivity.
Qed.

Lemma scan_stat_line_some (l : list ascii) (v w : Var.t) :
  scan_stat_line (cut_nul l) v = Some (Some w) ->
  is_stat_line l = true
  /\ forall k, variable k w = carried (stat_value k l) (variable k v).
Proof.
  intros H. split.
  - revert H. unfold scan_stat_line, bind.
    do 8 (try (scan_next; try discriminate;
               try (intros _;
                    match goal with
                    | E : sscanf_kv _ _ = Some (Some _) |- _ =>
                        first [ exact (@stat_value_is_stat Size _ _ E)
                              | exact (@stat_value_is_stat Rss _ _ E)
                              | exact (@stat_value_is_stat Pss _ _ E)
                              | exact (@stat_value_is_stat Shared_Clean _ _ E)
                              | exact (@stat_value_is_stat Shared_Dirty _ _ E)
                              | exact (@stat_value_is_stat Private_Clean _ _ E)
                              | exact (@stat_value_is_stat Private_Dirty _ _ E)
                              | exact (@stat_value_is_stat Referenced _ _ E) ]
                    end))).
  - intros k. unfold stat_value.
    destruct (sscanf_kv (key_format k) (cut_nul l)) as [[t|]|] eqn:E;
      cbn [carried].
    + destruct (@ParserFacts.scan_stat_line_key k (cut_nul l) t v E)
        as [w' [Hw' Ht]].
      rewrite Hw' in H. injection H as <-. exact Ht.
    + apply (@scan_stat_line_other k (cut_nul l) v w H E).
    + revert H. unfold scan_stat_line, bind.
      do 8 (try (scan_next; try discriminate;
                 try (intros [= <-]; destruct k; unfold key_format in E;
                      try reflexivity; congruence))).
Qed.

Lemma header_shaped_is_the_test (l : list ascii) :
  looks_like_header (cut_nul l) = header_shaped l.
Proof. reflexivity. Qed.

(** *** Lines whose numbers fit *)

Lemma scan_stat_line_fits (l : list ascii) (v : Var.t) :
  numbers_fit l = true -> scan_stat_line (cut_nul l) v <> None.
Proof.
  unfold numbers_fit, keys, key_format. cbn [forallb].
  unfold scan_stat_line, bind.
  do 8 (try (scan_next; try discriminate)).
  all: intros _; discriminate.
Qed.

Lemma read_stat_lines_fits (fp : FILE) :
  forall line v,
    Forall (fun l => numbers_fit l = true) fp ->
    read_stat_lines line v fp <> None.
Proof.
  induction fp as [|l fp IH]; intros line v Hall; cbn [read_stat_lines];
    [discriminate|].
  inversion Hall as [|? ? Hl Hall']; subst.
  destruct (scan_stat_line (cut_nul l) v) as [[w|]|] eqn:E; cbn [bind].
  - apply IH, Hall'.
  - destruct (looks_like_header (cut_nul l)); [discriminate|apply IH, Hall'].
  - destruct (@scan_stat_line_fits l v Hl E).
Qed.

(** *** The lines of a block *)

Lemma split_body (body : list (list ascii)) :
  Forall (fun l => closing l = false) body -> split body = (body, []).
Proof.
  induction 1 as [|l body Hl _ IH]; [reflexivity|].
  cbn [split]. rewrite IH, Hl. reflexivity.
Qed.

Lemma split_at_closing (body rest : list (list ascii)) (c : list ascii) :
  Forall (fun l => closing l = false) body -> closing c = true ->
  split (body ++ c :: rest) = (body, blocks_from c rest).
Proof.
  intros Hbody Hc. induction Hbody as [|l body Hl _ IH].
  - cbn [app split]. unfold blocks_from.
    destruct (split rest) as [b blocks]. rewrite Hc. reflexivity.
  - cbn [app split]. rewrite IH, Hl. reflexivity.
Qed.

Lemma stated_cons (k : key) (l : list ascii) (body : list (list ascii))
    (z : Z) :
  carried (stated k (l :: body)) z
  = carried (stated k body) (carried (stat_value k l) z).
Proof.
  cbn [stated]. destruct (stated k body); reflexivity.
Qed.

Lemma not_stat_no_value (k : key) (l : list ascii) :
  is_stat_line l = false -> stat_value k l = None.
Proof.
  unfold is_stat_line, keys. cbn [existsb]. intros H.
  destruct (stat_value k l) eqn:E; [|reflexivity].
  destruct k; rewrite E in H; rewrite ?orb_true_r in H; discriminate H.
Qed.

(** What [read_stat_lines] consumes is the body of the block, as the
    listing is split; each variable ends with the value the body states
    for its key, or with the one it had. *)
Lemma read_stat_lines_body (fp : FILE) :
  forall line v line' v' next,
    read_stat_lines line v fp = Some (line', v', next) ->
    exists body,
      Forall (fun l => closing l = false) body
      /\ (forall k, variable k v' = carried (stated k body) (variable k v))
      /\ match next with
         | None => fp = body
         | Some rest =>
             exists c buf,
               fp = body ++ c :: rest /\ closing c = true
               /\ line' = fgets_store c buf
         end.
Proof.
  induction fp as [|l fp IH]; intros line v line' v' next;
    cbn [read_stat_lines].
  - intros [= _ <- <-]. exists []. repeat split. constructor.
  - unfold bind at 1.
    destruct (scan_stat_line (cut_nul l) v) as [[w|]|] eqn:E;
      [| |discriminate].
    + intros Hrun. destruct (scan_stat_line_some l v E) as [Hstat Hw].
      destruct (IH _ _ _ _ _ Hrun) as [body [Hbody [Hvars Hnext]]].
      exists (l :: body). split; [|split].
      * constructor; [|exact Hbody]. unfold closing. now rewrite Hstat.
      * intros k. rewrite stated_cons, <- Hw. apply Hvars.
      * destruct next as [rest|].
        -- destruct Hnext as [c [buf [-> [Hc Hl]]]].
           exists c, buf. repeat split; assumption.
        -- now rewrite Hnext.
    + pose proof (scan_stat_line_none l v E) as Hstat.
      rewrite header_shaped_is_the_test.
      destruct (header_shaped l) eqn:Hh.
      * intros [= <- <- <-]. exists []. split; [constructor|].
        split; [reflexivity|]. exists l, line. repeat split.
        unfold closing. now rewrite Hstat, Hh.
      * intros Hrun.
        destruct (IH _ _ _ _ _ Hrun) as [body [Hbody [Hvars Hnext]]].
        exists (l :: body). split; [|split].
        -- constructor; [|exact Hbody]. unfold closing.
           now rewrite Hh, andb_false_r.
        -- intros k. rewrite stated_cons, (not_stat_no_value k l Hstat).
           apply Hvars.
        -- destruct next as [rest|].
           ++ destruct Hnext as [c [buf [-> [Hc Hl]]]].
              exists c, buf. repeat split; assumption.
           ++ now rewrite Hnext.
Qed.

(** *** The header line *)

(** The header of a frame whose buffer holds the line [h]. *)
Lemma read_header_of_line (f : frame) (h : list ascii) :
  str_at (line f) 0 = Some (cut_nul h) ->
  cut_nul h <> [] ->
  read_header f
  = (let line1 := store_nul (line f) (List.length (cut_nul h) - 1) in
     sc <- sscanf_header (removelast (cut_nul h)) ;;
     match sc with
     | Hdr2 start e n =>
         np <- (match n with Some p => Some p | None => name_pos f end) ;;
         np' <- skip_space_from (skipn np line1) np ;;
         name <- str_at line1 np' ;;
         let '(wh, sh, sw) := classify name start (end_ f) (whichHeap f) in
         Some (Header line1 (Some np') e false wh sh sw)
     | _ =>
         Some (Header line1 (name_pos f) (end_ f) true
                      HEAP_UNKNOWN HEAP_UNKNOWN false)
     end).
Proof.
  intros Hs Hne. unfold read_header. rewrite Hs. cbn [bind].
  assert (Hlen : (List.length (cut_nul h) <? 1)%nat = false).
  { apply Nat.ltb_ge. destruct (cut_nul h); [contradiction|cbn; lia]. }
  rewrite Hlen, (str_at_strip _ Hs). reflexivity.
Qed.

Lemma header_ok_not_empty (h : list ascii) :
  header_ok h = true -> cut_nul h <> [].
Proof.
  unfold header_ok. intros H E. rewrite E in H. discriminate H.
Qed.

(** An iteration on a block whose header is well formed. *)
Lemma loop_body_well_formed (f : frame) (h : list ascii) (fp : FILE)
    (stats : stats_array) (st : step) :
  str_at (line f) 0 = Some (cut_nul h) ->
  header_ok h = true ->
  loop_body f fp stats = Some st ->
  exists b stats' next body,
    step_block st = Some (b, stats', next)
    /\ b_skip b = false
    /\ Forall (fun l => closing l = false) body
    /\ Var.pss (b_vars b) = carried (stated Pss body) (Var.pss (vars f))
    /\ match st with
       | StepNext f' rest _ _ =>
           exists c,
             fp = body ++ c :: rest /\ closing c = true
             /\ str_at (line f') 0 = Some (cut_nul c)
             /\ vars f' = b_vars b
       | _ => fp = body
       end.
Proof.
  intros Hs Hok. unfold loop_body.
  rewrite (read_header_of_line f h Hs (header_ok_not_empty h Hok)).
  cbv zeta. unfold header_ok in Hok.
  destruct (sscanf_header (removelast (cut_nul h))) as [[|s1|s1 e n]|];
    try discriminate Hok.
  cbn [bind].
  destruct (match n with Some p => Some p | None => name_pos f end)
    as [np|]; [|discriminate].
  cbn [bind].
  destruct (skip_space_from _ np) as [np'|]; [|discriminate].
  cbn [bind].
  destruct (str_at _ np') as [name|]; [|discriminate].
  cbn [bind].
  destruct (classify name s1 (end_ f) (whichHeap f)) as [[wh sh] sw].
  cbn [bind].
  destruct (read_stat_lines _ (vars f) fp) as [[[line2 v2] next]|] eqn:Hr;
    [|discriminate].
  cbn [bind].
  destruct (finish_block false wh sh sw v2 stats) as [[v3 stats1]|] eqn:Hf;
    [|discriminate].
  cbn [bind].
  apply finish_block_apply in Hf. destruct Hf as [_ Hpss].
  destruct (read_stat_lines_body _ _ _ Hr) as [body [Hbody [Hv Hnext]]].
  destruct next as [rest|]; intros [= <-].
  - destruct Hnext as [c [buf [Hfp [Hc Hl]]]].
    exists (mk_block false wh sh sw v3), stats1, (Some rest), body.
    split; [reflexivity|]. split; [reflexivity|]. split; [exact Hbody|].
    split; [cbn [b_vars]; rewrite Hpss; exact (Hv Pss)|].
    exists c. split; [exact Hfp|]. split; [exact Hc|].
    split; [|reflexivity]. cbn [line]. rewrite Hl.
    rewrite (@BinderFacts.stored_string c buf 0) by lia.
    rewrite skipn_O. reflexivity.
  - exists (mk_block false wh sh sw v3), stats1, None, body.
    split; [reflexivity|]. split; [reflexivity|]. split; [exact Hbody|].
    split; [cbn [b_vars]; rewrite Hpss; exact (Hv Pss)|exact Hnext].
Qed.

(** *** The loop *)

Lemma total_in_force_stated (blocks : list (list ascii * list (list ascii))) :
  forall z,
    Forall states_pss blocks -> total_in_force z blocks = blocks_total blocks.
Proof.
  induction blocks as [|blk blocks IH]; intros z Hall; [reflexivity|].
  inversion Hall as [|? ? Hp Hall']; subst.
  cbn [total_in_force blocks_total fold_right]. fold (blocks_total blocks).
  rewrite (IH _ Hall'). unfold block_pss, states_pss in *.
  destruct (stated Pss (snd blk)); [reflexivity|contradiction].
Qed.

Lemma mapinfo_loop_listing (fuel : nat) :
  forall f h fp stats trace stats' trace',
    mapinfo_loop fuel f fp stats trace = Done (stats', trace') ->
    str_at (line f) 0 = Some (cut_nul h) ->
    Forall well_formed_block (blocks_from h fp) ->
    exists blocks,
      trace' = trace ++ blocks
      /\ well_formed_headers blocks
      /\ blocks_pss blocks
         = total_in_force (Var.pss (vars f)) (blocks_from h fp).
Proof.
  induction fuel as [|fuel IH]; intros f h fp stats trace stats' trace';
    cbn [mapinfo_loop]; [discriminate|].
  destruct (loop_body f fp stats) as [st|] eqn:Hb; [|discriminate].
  intros Hrun Hs Hwf.
  assert (Hok : header_ok h = true).
  { unfold blocks_from in Hwf. destruct (split fp) as [b0 bl].
    inversion Hwf as [|? ? Hh _]. exact Hh. }
  destruct (loop_body_well_formed f h fp stats Hs Hok Hb)
    as [b [stats1 [next [body [Hstep [Hskip [Hbody [Hv Hst]]]]]]]].
  destruct st as [|stats2 b2|f2 rest stats2 b2]; cbn in Hstep;
    [discriminate| |]; injection Hstep as -> -> <-.
  - injection Hrun as _ <-. subst fp.
    unfold blocks_from. rewrite (@split_body body Hbody).
    exists [b]. split; [reflexivity|].
    split; [repeat constructor; exact Hskip|].
    cbn [blocks_pss total_in_force fold_right snd]. rewrite Hv. lia.
  - destruct Hst as [c [Hfp [Hc [Hs2 Hv2]]]]. subst fp.
    unfold blocks_from in Hwf |- *.
    rewrite (@split_at_closing body rest c Hbody Hc) in Hwf |- *.
    inversion Hwf as [|? ? _ Hwf']. subst.
    destruct (IH _ _ _ _ _ _ _ Hrun Hs2 Hwf') as [blocks [-> [Hall Hsum]]].
    exists (b :: blocks). rewrite <- app_assoc. split; [reflexivity|].
    split; [constructor; assumption|].
    cbn [blocks_pss total_in_force fold_right snd].
    fold (blocks_pss blocks). rewrite Hsum, Hv2, Hv. reflexivity.
Qed.

(** The blocks [read_mapinfo] completes are those of the listing, none
    skipped, each with the pss in force for it. *)
Lemma read_mapinfo_listing (fp : FILE) (stats : stats_array)
    (trace : list block) :
  read_mapinfo_blocks fp stats_zero = Done (stats, trace) ->
  Forall well_formed_block (input_blocks fp) ->
  well_formed_headers trace /\ blocks_pss trace = pss_in_force fp.
Proof.
  unfold read_mapinfo_blocks, pss_in_force, input_blocks.
  destruct fp as [|h fp].
  - intros [= _ <-] _. split; [constructor|reflexivity].
  - intros Hrun Hwf.
    destruct (@mapinfo_loop_listing _ _ h _ _ _ _ _ Hrun) as
      [blocks [-> [Hall Hsum]]]; try assumption.
    + cbn [line]. rewrite (@BinderFacts.stored_string h [] 0) by lia.
      rewrite skipn_O. reflexivity.
    + split; assumption.
Qed.

(** C1, amended: for every listing whose blocks all have a well-formed
    header, once [read_mapinfo] is done the sum of the pss totals of the
    sixteen primary heaps (the Dalvik sub-heaps left out) is, modulo
    [2^32], the sum over the blocks of the listing of the pss in force
    for the block: the value of its last [Pss:] line or, when it has
    none, the one in force for the block before it; it is that sum when
    it fits an [int], and it is the sum of the pss of the blocks when
    every block states one.  When the loop of [getDirtyPagesPid] then
    folds the other primary heaps into [HEAP_UNKNOWN] without any [int]
    overflow, the three core heaps add up to the same. *)
Theorem primary_pss_totals_sum_the_listing (fp : FILE) (stats : stats_array) :
  read_mapinfo fp stats_zero = Done stats ->
  Forall well_formed_block (input_blocks fp) ->
  sum_over primary_heaps pss stats mod 4294967296
  = pss_in_force fp mod 4294967296
  /\ (pss_in_force fp <= INT_MAX ->
      sum_over primary_heaps pss stats = pss_in_force fp)
  /\ (Forall states_pss (input_blocks fp) -> pss_in_force fp = input_pss fp)
  /\ (forall stats',
        DirtyPages.fold_heaps stats
          (heap_range _NUM_CORE_HEAP _NUM_EXCLUSIVE_HEAP) = Some stats' ->
        sum_over core_heaps pss stats' = sum_over primary_heaps pss stats).
Proof.
  unfold read_mapinfo.
  destruct (read_mapinfo_blocks fp stats_zero) as [[stats0 trace]| |] eqn:Hrun;
    try discriminate.
  intros [= ->] Hwf.
  destruct (@read_mapinfo_listing fp _ trace Hrun Hwf) as [Hskip Hsum].
  apply read_mapinfo_fold in Hrun. destruct Hrun as [-> Hall].
  rewrite <- Hsum, <- (counted_pss_well_formed Hskip).
  split; [|split; [|split]].
  - destruct (fold_apply_congruent stats_zero Hall) as [k Hk].
    rewrite Hk. change (sum_over primary_heaps pss stats_zero) with 0.
    rewrite Z.add_0_l. apply Z.mod_add. lia.
  - intros Hmax.
    rewrite fold_apply_exact; try assumption.
    + reflexivity.
    + intros h _. cbn. lia.
  - intros Hpss. rewrite (counted_pss_well_formed Hskip), Hsum.
    apply total_in_force_stated, Hpss.
  - intros stats' Hfold.
    apply fold_heaps_pss in Hfold;
      [|cbn; intuition discriminate].
    destruct Hfold as [Hu Hother].
    set (st := fold_left apply_block trace stats_zero) in *.
    change (sum_over core_heaps pss stats')
      with (pss (stats' HEAP_UNKNOWN)
            + (pss (stats' HEAP_DALVIK) + (pss (stats' HEAP_NATIVE) + 0))).
    change (sum_over primary_heaps pss st)
      with (pss (st HEAP_UNKNOWN)
            + (pss (st HEAP_DALVIK)
               + (pss (st HEAP_NATIVE)
                  + sum_over (heap_range _NUM_CORE_HEAP _NUM_EXCLUSIVE_HEAP)
                             pss st))).
    rewrite Hu, !Hother by discriminate. lia.
Qed.

Lemma primary_pss_totals_sum_the_listing_witness :
  exists stats,
    read_mapinfo (fopen Samples.libfoo_then_heap) stats_zero = Done stats
    /\ input_pss (fopen Samples.libfoo_then_heap) = 103
    /\ sum_over primary_heaps pss stats = 103.
Proof.
  destruct (read_mapinfo (fopen Samples.libfoo_then_heap) stats_zero)
    as [stats| |] eqn:E; try (vm_compute in E; discriminate E).
  exists stats. split; [reflexivity|]. split; [reflexivity|].
  destruct (@primary_pss_totals_sum_the_listing _ _ E) as [_ [Hexact _]].
  - repeat constructor.
  - rewrite Hexact; [reflexivity|]. vm_compute. discriminate.
Defined.

(** C1, as stated, fails, in three ways.  Over the full set of totals a
    Dalvik mapping is counted twice, under its heap and under its
    sub-heap: one block of pss 100 gives the sum 200.  The totals are
    [int]s: two blocks of pss 2147483647 give the total -2.  And a block
    that states no pss is counted with the pss of the block before it: a
    library of pss 100 and then a heap mapping without a [Pss:] line give
    200. *)
Lemma pss_sum_over_full_set_fails :
  (Forall well_formed_block (input_blocks (fopen Samples.dalvik_heap))
   /\ input_pss (fopen Samples.dalvik_heap) = 100
   /\ exists st,
       read_mapinfo (fopen Samples.dalvik_heap) stats_zero = Done st
       /\ sum_over all_heaps pss st = 200)
  /\ (Forall well_formed_block (input_blocks (fopen Samples.two_large))
      /\ input_pss (fopen Samples.two_large) = 4294967294
      /\ exists st,
          read_mapinfo (fopen Samples.two_large) stats_zero = Done st
          /\ sum_over all_heaps pss st = -2
          /\ sum_over primary_heaps pss st = -2)
  /\ (Forall well_formed_block
        (input_blocks (fopen Listings.libfoo_then_bare_heap))
      /\ input_pss (fopen Listings.libfoo_then_bare_heap) = 100
      /\ pss_in_force (fopen Listings.libfoo_then_bare_heap) = 200
      /\ exists st,
          read_mapinfo (fopen Listings.libfoo_then_bare_heap) stats_zero
          = Done st
          /\ sum_over all_heaps pss st = 200
          /\ pss (st HEAP_SO) = 100 /\ pss (st HEAP_NATIVE) = 100).
Proof.
  split; [|split].
  - split; [repeat constructor|]. split; [reflexivity|].
    destruct (read_mapinfo (fopen Samples.dalvik_heap) stats_zero)
      as [st| |] eqn:E; vm_compute in E; try discriminate E.
    exists st. split; [reflexivity|]. injection E as <-. reflexivity.
  - split; [repeat constructor|]. split; [reflexivity|].
    destruct (read_mapinfo (fopen Samples.two_large) stats_zero)
      as [st| |] eqn:E; vm_compute in E; try discriminate E.
    exists st. split; [reflexivity|]. injection E as <-. split; reflexivity.
  - split; [repeat constructor|]. split; [reflexivity|].
    split; [reflexivity|].
    destruct (read_mapinfo (fopen Listings.libfoo_then_bare_heap) stats_zero)
      as [st| |] eqn:E; vm_compute in E; try discriminate E.
    exists st. split; [reflexivity|]. injection E as <-.
    repeat split.
Qed.

(** *** A block whose header is malformed *)

Lemma split_unique (body body' rest rest' : list (list ascii))
    (c c' : list ascii) :
  Forall (fun l => closing l = false) body -> closing c = true ->
  Forall (fun l => closing l = false) body' -> closing c' = true ->
  body ++ c :: rest = body' ++ c' :: rest' ->
  body = body' /\ c = c' /\ rest = rest'.
Proof.
  intros Hb Hc Hb' Hc' E.
  pose proof (@split_at_closing body rest c Hb Hc) as H1.
  pose proof (@split_at_closing body' rest' c' Hb' Hc') as H2.
  rewrite E, H2 in H1. injection H1 as Hbody _. subst body'.
  apply app_inv_head in E. injection E as -> ->. auto.
Qed.

Lemma split_no_closing (body body' rest : list (list ascii)) (c : list ascii) :
  Forall (fun l => closing l = false) body -> closing c = true ->
  Forall (fun l => closing l = false) body' ->
  body ++ c :: rest <> body'.
Proof.
  intros Hb Hc Hb' E.
  pose proof (@split_at_closing body rest c Hb Hc) as H1.
  rewrite E, (@split_body body' Hb') in H1.
  unfold blocks_from in H1. destruct (split rest). discriminate H1.
Qed.

(** An iteration on a block whose header is malformed. *)
Lemma loop_body_malformed (f : frame) (h : list ascii) (fp : FILE)
    (stats : stats_array) (st : step) :
  str_at (line f) 0 = Some (cut_nul h) ->
  cut_nul h <> [] ->
  header_ok h = false ->
  loop_body f fp stats = Some st ->
  exists v body,
    Forall (fun l => closing l = false) body
    /\ (forall k, variable k v = carried (stated k body) (variable k (vars f)))
    /\ match st with
       | StepReturn => False
       | StepDone stats' b =>
           stats' = stats /\ b = skipped_block v /\ fp = body
       | StepNext f' rest stats' b =>
           stats' = stats /\ b = skipped_block v
           /\ exists c,
               fp = body ++ c :: rest /\ closing c = true
               /\ str_at (line f') 0 = Some (cut_nul c)
               /\ vars f' = v /\ whichHeap f' = HEAP_UNKNOWN
               /\ end_ f' = end_ f
       end.
Proof.
  intros Hs Hne Hok. unfold loop_body.
  rewrite (read_header_of_line f h Hs Hne). cbv zeta.
  unfold header_ok in Hok.
  assert (Hskip :
    forall line1,
      (' (line2, v2, next) <- read_stat_lines line1 (vars f) fp ;;
       ' (v3, stats') <-
         finish_block true HEAP_UNKNOWN HEAP_UNKNOWN false v2 stats ;;
       let b := mk_block true HEAP_UNKNOWN HEAP_UNKNOWN false v3 in
       match next with
       | None => Some (StepDone stats' b)
       | Some fp' =>
           Some (StepNext
                   (mk_frame line2 (name_pos f) (end_ f) HEAP_UNKNOWN v3)
                   fp' stats' b)
       end) = Some st ->
      exists v body,
        Forall (fun l => closing l = false) body
        /\ (forall k,
              variable k v = carried (stated k body) (variable k (vars f)))
        /\ match st with
           | StepReturn => False
           | StepDone stats' b =>
               stats' = stats /\ b = skipped_block v /\ fp = body
           | StepNext f' rest stats' b =>
               stats' = stats /\ b = skipped_block v
               /\ exists c,
                   fp = body ++ c :: rest /\ closing c = true
                   /\ str_at (line f') 0 = Some (cut_nul c)
                   /\ vars f' = v /\ whichHeap f' = HEAP_UNKNOWN
                   /\ end_ f' = end_ f
           end).
  { intros line1.
    destruct (read_stat_lines line1 (vars f) fp)
      as [[[line2 v2] next]|] eqn:Hr; [|discriminate].
    cbn [bind finish_block].
    destruct (read_stat_lines_body _ _ _ Hr) as [body [Hbody [Hvars Hnext]]].
    destruct next as [rest|]; intros [= <-]; exists v2, body;
      (split; [exact Hbody|]); (split; [exact Hvars|]).
    - split; [reflexivity|]. split; [reflexivity|].
      destruct Hnext as [c [buf [Hfp [Hc Hl]]]].
      exists c. split; [exact Hfp|]. split; [exact Hc|].
      cbn [line vars whichHeap end_]. rewrite Hl.
      rewrite (@BinderFacts.stored_string c buf 0) by lia.
      rewrite skipn_O. repeat split.
    - split; [reflexivity|]. split; [reflexivity|exact Hnext]. }
  destruct (sscanf_header (removelast (cut_nul h))) as [[|s1|s1 e n]|];
    try discriminate Hok; cbn [bind]; [apply Hskip|apply Hskip|discriminate].
Qed.

(** An iteration on a header line that is the empty string: the function
    returns (line 171). *)
Lemma loop_body_empty_line (f : frame) (fp : FILE) (stats : stats_array) :
  str_at (line f) 0 = Some [] -> loop_body f fp stats = Some StepReturn.
Proof.
  intros Hs. unfold loop_body, read_header. rewrite Hs. reflexivity.
Qed.

(** An iteration on a malformed header is defined when the numbers of the
    lines fit. *)
Lemma loop_body_malformed_defined (f : frame) (h : list ascii) (fp : FILE)
    (stats : stats_array) :
  str_at (line f) 0 = Some (cut_nul h) ->
  cut_nul h <> [] ->
  header_ok h = false ->
  sscanf_header (removelast (cut_nul h)) <> None ->
  Forall (fun l => numbers_fit l = true) fp ->
  loop_body f fp stats <> None.
Proof.
  intros Hs Hne Hok Hdef Hfit. unfold loop_body.
  rewrite (read_header_of_line f h Hs Hne). cbv zeta.
  unfold header_ok in Hok.
  assert (Hskip :
    forall line1,
      (' (line2, v2, next) <- read_stat_lines line1 (vars f) fp ;;
       ' (v3, stats') <-
         finish_block true HEAP_UNKNOWN HEAP_UNKNOWN false v2 stats ;;
       let b := mk_block true HEAP_UNKNOWN HEAP_UNKNOWN false v3 in
       match next with
       | None => Some (StepDone stats' b)
       | Some fp' =>
           Some (StepNext
                   (mk_frame line2 (name_pos f) (end_ f) HEAP_UNKNOWN v3)
                   fp' stats' b)
       end) <> None).
  { intros line1.
    destruct (read_stat_lines line1 (vars f) fp)
      as [[[line2 v2] next]|] eqn:Hr;
      [|destruct (@read_stat_lines_fits fp line1 (vars f) Hfit Hr)].
    cbn [bind finish_block]. destruct next; discriminate. }
  destruct (sscanf_header (removelast (cut_nul h))) as [[|s1|s1 e n]|];
    try discriminate Hok; cbn [bind];
    [apply Hskip|apply Hskip|contradiction].
Qed.

(** C5, amended: when the header line of a block fails the pattern and
    is not the empty string, the iteration that completes the block
    leaves every total of every heap as it was, whatever the statistic
    lines that follow, and it consumes these lines up to the first line
    that has the shape of a header and gives no statistic, with which
    the next iteration starts (or up to the end of the listing); the
    iteration is defined whenever the numbers of the lines fit an [int].
    What it hands to the next iteration is the end address it began
    with, the heap [HEAP_UNKNOWN], and the variables: each holds the
    value the lines of the block state for its key, or else the value it
    had.  When the header line is the empty string the function returns
    at once, and reads no further line. *)
Theorem malformed_header_adds_nothing (f : frame) (h buf : list ascii)
    (body : list (list ascii)) (stats : stats_array) :
  line f = fgets_store h buf ->
  header_ok h = false ->
  Forall (fun l => closing l = false) body ->
  (cut_nul h <> [] ->
   (forall st,
       loop_body f body stats = Some st ->
       exists v, st = StepDone stats (skipped_block v))
   /\ (forall c rest st,
         closing c = true ->
         loop_body f (body ++ c :: rest) stats = Some st ->
         exists f' v,
           st = StepNext f' rest stats (skipped_block v)
           /\ str_at (line f') 0 = Some (cut_nul c)
           /\ vars f' = v /\ whichHeap f' = HEAP_UNKNOWN
           /\ end_ f' = end_ f
           /\ forall k,
               variable k v = carried (stated k body) (variable k (vars f)))
   /\ (sscanf_header (removelast (cut_nul h)) <> None ->
       forall fp,
         Forall (fun l => numbers_fit l = true) fp ->
         loop_body f fp stats <> None))
  /\ (cut_nul h = [] -> forall fp, loop_body f fp stats = Some StepReturn)
  /\ (forall st v hp, apply_block st (skipped_block v) hp = st hp).
Proof.
  intros Hline Hok Hbody.
  assert (Hs : str_at (line f) 0 = Some (cut_nul h)).
  { rewrite Hline, (@BinderFacts.stored_string h buf 0) by lia.
    rewrite skipn_O. reflexivity. }
  split; [intros Hne; split; [|split]|split].
  - intros st Hrun.
    destruct (loop_body_malformed f h body stats Hs Hne Hok Hrun)
      as [v [body' [Hbody' [_ Hst]]]].
    destruct st as [|stats' b|f' rest stats' b]; [contradiction| |].
    + destruct Hst as [-> [-> _]]. exists v. reflexivity.
    + destruct Hst as [_ [_ [c [Hfp [Hc _]]]]].
      symmetry in Hfp.
      destruct (@split_no_closing body' body rest c Hbody' Hc Hbody Hfp).
  - intros c rest st Hc Hrun.
    destruct (loop_body_malformed f h (body ++ c :: rest) stats
                Hs Hne Hok Hrun) as [v [body' [Hbody' [Hvars Hst]]]].
    destruct st as [|stats' b|f' rest' stats' b]; [contradiction| |].
    + destruct Hst as [_ [_ Hfp]].
      destruct (@split_no_closing body body' rest c Hbody Hc Hbody' Hfp).
    + destruct Hst as [-> [-> [c' [Hfp [Hc' [Hs' [Hv [Hwh He]]]]]]]].
      destruct (@split_unique body body' rest rest' c c'
                  Hbody Hc Hbody' Hc' Hfp) as [<- [<- <-]].
      exists f', v. repeat split; assumption.
  - intros Hdef fp Hfit.
    exact (@loop_body_malformed_defined f h fp stats Hs Hne Hok Hdef Hfit).
  - intros He fp. rewrite He in Hs.
    exact (@loop_body_empty_line f fp stats Hs).
  - reflexivity.
Qed.

Lemma malformed_header_adds_nothing_witness :
  exists f' v,
    loop_body
      (mk_frame (fgets_store (lit Listings.malformed_line) [])
                None 0 HEAP_UNKNOWN Var.zero)
      (fopen ("Pss:                 999 kB" ++ Samples.nl ++
              "a line of text" ++ Samples.nl ++
              Listings.stack_alone))
      stats_zero
    = Some (StepNext f' (fopen ("Rss:                   1 kB" ++ Samples.nl))
              stats_zero (skipped_block v))
    /\ Var.pss v = 999.
Proof.
  destruct (@malformed_header_adds_nothing
              (mk_frame (fgets_store (lit Listings.malformed_line) [])
                        None 0 HEAP_UNKNOWN Var.zero)
              (lit Listings.malformed_line) []
              [lit ("Pss:                 999 kB" ++ Samples.nl);
               lit ("a line of text" ++ Samples.nl)]
              stats_zero eq_refl)
    as [Hblock _].
  - reflexivity.
  - repeat constructor.
  - destruct Hblock as [_ [Hnext Hdef]]; [discriminate|].
    destruct (loop_body
        (mk_frame (fgets_store (lit Listings.malformed_line) [])
                  None 0 HEAP_UNKNOWN Var.zero)
        (fopen ("Pss:                 999 kB" ++ Samples.nl ++
                "a line of text" ++ Samples.nl ++
                Listings.stack_alone))
        stats_zero) as [st|] eqn:E.
    + destruct (Hnext
                  (lit ("00020000-00021000 rw-p 00000000 00:00 0          [stack]"
                        ++ Samples.nl))
                  (fopen ("Rss:                   1 kB" ++ Samples.nl))
                  st eq_refl E) as [f' [v [-> [_ [_ [_ [_ Hvars]]]]]]].
      exists f', v. split; [reflexivity|].
      change (Var.pss v) with (variable Pss v).
      rewrite (Hvars Pss). reflexivity.
    + exfalso. revert E. apply Hdef; [discriminate|].
      repeat constructor.
Defined.

(** C5, as stated, fails, in two ways.  The values that the statistic
    lines of the block store stay in the variables of the parser, and the
    next block adds them when it does not state its own: after a
    malformed header with [Pss: 999] and [Private_Dirty: 999], a stack
    mapping that states neither gets 999 in both totals; without the
    malformed block it gets 0.  And a header line that is the empty
    string ends the parse, the lines after it being left unread: the heap
    mapping of pss 3 that follows such a line adds nothing. *)
Lemma malformed_block_values_are_added :
  (header_ok (lit Listings.malformed_line) = false
   /\ exists with_block without_block,
       read_mapinfo (fopen Listings.malformed_then_stack) stats_zero
       = Done with_block
       /\ read_mapinfo (fopen Listings.stack_alone) stats_zero
          = Done without_block
       /\ pss (with_block HEAP_STACK) = 999
       /\ privateDirty (with_block HEAP_STACK) = 999
       /\ pss (without_block HEAP_STACK) = 0
       /\ privateDirty (without_block HEAP_STACK) = 0
       /\ ~ same_totals with_block without_block)
  /\ (header_ok (lit Listings.nul_line) = false
      /\ map fst (input_blocks (fopen Listings.nul_line_then_heap))
         = [lit Listings.nul_line;
            lit ("00010000-00011000 rw-p 00000000 00:00 0          [heap]"
                 ++ Samples.nl)]
      /\ read_mapinfo_blocks (fopen Listings.nul_line_then_heap) stats_zero
         = Done (stats_zero, [])
      /\ exists without_line,
          read_mapinfo (fopen Listings.heap_with_pss) stats_zero
          = Done without_line
          /\ pss (without_line HEAP_NATIVE) = 3).
Proof.
  split.
  - split; [reflexivity|].
    destruct (read_mapinfo (fopen Listings.malformed_then_stack) stats_zero)
      as [s1| |] eqn:E1; vm_compute in E1; try discriminate E1.
    destruct (read_mapinfo (fopen Listings.stack_alone) stats_zero)
      as [s2| |] eqn:E2; vm_compute in E2; try discriminate E2.
    exists s1, s2. split; [reflexivity|]. split; [reflexivity|].
    injection E1 as <-. injection E2 as <-.
    repeat split. intros Hsame. specialize (Hsame HEAP_STACK).
    discriminate Hsame.
  - split; [reflexivity|]. split; [reflexivity|]. split; [reflexivity|].
    destruct (read_mapinfo (fopen Listings.heap_with_pss) stats_zero)
      as [s1| |] eqn:E1; vm_compute in E1; try discriminate E1.
    exists s1. split; [reflexivity|]. injection E1 as <-. reflexivity.
Qed.

(** *** C2: the quotient of the swappable pss *)

(** C2 fails on the code: the quotient of line 297 is taken in
    [unsigned] arithmetic before it is stored in the [float].  For the
    library of the listing, of pss 100 with 20 and 10 private and 50 and
    50 shared, [read_mapinfo] adds 20 to the swappable pss of its heap,
    where the formula gives 55. *)
Lemma swappable_pss_quotient_is_truncated :
  (exists stats trace,
      read_mapinfo_blocks (fopen Listings.libfoo_shared_evenly) stats_zero
      = Done (stats, trace)
      /\ map b_whichHeap trace = [HEAP_SO]
      /\ map b_is_swappable trace = [true]
      /\ map (fun b => Var.swappable_pss (b_vars b)) trace = [20]
      /\ swappablePss (stats HEAP_SO) = 20)
  /\ QArith_base.Qeq (swappable_pss_rational true 100 20 10 50 50)
                     (QArith_base.inject_Z 55).
Proof.
  split; [|reflexivity].
  destruct (read_mapinfo_blocks (fopen Listings.libfoo_shared_evenly)
              stats_zero) as [[stats trace]| |] eqn:E;
    vm_compute in E; try discriminate E.
  exists stats, trace. split; [reflexivity|].
  injection E as <- <-. repeat split.
Qed.

End InputFacts.


(** ** A heap mapping, through the parser *)

Module HeapMappingFacts.
Import CStr Int Libc Smaps Spec InputNotions HeaderNotions SmapsFacts.
(** C9: for every block whose header line is of the kernel's form with
    a name that begins with [[heap]], and whatever the statistic lines
    that follow and the values the variables hold, the iteration of
    [read_mapinfo] that completes the block classifies it [HEAP_NATIVE],
    not swappable, and adds 0 to the swappable pss of that heap; the
    totals of the other heaps stay as they were.  The iteration is
    defined whenever the numbers of the lines fit an [int]. *)
Theorem heap_mapping_is_native (f : frame) (m : mapping)
    (gap rest buf : list ascii) (last : ascii) (fp : FILE)
    (stats : stats_array) :
  well_formed m -> gap_ok gap (lit "[heap]" ++ rest) -> no_nul rest ->
  is_nul last = false ->
  line f = fgets_store (fields m ++ gap ++ (lit "[heap]" ++ rest) ++ [last])
                       buf ->
  (forall st,
      loop_body f fp stats = Some st ->
      exists b stats' next,
        step_block st = Some (b, stats', next)
        /\ b_skip b = false
        /\ b_whichHeap b = HEAP_NATIVE
        /\ b_subHeap b = HEAP_UNKNOWN
        /\ b_is_swappable b = false
        /\ Var.swappable_pss (b_vars b) = 0
        /\ swappablePss (stats' HEAP_NATIVE)
           = s32 (swappablePss (stats HEAP_NATIVE) + 0)
        /\ forall h, h <> HEAP_NATIVE -> stats' h = stats h)
  /\ (Forall (fun l => numbers_fit l = true) fp ->
      loop_body f fp stats <> None).
Proof.
  intros Hm Hgap Hrest Hlast Hline.
  assert (Hname : name_ok (lit "[heap]" ++ rest)).
  { split; [|reflexivity].
    apply Forall_app. split; [repeat constructor|exact Hrest]. }
  unfold loop_body.
  rewrite (@HeaderFacts.read_header_fields f m gap (lit "[heap]" ++ rest)
             buf last Hm Hgap Hname Hlast Hline).
  cbv zeta.
  assert (Hc : classify (lit "[heap]" ++ rest) (hex_value (m_start m))
                 (end_ f) (whichHeap f)
               = (HEAP_NATIVE, HEAP_UNKNOWN, false)).
  { unfold classify. rewrite strstr_at_start_prefix. reflexivity. }
  rewrite Hc. cbn [bind fst snd].
  split.
  - intros st.
    destruct (read_stat_lines _ (vars f) fp) as [[[line2 v2] next]|];
      [|discriminate].
    cbn [bind finish_block compute_swappable_pss andb heap_eqb heap_index
         Nat.eqb orb].
    assert (Hadd :
      swappablePss
        (add_block stats HEAP_NATIVE (Var.set_swappable_pss v2 0) HEAP_NATIVE)
      = s32 (swappablePss (stats HEAP_NATIVE) + 0)
      /\ forall h, h <> HEAP_NATIVE ->
           add_block stats HEAP_NATIVE (Var.set_swappable_pss v2 0) h
           = stats h).
    { unfold add_block, set_stats. split; [reflexivity|].
      intros h Hh. destruct (heap_eqb h HEAP_NATIVE) eqn:E; [|reflexivity].
      apply heap_eqb_eq in E. contradiction. }
    destruct Hadd as [Hsw Hother].
    destruct next as [fp'|]; intros [= <-]; cbn [step_block];
      eexists; eexists; eexists; (split; [reflexivity|]);
      cbn [b_skip b_whichHeap b_subHeap b_is_swappable b_vars];
      repeat split; try exact Hsw; try exact Hother.
  - intros Hfit.
    match goal with
    | |- context [read_stat_lines ?l ?v fp] =>
        destruct (read_stat_lines l v fp) as [[[line2 v2] next]|] eqn:Hr;
          [|destruct (@InputFacts.read_stat_lines_fits fp l v Hfit Hr)]
    end.
    cbn [bind finish_block compute_swappable_pss andb heap_eqb heap_index
         Nat.eqb orb].
    destruct next; discriminate.
Qed.

Lemma heap_mapping_is_native_witness :
  exists stats' b,
    loop_body
      (mk_frame (fgets_store (lit Listings.heap_header) []) None 0
                HEAP_UNKNOWN Var.zero)
      (fopen Listings.heap_statistics) stats_zero
    = Some (StepDone stats' b)
    /\ Var.pss (b_vars b) = 100
    /\ Var.shared_clean (b_vars b) = 50
    /\ Var.swappable_pss (b_vars b) = 0
    /\ swappablePss (stats' HEAP_NATIVE) = 0.
Proof.
  destruct (loop_body
      (mk_frame (fgets_store (lit Listings.heap_header) []) None 0
                HEAP_UNKNOWN Var.zero)
      (fopen Listings.heap_statistics) stats_zero)
    as [[|stats' b|f' fp' stats' b]|] eqn:E;
    try (vm_compute in E; discriminate E).
  destruct (@heap_mapping_is_native
              (mk_frame (fgets_store (lit Listings.heap_header) []) None 0
                        HEAP_UNKNOWN Var.zero)
              (mk_mapping (lit "00010000") (lit "00011000") (lit "rw-p")
                          (lit "00000000") (lit "00") (lit "00") (lit "0"))
              (lit "          ") [] [] (ascii_of_N 10)
              (fopen Listings.heap_statistics) stats_zero)
    as [Hblock _].
  - repeat split; try discriminate; vm_compute; discriminate.
  - split; [reflexivity|discriminate].
  - constructor.
  - reflexivity.
  - reflexivity.
  - destruct (Hblock (StepDone stats' b) E)
      as [b0 [stats0 [next [Hstep [_ [_ [_ [_ [Hsw [Htotal _]]]]]]]]]].
    cbn [step_block] in Hstep. injection Hstep as <- <- _.
    exists stats', b. split; [reflexivity|].
    pose proof E as E'. vm_compute in E'. injection E' as _ Hb.
    split; [rewrite <- Hb; reflexivity|].
    split; [rewrite <- Hb; reflexivity|].
    split; [exact Hsw|]. rewrite Htotal. reflexivity.
Defined.

End HeapMappingFacts.
